(** * FSearch: the application glue around the database

    A shallow embedding of [src/fsearch.c] (the [FsearchApplication]
    object: the queue of scan and load requests, the handler that publishes
    their results, the periodic update timer) and of the parent-folder
    opener of [src/fsearch_file_utils.c].

    The C code runs on two threads, the GTK main thread and the single
    thread of [db_pool].  Every function of the main thread is embedded as
    one atomic state transformer.  [database_pool_func], which runs on the
    worker thread, is cut at its blocking call ([db_scan] or [db_load]), so
    that main-thread functions can run while the call is under way.  What
    the calls into the database module return ([db_scan], [db_load],
    [db_save]) and what [config_cmp] returns is supplied from outside, as
    the C code receives it.  Windows, accelerators, D-Bus names and the
    preview are left out; memory is not modelled beyond the calls to
    [db_ref] and [db_unref], which are logged. *)

From Stdlib Require Import ZArith List Bool String Lia.
Import ListNotations.
Local Open Scope Z_scope.

(** ** Machine integers *)

(** [guint] / [uint32_t]: arithmetic modulo 2^32. *)
Definition guint_wrap (z : Z) : Z := z mod 2 ^ 32.

(** [int]: two's complement on 32 bits. *)
Definition gint_wrap (z : Z) : Z := (z + 2 ^ 31) mod 2 ^ 32 - 2 ^ 31.

Definition G_MAXUINT : Z := 2 ^ 32 - 1.
Definition G_MAXINT : Z := 2 ^ 31 - 1.

(** ** Data of [fsearch.c] *)

(** A database object, as returned by [db_new].  [db_id] stands for the
    address of the object; [db_num_entries] is what [db_get_num_entries]
    reads from it. *)
Record FsearchDatabase : Type := mkDatabase {
  db_id : nat;
  db_num_entries : Z
}.

Definition db_get_num_entries (d : FsearchDatabase) : Z := db_num_entries d.

(** The fields of [FsearchConfig] that [fsearch.c] reads.  The two interval
    fields are [uint32_t] in the configuration header. *)
Record FsearchConfig : Type := mkConfig {
  show_indexing_status : bool;
  update_database_on_launch : bool;
  update_database_every : bool;
  update_database_every_hours : Z;
  update_database_every_minutes : Z
}.

Inductive FsearchDatabaseState : Type :=
| FSEARCH_DATABASE_STATE_IDLE
| FSEARCH_DATABASE_STATE_LOADING
| FSEARCH_DATABASE_STATE_SCANNING.

(** [NUM_FSEARCH_DATABASE_ACTION_TYPES] is only a count and is never passed
    to [database_scan_or_load_enqueue]. *)
Inductive FsearchDatabaseActionType : Type :=
| FSEARCH_DATABASE_ACTION_SCAN
| FSEARCH_DATABASE_ACTION_LOAD.

(** The function pointers stored in a [DatabaseUpdateContext]. *)
Inductive UpdateFunc : Type :=
| fn_database_scan_and_save
| fn_database_load.

Inductive StartedCb : Type :=
| fn_database_scan_started_cb
| fn_database_load_started_cb.

Inductive FinishedCb : Type :=
| fn_database_update_finished_cb.

Record DatabaseUpdateContext : Type := mkCtx {
  action : FsearchDatabaseActionType;
  update_func : UpdateFunc;
  started_cb : option StartedCb;
  finished_cb : option FinishedCb
}.

(** A task of the pool that has reached its blocking call ([db_scan] or
    [db_load]): its context, the database it made with [db_new], and whether
    it handed [database_notify_status_cb] (rather than [NULL]) to the call. *)
Record RunningCall : Type := mkRunning {
  run_ctx : DatabaseUpdateContext;
  run_db : FsearchDatabase;
  run_status_cb : bool
}.

(** What a call to [db_scan] or [db_load], and the [db_save] that may follow
    it, turn out to do: the value returned, the number of entries the
    database object holds afterwards, the status texts the call reported,
    and the value [db_save] returns. *)
Record DbCallResults : Type := mkResults {
  result_ok : bool;
  result_num_entries : Z;
  result_status : list string;
  result_save_ok : bool
}.

(** [GThreadPool]: at most [max_threads] tasks are being run; the others wait
    in [queue], which is served from its head. *)
Record GThreadPool : Type := mkPool {
  max_threads : nat;
  queue : list DatabaseUpdateContext;
  running : list RunningCall
}.

Definition g_thread_pool_new (n : nat) : GThreadPool :=
  {| max_threads := n; queue := []; running := [] |}.

Inductive FsearchSignal : Type :=
| FSEARCH_SIGNAL_DATABASE_SCAN_STARTED
| FSEARCH_SIGNAL_DATABASE_UPDATE_FINISHED
| FSEARCH_SIGNAL_DATABASE_LOAD_STARTED.

(** Sources added with [g_idle_add]: the callback and its [user_data]. *)
Inductive IdleSource : Type :=
| idle_on_database_notify_status (text : string)
| idle_on_database_update_finished (user_data : option FsearchDatabase)
| idle_on_database_load_started
| idle_on_database_scan_started
| idle_on_database_scan_enqueue.

(** Calls that leave [fsearch.c], in the order they are made. *)
Inductive Effect : Type :=
| call_db_new (d : FsearchDatabase)
| call_db_ref (d : FsearchDatabase)
| call_db_save (d : FsearchDatabase) (path : string)
| call_db_unref (d : FsearchDatabase)
| call_g_thread_pool_push (ctx : DatabaseUpdateContext)
| enter_database_pool_func (ctx : DatabaseUpdateContext)
| call_g_signal_emit (sig : FsearchSignal)
| call_window_remove_model
| call_window_set_database_index_progress (text : string)
| call_config_save.

(** Accesses to the two fields the state mutex is meant for, with whether
    the accessing thread held the mutex. *)
Inductive SharedField : Type := field_db | field_num_database_update_active.
Inductive AccessKind : Type := access_read | access_write.

Record Access : Type := mkAccess {
  acc_field : SharedField;
  acc_kind : AccessKind;
  acc_locked : bool
}.

Inductive ActionName : Type :=
| act_update_database
| act_cancel_update_database.

(** [struct _FsearchApplication], followed by the part of the GLib/GTK
    runtime the file talks to (action states, idle and timeout sources, the
    window list) and by the two logs. *)
Record FsearchApplication : Type := mkApp {
  db : option FsearchDatabase;
  config : FsearchConfig;
  db_pool : option GThreadPool;
  new_window : bool;
  db_state : FsearchDatabaseState;
  db_timeout_id : Z;
  db_thread_cancellable : bool;
  num_database_update_active : Z;
  mutex : bool;
  is_shutting_down : bool;
  (* runtime *)
  update_database_enabled : bool;
  cancel_update_database_enabled : bool;
  idle : list IdleSource;
  timeouts : list (Z * Z);
  next_source_id : Z;
  windows : nat;
  next_db_id : nat;
  user_data_dir : string;
  (* logs, oldest first *)
  effects : list Effect;
  accesses : list Access
}.

(** Field updates. *)

Definition set_db (v : option FsearchDatabase) (s : FsearchApplication)
  : FsearchApplication :=
  mkApp v (config s) (db_pool s) (new_window s) (db_state s) (db_timeout_id s)
    (db_thread_cancellable s) (num_database_update_active s) (mutex s)
    (is_shutting_down s) (update_database_enabled s) (cancel_update_database_enabled s)
    (idle s) (timeouts s) (next_source_id s) (windows s) (next_db_id s)
    (user_data_dir s) (effects s) (accesses s).

Definition set_config (v : FsearchConfig) (s : FsearchApplication)
  : FsearchApplication :=
  mkApp (db s) v (db_pool s) (new_window s) (db_state s) (db_timeout_id s)
    (db_thread_cancellable s) (num_database_update_active s) (mutex s)
    (is_shutting_down s) (update_database_enabled s) (cancel_update_database_enabled s)
    (idle s) (timeouts s) (next_source_id s) (windows s) (next_db_id s)
    (user_data_dir s) (effects s) (accesses s).

Definition set_db_pool (v : option GThreadPool) (s : FsearchApplication)
  : FsearchApplication :=
  mkApp (db s) (config s) v (new_window s) (db_state s) (db_timeout_id s)
    (db_thread_cancellable s) (num_database_update_active s) (mutex s)
    (is_shutting_down s) (update_database_enabled s) (cancel_update_database_enabled s)
    (idle s) (timeouts s) (next_source_id s) (windows s) (next_db_id s)
    (user_data_dir s) (effects s) (accesses s).

Definition set_new_window (v : bool) (s : FsearchApplication)
  : FsearchApplication :=
  mkApp (db s) (config s) (db_pool s) v (db_state s) (db_timeout_id s)
    (db_thread_cancellable s) (num_database_update_active s) (mutex s)
    (is_shutting_down s) (update_database_enabled s) (cancel_update_database_enabled s)
    (idle s) (timeouts s) (next_source_id s) (windows s) (next_db_id s)
    (user_data_dir s) (effects s) (accesses s).

Definition set_db_state (v : FsearchDatabaseState) (s : FsearchApplication)
  : FsearchApplication :=
  mkApp (db s) (config s) (db_pool s) (new_window s) v (db_timeout_id s)
    (db_thread_cancellable s) (num_database_update_active s) (mutex s)
    (is_shutting_down s) (update_database_enabled s) (cancel_update_database_enabled s)
    (idle s) (timeouts s) (next_source_id s) (windows s) (next_db_id s)
    (user_data_dir s) (effects s) (accesses s).

Definition set_db_timeout_id (v : Z) (s : FsearchApplication)
  : FsearchApplication :=
  mkApp (db s) (config s) (db_pool s) (new_window s) (db_state s) v
    (db_thread_cancellable s) (num_database_update_active s) (mutex s)
    (is_shutting_down s) (update_database_enabled s) (cancel_update_database_enabled s)
    (idle s) (timeouts s) (next_source_id s) (windows s) (next_db_id s)
    (user_data_dir s) (effects s) (accesses s).

Definition set_db_thread_cancellable (v : bool) (s : FsearchApplication)
  : FsearchApplication :=
  mkApp (db s) (config s) (db_pool s) (new_window s) (db_state s) (db_timeout_id s) v
    (num_database_update_active s) (mutex s) (is_shutting_down s)
    (update_database_enabled s) (cancel_update_database_enabled s) (idle s)
    (timeouts s) (next_source_id s) (windows s) (next_db_id s) (user_data_dir s)
    (effects s) (accesses s).

Definition set_num_database_update_active (v : Z) (s : FsearchApplication)
  : FsearchApplication :=
  mkApp (db s) (config s) (db_pool s) (new_window s) (db_state s) (db_timeout_id s)
    (db_thread_cancellable s) v (mutex s) (is_shutting_down s)
    (update_database_enabled s) (cancel_update_database_enabled s) (idle s)
    (timeouts s) (next_source_id s) (windows s) (next_db_id s) (user_data_dir s)
    (effects s) (accesses s).

Definition set_mutex (v : bool) (s : FsearchApplication)
  : FsearchApplication :=
  mkApp (db s) (config s) (db_pool s) (new_window s) (db_state s) (db_timeout_id s)
    (db_thread_cancellable s) (num_database_update_active s) v (is_shutting_down s)
    (update_database_enabled s) (cancel_update_database_enabled s) (idle s)
    (timeouts s) (next_source_id s) (windows s) (next_db_id s) (user_data_dir s)
    (effects s) (accesses s).

Definition set_is_shutting_down (v : bool) (s : FsearchApplication)
  : FsearchApplication :=
  mkApp (db s) (config s) (db_pool s) (new_window s) (db_state s) (db_timeout_id s)
    (db_thread_cancellable s) (num_database_update_active s) (mutex s) v
    (update_database_enabled s) (cancel_update_database_enabled s) (idle s)
    (timeouts s) (next_source_id s) (windows s) (next_db_id s) (user_data_dir s)
    (effects s) (accesses s).

Definition set_update_database_enabled (v : bool) (s : FsearchApplication)
  : FsearchApplication :=
  mkApp (db s) (config s) (db_pool s) (new_window s) (db_state s) (db_timeout_id s)
    (db_thread_cancellable s) (num_database_update_active s) (mutex s)
    (is_shutting_down s) v (cancel_update_database_enabled s) (idle s) (timeouts s)
    (next_source_id s) (windows s) (next_db_id s) (user_data_dir s) (effects s)
    (accesses s).

Definition set_cancel_update_database_enabled (v : bool) (s : FsearchApplication)
  : FsearchApplication :=
  mkApp (db s) (config s) (db_pool s) (new_window s) (db_state s) (db_timeout_id s)
    (db_thread_cancellable s) (num_database_update_active s) (mutex s)
    (is_shutting_down s) (update_database_enabled s) v (idle s) (timeouts s)
    (next_source_id s) (windows s) (next_db_id s) (user_data_dir s) (effects s)
    (accesses s).

Definition set_idle (v : list IdleSource) (s : FsearchApplication)
  : FsearchApplication :=
  mkApp (db s) (config s) (db_pool s) (new_window s) (db_state s) (db_timeout_id s)
    (db_thread_cancellable s) (num_database_update_active s) (mutex s)
    (is_shutting_down s) (update_database_enabled s) (cancel_update_database_enabled s)
    v (timeouts s) (next_source_id s) (windows s) (next_db_id s) (user_data_dir s)
    (effects s) (accesses s).

Definition set_timeouts (v : list (Z * Z)) (s : FsearchApplication)
  : FsearchApplication :=
  mkApp (db s) (config s) (db_pool s) (new_window s) (db_state s) (db_timeout_id s)
    (db_thread_cancellable s) (num_database_update_active s) (mutex s)
    (is_shutting_down s) (update_database_enabled s) (cancel_update_database_enabled s)
    (idle s) v (next_source_id s) (windows s) (next_db_id s) (user_data_dir s)
    (effects s) (accesses s).

Definition set_next_source_id (v : Z) (s : FsearchApplication)
  : FsearchApplication :=
  mkApp (db s) (config s) (db_pool s) (new_window s) (db_state s) (db_timeout_id s)
    (db_thread_cancellable s) (num_database_update_active s) (mutex s)
    (is_shutting_down s) (update_database_enabled s) (cancel_update_database_enabled s)
    (idle s) (timeouts s) v (windows s) (next_db_id s) (user_data_dir s) (effects s)
    (accesses s).

Definition set_windows (v : nat) (s : FsearchApplication)
  : FsearchApplication :=
  mkApp (db s) (config s) (db_pool s) (new_window s) (db_state s) (db_timeout_id s)
    (db_thread_cancellable s) (num_database_update_active s) (mutex s)
    (is_shutting_down s) (update_database_enabled s) (cancel_update_database_enabled s)
    (idle s) (timeouts s) (next_source_id s) v (next_db_id s) (user_data_dir s)
    (effects s) (accesses s).

Definition set_next_db_id (v : nat) (s : FsearchApplication)
  : FsearchApplication :=
  mkApp (db s) (config s) (db_pool s) (new_window s) (db_state s) (db_timeout_id s)
    (db_thread_cancellable s) (num_database_update_active s) (mutex s)
    (is_shutting_down s) (update_database_enabled s) (cancel_update_database_enabled s)
    (idle s) (timeouts s) (next_source_id s) (windows s) v (user_data_dir s)
    (effects s) (accesses s).

Definition set_effects (v : list Effect) (s : FsearchApplication)
  : FsearchApplication :=
  mkApp (db s) (config s) (db_pool s) (new_window s) (db_state s) (db_timeout_id s)
    (db_thread_cancellable s) (num_database_update_active s) (mutex s)
    (is_shutting_down s) (update_database_enabled s) (cancel_update_database_enabled s)
    (idle s) (timeouts s) (next_source_id s) (windows s) (next_db_id s)
    (user_data_dir s) v (accesses s).

Definition set_accesses (v : list Access) (s : FsearchApplication)
  : FsearchApplication :=
  mkApp (db s) (config s) (db_pool s) (new_window s) (db_state s) (db_timeout_id s)
    (db_thread_cancellable s) (num_database_update_active s) (mutex s)
    (is_shutting_down s) (update_database_enabled s) (cancel_update_database_enabled s)
    (idle s) (timeouts s) (next_source_id s) (windows s) (next_db_id s)
    (user_data_dir s) (effects s) v.

(** ** A state monad over the application *)

Definition M (A : Type) : Type := FsearchApplication -> A * FsearchApplication.

Definition ret {A : Type} (a : A) : M A := fun s => (a, s).

Definition bind {A B : Type} (m : M A) (k : A -> M B) : M B :=
  fun s => let (a, s') := m s in k a s'.

Notation "x <- m ;; k" := (bind m (fun x => k))
  (at level 61, m at next level, right associativity).
Notation "m ;; k" := (bind m (fun _ => k))
  (at level 61, right associativity).

Definition eval {A : Type} (m : M A) (s : FsearchApplication) : A := fst (m s).
Definition exec {A : Type} (m : M A) (s : FsearchApplication) : FsearchApplication :=
  snd (m s).

Definition gets {A : Type} (f : FsearchApplication -> A) : M A := fun s => (f s, s).
Definition modify (f : FsearchApplication -> FsearchApplication) : M unit :=
  fun s => (tt, f s).
Definition when (b : bool) (m : M unit) : M unit := if b then m else ret tt.

Fixpoint for_each {A : Type} (l : list A) (f : A -> M unit) : M unit :=
  match l with
  | [] => ret tt
  | a :: l' => f a ;; for_each l' f
  end.

(** ** The runtime the file calls into *)

Definition G_SOURCE_REMOVE : bool := false.
Definition G_SOURCE_CONTINUE : bool := true.

Definition emit (e : Effect) : M unit :=
  modify (fun s => set_effects (effects s ++ [e]) s).

(** The same call made once for each of [n] windows. *)
Definition emit_for_each_window (n : nat) (e : Effect) : M unit :=
  modify (fun s => set_effects (effects s ++ repeat e n) s).

Definition note (f : SharedField) (k : AccessKind) : M unit :=
  modify (fun s => set_accesses (accesses s ++ [mkAccess f k (mutex s)]) s).

Definition read_db : M (option FsearchDatabase) :=
  note field_db access_read ;; gets db.
Definition write_db (v : option FsearchDatabase) : M unit :=
  note field_db access_write ;; modify (set_db v).

Definition read_num_database_update_active : M Z :=
  note field_num_database_update_active access_read ;; gets num_database_update_active.
Definition write_num_database_update_active (v : Z) : M unit :=
  note field_num_database_update_active access_write ;;
  modify (set_num_database_update_active v).

Definition g_idle_add (src : IdleSource) : M unit :=
  modify (fun s => set_idle (idle s ++ [src]) s).

Definition g_source_remove (id : Z) : M unit :=
  modify (fun s => set_timeouts (filter (fun t => negb (fst t =? id)) (timeouts s)) s).

Definition g_timeout_add_seconds (seconds : Z) : M Z :=
  id <- gets next_source_id ;;
  modify (fun s => set_timeouts (timeouts s ++ [(id, seconds)]) s) ;;
  modify (set_next_source_id (id + 1)) ;;
  ret id.

Definition g_cancellable_is_cancelled : M bool := gets db_thread_cancellable.
Definition g_cancellable_reset : M unit := modify (set_db_thread_cancellable false).
Definition g_cancellable_cancel : M unit := modify (set_db_thread_cancellable true).

(** [g_thread_pool_push]; a [NULL] pool is refused. *)
Definition g_thread_pool_push (ctx : DatabaseUpdateContext) : M unit :=
  p <- gets db_pool ;;
  match p with
  | Some pool =>
      emit (call_g_thread_pool_push ctx) ;;
      modify (set_db_pool
                (Some (mkPool (max_threads pool) (queue pool ++ [ctx]) (running pool))))
  | None => ret tt
  end.

(** [db_new]: a fresh object, without entries until it is scanned or
    loaded. *)
Definition db_new : M FsearchDatabase :=
  n <- gets next_db_id ;;
  modify (set_next_db_id (S n)) ;;
  emit (call_db_new (mkDatabase n 0)) ;;
  ret (mkDatabase n 0).

Definition db_unref (d : FsearchDatabase) : M unit := emit (call_db_unref d).

(** [db_ref], taken to hand a [NULL] pointer back. *)
Definition db_ref (d : option FsearchDatabase) : M (option FsearchDatabase) :=
  match d with
  | Some d' => emit (call_db_ref d') ;; ret (Some d')
  | None => ret None
  end.

(** The object behind a database pointer once [db_scan] / [db_load] has
    returned. *)
Definition db_after_call (d : FsearchDatabase) (o : DbCallResults) : FsearchDatabase :=
  mkDatabase (db_id d) (result_num_entries o).

Definition G_DIR_SEPARATOR : string := "/".

(** ** [fsearch.c] *)

Definition fsearch_application_state_lock : M unit := modify (set_mutex true).
Definition fsearch_application_state_unlock : M unit := modify (set_mutex false).

Definition fsearch_application_get_database_file_path : M (option string) :=
  dir <- gets user_data_dir ;;
  ret (Some (dir ++ G_DIR_SEPARATOR ++ "fsearch" ++ G_DIR_SEPARATOR ++ "fsearch.db")%string).

Definition fsearch_application_get_database_dir : M (option string) :=
  dir <- gets user_data_dir ;;
  ret (Some (dir ++ G_DIR_SEPARATOR ++ "fsearch")%string).

Definition action_set_enabled (name : ActionName) (enabled : bool) : M unit :=
  match name with
  | act_update_database => modify (set_update_database_enabled enabled)
  | act_cancel_update_database => modify (set_cancel_update_database_enabled enabled)
  end.

Definition database_auto_update_init : M unit :=
  id <- gets db_timeout_id ;;
  when (negb (id =? 0)) (g_source_remove id ;; modify (set_db_timeout_id 0)) ;;
  cfg <- gets config ;;
  when (update_database_every cfg)
    (let seconds := guint_wrap (guint_wrap (update_database_every_hours cfg * 3600)
                                + guint_wrap (update_database_every_minutes cfg * 60)) in
     let seconds := if seconds <? 60 then 60 else seconds in
     id' <- g_timeout_add_seconds seconds ;;
     modify (set_db_timeout_id id')).

Definition on_database_notify_status (text : string) : M bool :=
  n <- gets windows ;;
  emit_for_each_window n (call_window_set_database_index_progress text) ;;
  ret G_SOURCE_REMOVE.

Definition database_notify_status_cb (text : option string) : M unit :=
  match text with
  | Some t => g_idle_add (idle_on_database_notify_status t)
  | None => ret tt
  end.

Definition prepare_windows_for_db_update : M unit :=
  n <- gets windows ;;
  emit_for_each_window n call_window_remove_model.

(** [g_clear_pointer (&self->db, db_unref)] *)
Definition clear_db : M unit :=
  old <- read_db ;;
  match old with
  | Some d => write_db None ;; db_unref d
  | None => ret tt
  end.

Definition on_database_update_finished (user_data : option FsearchDatabase) : M bool :=
  shutting <- gets is_shutting_down ;;
  if shutting then
    match user_data with
    | Some d => db_unref d
    | None => ret tt
    end ;;
    ret G_SOURCE_REMOVE
  else
    fsearch_application_state_lock ;;
    cancelled <- g_cancellable_is_cancelled ;;
    (if negb cancelled then
       prepare_windows_for_db_update ;;
       clear_db ;;
       write_db user_data
     else
       match user_data with
       | Some d => db_unref d
       | None => ret tt
       end) ;;
    g_cancellable_reset ;;
    n <- read_num_database_update_active ;;
    write_num_database_update_active (gint_wrap (n - 1)) ;;
    n' <- read_num_database_update_active ;;
    when (n' =? 0)
      (action_set_enabled act_update_database true ;;
       action_set_enabled act_cancel_update_database false) ;;
    fsearch_application_state_unlock ;;
    emit (call_g_signal_emit FSEARCH_SIGNAL_DATABASE_UPDATE_FINISHED) ;;
    ret G_SOURCE_REMOVE.

Definition database_update_finished_cb (user_data : option FsearchDatabase) : M unit :=
  modify (set_db_state FSEARCH_DATABASE_STATE_IDLE) ;;
  g_idle_add (idle_on_database_update_finished user_data).

Definition on_database_load_started : M bool :=
  emit (call_g_signal_emit FSEARCH_SIGNAL_DATABASE_LOAD_STARTED) ;;
  ret G_SOURCE_REMOVE.

Definition on_database_scan_started : M bool :=
  emit (call_g_signal_emit FSEARCH_SIGNAL_DATABASE_SCAN_STARTED) ;;
  ret G_SOURCE_REMOVE.

Definition database_load_started_cb : M unit :=
  modify (set_db_state FSEARCH_DATABASE_STATE_LOADING) ;;
  g_idle_add idle_on_database_load_started.

Definition database_scan_started_cb : M unit :=
  modify (set_db_state FSEARCH_DATABASE_STATE_SCANNING) ;;
  g_idle_add idle_on_database_scan_started.

(** The status callback run on each text a call reports, in turn: one idle
    source for each (see [report_status_is_a_loop] below). *)
Definition report_status (texts : list string) : M unit :=
  modify (fun s => set_idle (idle s ++ map idle_on_database_notify_status texts) s).

(** [db_scan], [db_load] and [db_save] as their callers see them.
    [status_cb] tells whether the status callback argument was
    [database_notify_status_cb] or [NULL]. *)
Definition db_scan (d : FsearchDatabase) (status_cb : bool) (o : DbCallResults)
  : M (bool * FsearchDatabase) :=
  when status_cb (report_status (result_status o)) ;;
  ret (result_ok o, db_after_call d o).

Definition db_load (d : FsearchDatabase) (path : string) (status_cb : bool)
    (o : DbCallResults) : M (bool * FsearchDatabase) :=
  when status_cb (report_status (result_status o)) ;;
  ret (result_ok o, db_after_call d o).

Definition db_save (d : FsearchDatabase) (path : string) (o : DbCallResults) : M bool :=
  emit (call_db_save d path) ;;
  ret (result_save_ok o).

(** The status text shown before saving (translated at run time): the word
    followed by the horizontal ellipsis U+2026, here in UTF-8. *)
Definition msg_saving : string :=
  ("Saving"
   ++ String (Ascii.ascii_of_nat 226)
        (String (Ascii.ascii_of_nat 128) (String (Ascii.ascii_of_nat 166) EmptyString)))%string.

(** The update functions return the contents of the object behind [db] as
    [db_scan] / [db_load] left it. *)
Definition database_scan_and_save (status_cb : bool) (d : FsearchDatabase)
    (o : DbCallResults) : M FsearchDatabase :=
  r <- db_scan d status_cb o ;;
  let scan_successful := fst r in
  cancelled <- g_cancellable_is_cancelled ;;
  when (scan_successful && negb cancelled)
    (db_path <- fsearch_application_get_database_dir ;;
     match db_path with
     | Some p =>
         cfg <- gets config ;;
         when (show_indexing_status cfg) (database_notify_status_cb (Some msg_saving)) ;;
         _ <- db_save (snd r) p o ;;
         ret tt
     | None => ret tt
     end) ;;
  ret (snd r).

Definition database_load (status_cb : bool) (d : FsearchDatabase) (o : DbCallResults)
  : M FsearchDatabase :=
  db_file_path <- fsearch_application_get_database_file_path ;;
  match db_file_path with
  | None => ret d
  | Some p =>
      r <- db_load d p status_cb o ;;
      cfg <- gets config ;;
      when (negb (fst r) && negb (update_database_on_launch cfg))
        (* load failed -> trigger rescan *)
        (g_idle_add idle_on_database_scan_enqueue) ;;
      ret (snd r)
  end.

(** The context [database_scan_or_load_enqueue] makes for an action.  The
    [action] field is never assigned: [calloc] leaves it zero, which is
    [FSEARCH_DATABASE_ACTION_SCAN], for a load as well. *)
Definition new_context (a : FsearchDatabaseActionType) : DatabaseUpdateContext :=
  match a with
  | FSEARCH_DATABASE_ACTION_SCAN =>
      mkCtx FSEARCH_DATABASE_ACTION_SCAN fn_database_scan_and_save
        (Some fn_database_scan_started_cb) (Some fn_database_update_finished_cb)
  | FSEARCH_DATABASE_ACTION_LOAD =>
      mkCtx FSEARCH_DATABASE_ACTION_SCAN fn_database_load
        (Some fn_database_load_started_cb) (Some fn_database_update_finished_cb)
  end.

Definition database_scan_or_load_enqueue (a : FsearchDatabaseActionType) : M unit :=
  action_set_enabled act_update_database false ;;
  action_set_enabled act_cancel_update_database true ;;
  g_cancellable_reset ;;
  n <- read_num_database_update_active ;;
  write_num_database_update_active (gint_wrap (n + 1)) ;;
  g_thread_pool_push (new_context a).

Definition on_database_scan_enqueue : M bool :=
  database_scan_or_load_enqueue FSEARCH_DATABASE_ACTION_SCAN ;;
  ret G_SOURCE_REMOVE.

(** [database_pool_func] up to its blocking call: the started callback,
    [db_new] under the state lock, and the choice of the status callback. *)
Definition database_pool_func_enter (ctx : DatabaseUpdateContext) : M RunningCall :=
  emit (enter_database_pool_func ctx) ;;
  match started_cb ctx with
  | Some fn_database_scan_started_cb => database_scan_started_cb
  | Some fn_database_load_started_cb => database_load_started_cb
  | None => ret tt
  end ;;
  fsearch_application_state_lock ;;
  d <- db_new ;;
  fsearch_application_state_unlock ;;
  cfg <- gets config ;;
  ret (mkRunning ctx d (show_indexing_status cfg)).

(** [database_pool_func] from the return of the blocking call on. *)
Definition database_pool_func_leave (r : RunningCall) (o : DbCallResults) : M unit :=
  d <- match update_func (run_ctx r) with
       | fn_database_scan_and_save => database_scan_and_save (run_status_cb r) (run_db r) o
       | fn_database_load => database_load (run_status_cb r) (run_db r) o
       end ;;
  match finished_cb (run_ctx r) with
  | Some fn_database_update_finished_cb => database_update_finished_cb (Some d)
  | None => ret tt
  end.

(** The whole of [database_pool_func], when nothing happens on the main
    thread meanwhile. *)
Definition database_pool_func (ctx : DatabaseUpdateContext) (o : DbCallResults) : M unit :=
  r <- database_pool_func_enter ctx ;;
  database_pool_func_leave r o.

Definition action_cancel_update_database_activated : M unit := g_cancellable_cancel.

Definition action_update_database_activated : M unit :=
  database_scan_or_load_enqueue FSEARCH_DATABASE_ACTION_SCAN.

Definition action_new_window_activated : M unit :=
  modify (fun s => set_windows (S (windows s)) s).

(** [g_action_group_activate_action]: a disabled action is not run. *)
Definition g_action_group_activate_action (name : ActionName) : M unit :=
  match name with
  | act_update_database =>
      en <- gets update_database_enabled ;;
      when en action_update_database_activated
  | act_cancel_update_database =>
      en <- gets cancel_update_database_enabled ;;
      when en action_cancel_update_database_activated
  end.

Definition on_database_auto_update : M bool :=
  g_action_group_activate_action act_update_database ;;
  ret G_SOURCE_CONTINUE.

(** [database_config_changed] is the field of [config_cmp]'s result. *)
Definition on_preferences_ui_finished (new_config : option FsearchConfig)
    (database_config_changed : bool) : M unit :=
  match new_config with
  | None => ret tt
  | Some cfg =>
      modify (set_config cfg) ;;
      emit call_config_save ;;
      database_auto_update_init ;;
      when database_config_changed
        (database_scan_or_load_enqueue FSEARCH_DATABASE_ACTION_SCAN)
  end.

Definition cancelled_call : DbCallResults := mkResults false 0 [] false.

Definition next_result (os : list DbCallResults) : DbCallResults * list DbCallResults :=
  match os with
  | o :: os' => (o, os')
  | [] => (cancelled_call, [])
  end.

Fixpoint finish_running (rs : list RunningCall) (os : list DbCallResults)
  : M (list DbCallResults) :=
  match rs with
  | [] => ret os
  | r :: rs' =>
      database_pool_func_leave r (fst (next_result os)) ;;
      finish_running rs' (snd (next_result os))
  end.

Fixpoint run_queued (q : list DatabaseUpdateContext) (os : list DbCallResults) : M unit :=
  match q with
  | [] => ret tt
  | ctx :: q' =>
      database_pool_func ctx (fst (next_result os)) ;;
      run_queued q' (snd (next_result os))
  end.

(** [g_thread_pool_free (pool, FALSE, TRUE)]: the caller waits until the
    running task and every queued task have been run. *)
Definition g_thread_pool_free_wait (pool : GThreadPool) (os : list DbCallResults) : M unit :=
  os' <- finish_running (running pool) os ;;
  run_queued (queue pool) os'.

(** [os] are the results of the calls that return, or are made, while the
    main thread waits for the pool. *)
Definition fsearch_application_shutdown (os : list DbCallResults) : M unit :=
  p <- gets db_pool ;;
  match p with
  | Some pool =>
      modify (set_is_shutting_down true) ;;
      g_cancellable_cancel ;;
      modify (set_db_pool None) ;;
      g_thread_pool_free_wait pool os
  | None => ret tt
  end ;;
  clear_db ;;
  emit call_config_save.

(** The instance as [g_object_new] leaves it: zeroed fields, every action
    enabled, no source and no window. *)
Definition fsearch_application_new (dir : string) : FsearchApplication :=
  {| db := None; config := mkConfig false false false 0 0; db_pool := None;
     new_window := false; db_state := FSEARCH_DATABASE_STATE_IDLE;
     db_timeout_id := 0; db_thread_cancellable := false;
     num_database_update_active := 0; mutex := false; is_shutting_down := false;
     update_database_enabled := true; cancel_update_database_enabled := true;
     idle := []; timeouts := []; next_source_id := 1; windows := O;
     next_db_id := O; user_data_dir := dir; effects := []; accesses := [] |}.

(** [loaded] is the configuration [config_load] (or [config_load_default])
    fills in. *)
Definition fsearch_application_startup (loaded : FsearchConfig) : M unit :=
  modify (set_mutex false) ;;
  modify (set_db_thread_cancellable false) ;;
  modify (set_config loaded) ;;
  write_db None ;;
  modify (set_db_state FSEARCH_DATABASE_STATE_IDLE) ;;
  modify (set_db_pool (Some (g_thread_pool_new 1))) ;;
  modify (set_is_shutting_down false).

Definition get_first_application_window : M bool :=
  n <- gets windows ;;
  ret (negb (Nat.eqb n 0)).

Definition fsearch_application_activate : M unit :=
  nw <- gets new_window ;;
  has_window <- get_first_application_window ;;
  if negb nw && has_window then ret tt
  else
    action_new_window_activated ;;
    database_auto_update_init ;;
    g_cancellable_reset ;;
    database_scan_or_load_enqueue FSEARCH_DATABASE_ACTION_LOAD ;;
    cfg <- gets config ;;
    when (update_database_on_launch cfg)
      (database_scan_or_load_enqueue FSEARCH_DATABASE_ACTION_SCAN).

Definition fsearch_application_get_db_state : M FsearchDatabaseState := gets db_state.

Definition fsearch_application_get_num_db_entries : M Z :=
  d <- read_db ;;
  match d with
  | Some d' => ret (db_get_num_entries d')
  | None => ret 0
  end.

Definition fsearch_application_get_db : M (option FsearchDatabase) :=
  d <- read_db ;;
  db_ref d.

Definition fsearch_application_get_config : M FsearchConfig := gets config.

(** ** The two threads as one transition system *)

(** The thread of the pool takes the task at the head of the queue when
    fewer than [max_threads] tasks are being run, and runs
    [database_pool_func] on it up to the blocking call. *)
Definition pool_take : M unit :=
  p <- gets db_pool ;;
  match p with
  | Some pool =>
      match queue pool with
      | ctx :: q =>
          if (List.length (running pool) <? max_threads pool)%nat then
            modify (set_db_pool (Some (mkPool (max_threads pool) q (running pool)))) ;;
            r <- database_pool_func_enter ctx ;;
            modify (fun s =>
                      match db_pool s with
                      | Some pl =>
                          set_db_pool
                            (Some (mkPool (max_threads pl) (queue pl) (running pl ++ [r]))) s
                      | None => s
                      end)
          else ret tt
      | [] => ret tt
      end
  | None => ret tt
  end.

(** The blocking call of the oldest running task returns; the task runs to
    the end of [database_pool_func]. *)
Definition pool_return (o : DbCallResults) : M unit :=
  p <- gets db_pool ;;
  match p with
  | Some pool =>
      match running pool with
      | r :: _ =>
          database_pool_func_leave r o ;;
          modify (fun s =>
                    match db_pool s with
                    | Some pl =>
                        set_db_pool
                          (Some (mkPool (max_threads pl) (queue pl) (tl (running pl)))) s
                    | None => s
                    end)
      | [] => ret tt
      end
  | None => ret tt
  end.

Definition dispatch (src : IdleSource) : M bool :=
  match src with
  | idle_on_database_notify_status text => on_database_notify_status text
  | idle_on_database_update_finished user_data => on_database_update_finished user_data
  | idle_on_database_load_started => on_database_load_started
  | idle_on_database_scan_started => on_database_scan_started
  | idle_on_database_scan_enqueue => on_database_scan_enqueue
  end.

(** The command line *)

(** The keys [fsearch_application_add_option_entries] declares, as the
    options dictionary holds them. *)
Record CommandLineOptions : Type := mkOptions {
  opt_new_window : bool;
  opt_preferences : bool;
  opt_search : option string;
  opt_update_database : bool;
  opt_version : bool
}.

Definition plain_options : CommandLineOptions := mkOptions false false None false false.

(** [fsearch_application_command_line] in the primary instance.
    [parent_result] is what the parent class's handler returns.  The
    preferences action only opens the dialog (its outcome arrives later as
    [on_preferences_ui_finished]) and the search term only reaches the
    window's entry, so neither changes the state kept here. *)
Definition fsearch_application_command_line (options : CommandLineOptions)
    (parent_result : Z) : M Z :=
  when (opt_new_window options) (modify (set_new_window true)) ;;
  if opt_preferences options then ret 0
  else if opt_update_database options then
    g_action_group_activate_action act_update_database ;;
    ret 0
  else
    fsearch_application_activate ;;
    modify (set_new_window false) ;;
    ret parent_result.

(** One turn of the main loop: the oldest idle source is dispatched, and
    removed unless its callback asks to be kept. *)
Definition g_main_context_iteration : M unit :=
  l <- gets idle ;;
  match l with
  | [] => ret tt
  | src :: rest =>
      modify (set_idle rest) ;;
      keep <- dispatch src ;;
      when keep (g_idle_add src)
  end.

(** The timeout source [id] fires, if it is still attached. *)
Definition timeout_fires (id : Z) : M unit :=
  ts <- gets timeouts ;;
  when (existsb (fun t => fst t =? id) ts) (_ <- on_database_auto_update ;; ret tt).

(** What can happen next: the application is activated, an action is
    activated from the interface, a timeout fires, the preferences dialog
    finishes, the main loop runs an idle source, the pool starts a task, a
    blocking database call returns, the application shuts down, a command
    line arrives. *)
Inductive Event : Type :=
| ev_activate
| ev_action (name : ActionName)
| ev_timeout (id : Z)
| ev_preferences (new_config : option FsearchConfig) (database_config_changed : bool)
| ev_idle
| ev_pool_take
| ev_pool_return (o : DbCallResults)
| ev_shutdown (os : list DbCallResults)
| ev_command_line (options : CommandLineOptions) (parent_result : Z).

Definition handle (e : Event) : M unit :=
  match e with
  | ev_activate => fsearch_application_activate
  | ev_action name => g_action_group_activate_action name
  | ev_timeout id => timeout_fires id
  | ev_preferences new_config changed => on_preferences_ui_finished new_config changed
  | ev_idle => g_main_context_iteration
  | ev_pool_take => pool_take
  | ev_pool_return o => pool_return o
  | ev_shutdown os => fsearch_application_shutdown os
  | ev_command_line options parent_result =>
      _ <- fsearch_application_command_line options parent_result ;;
      ret tt
  end.

Definition step (s : FsearchApplication) (e : Event) : FsearchApplication :=
  exec (handle e) s.

Definition run (evs : list Event) (s : FsearchApplication) : FsearchApplication :=
  fold_left step evs s.

(** The application once [fsearch_application_startup] has run. *)
Definition started (dir : string) (loaded : FsearchConfig) : FsearchApplication :=
  exec (fsearch_application_startup loaded) (fsearch_application_new dir).

Definition is_shutdown (e : Event) : bool :=
  match e with
  | ev_shutdown _ => true
  | _ => false
  end.

(** ** Observations on a state *)

Definition is_update_finished (src : IdleSource) : bool :=
  match src with
  | idle_on_database_update_finished _ => true
  | _ => false
  end.

Definition pool_queue (s : FsearchApplication) : list DatabaseUpdateContext :=
  match db_pool s with
  | Some pool => queue pool
  | None => []
  end.

Definition pool_running (s : FsearchApplication) : list RunningCall :=
  match db_pool s with
  | Some pool => running pool
  | None => []
  end.

(** Requests that were enqueued and whose completion has not been handled
    yet: waiting in the pool, being run, or finished with
    [on_database_update_finished] still pending in the main loop. *)
Definition in_flight (s : FsearchApplication) : nat :=
  (List.length (pool_queue s) + List.length (pool_running s)
   + List.length (filter is_update_finished (idle s)))%nat.

Fixpoint pushed (l : list Effect) : list DatabaseUpdateContext :=
  match l with
  | [] => []
  | call_g_thread_pool_push ctx :: l' => ctx :: pushed l'
  | _ :: l' => pushed l'
  end.

Fixpoint entered (l : list Effect) : list DatabaseUpdateContext :=
  match l with
  | [] => []
  | enter_database_pool_func ctx :: l' => ctx :: entered l'
  | _ :: l' => entered l'
  end.

Fixpoint saved (l : list Effect) : list FsearchDatabase :=
  match l with
  | [] => []
  | call_db_save d _ :: l' => d :: saved l'
  | _ :: l' => saved l'
  end.

Fixpoint unreffed (l : list Effect) : list FsearchDatabase :=
  match l with
  | [] => []
  | call_db_unref d :: l' => d :: unreffed l'
  | _ :: l' => unreffed l'
  end.

Definition example_config : FsearchConfig := mkConfig false false true 1 30.

Definition example_home : string := "/home/user/.local/share".

(** The timeout sources left once the source registered under
    [db_timeout_id], if any, has been removed. *)
Definition detached (s : FsearchApplication) : list (Z * Z) :=
  if db_timeout_id s =? 0 then timeouts s
  else filter (fun t => negb (fst t =? db_timeout_id s)) (timeouts s).

Definition interval_of (cfg : FsearchConfig) : Z :=
  update_database_every_hours cfg * 3600 + update_database_every_minutes cfg * 60.

(** The idle sources left by requests that completed in the order [ds]. *)
Definition completions (ds : list FsearchDatabase) : list IdleSource :=
  map (fun d => idle_on_database_update_finished (Some d)) ds.

Definition locked (a : Access) : Prop := acc_locked a = true.

(** A state in which a load is running and has been cancelled. *)
Definition cancelled_state : FsearchApplication :=
  step (run [ev_activate; ev_pool_take] (started example_home example_config))
       (ev_action act_cancel_update_database).

(** The state [on_database_update_finished] leaves, in closed form (see
    [on_database_update_finished_state]). *)
Definition finished_state (user_data : option FsearchDatabase) (s : FsearchApplication)
  : FsearchApplication :=
  let unref (d : option FsearchDatabase) : list Effect :=
    match d with
    | Some d' => [call_db_unref d']
    | None => []
    end in
  if is_shutting_down s then
    match user_data with
    | Some d => set_effects (effects s ++ [call_db_unref d]) s
    | None => s
    end
  else
    let n' := gint_wrap (num_database_update_active s - 1) in
    let counted :=
      [mkAccess field_num_database_update_active access_read true;
       mkAccess field_num_database_update_active access_write true;
       mkAccess field_num_database_update_active access_read true] in
    let signal := [call_g_signal_emit FSEARCH_SIGNAL_DATABASE_UPDATE_FINISHED] in
    mkApp (if db_thread_cancellable s then db s else user_data)
          (config s) (db_pool s) (new_window s) (db_state s) (db_timeout_id s)
          false n' false false
          (if n' =? 0 then true else update_database_enabled s)
          (if n' =? 0 then false else cancel_update_database_enabled s)
          (idle s) (timeouts s) (next_source_id s) (windows s) (next_db_id s)
          (user_data_dir s)
          (if db_thread_cancellable s
           then effects s ++ unref user_data ++ signal
           else effects s ++ repeat call_window_remove_model (windows s)
                ++ unref (db s) ++ signal)
          (if db_thread_cancellable s
           then accesses s ++ counted
           else accesses s
                ++ mkAccess field_db access_read true
                   :: match db s with
                      | Some _ => [mkAccess field_db access_write true]
                      | None => []
                      end
                ++ mkAccess field_db access_write true :: counted).

(** What the queue discipline and the request counter depend on. *)
Record View : Type := mkView {
  v_down : bool;
  v_pool : option GThreadPool;
  v_done : nat;
  v_num : Z;
  v_update : bool;
  v_entered : list DatabaseUpdateContext;
  v_pushed : list DatabaseUpdateContext
}.

Definition view (s : FsearchApplication) : View :=
  mkView (is_shutting_down s) (db_pool s)
         (List.length (filter is_update_finished (idle s)))
         (num_database_update_active s) (update_database_enabled s)
         (entered (effects s)) (pushed (effects s)).

(** The view after [database_scan_or_load_enqueue]. *)
Definition view_enqueue (a : FsearchDatabaseActionType) (v : View) : View :=
  match v_pool v with
  | Some pool =>
      mkView (v_down v)
             (Some (mkPool (max_threads pool) (queue pool ++ [new_context a]) (running pool)))
             (v_done v) (gint_wrap (v_num v + 1)) false
             (v_entered v) (v_pushed v ++ [new_context a])
  | None =>
      mkView (v_down v) None (v_done v) (gint_wrap (v_num v + 1)) false
             (v_entered v) (v_pushed v)
  end.

(** The view after [on_database_update_finished], outside shutdown. *)
Definition view_finished (v : View) : View :=
  mkView (v_down v) (v_pool v) (v_done v) (gint_wrap (v_num v - 1))
         (if gint_wrap (v_num v - 1) =? 0 then true else v_update v)
         (v_entered v) (v_pushed v).

Definition view_set_done (n : nat) (v : View) : View :=
  mkView (v_down v) (v_pool v) n (v_num v) (v_update v) (v_entered v) (v_pushed v).

Definition view_set_pool (p : option GThreadPool) (v : View) : View :=
  mkView (v_down v) p (v_done v) (v_num v) (v_update v) (v_entered v) (v_pushed v).

Definition view_enter (ctx : DatabaseUpdateContext) (v : View) : View :=
  mkView (v_down v) (v_pool v) (v_done v) (v_num v) (v_update v)
         (v_entered v ++ [ctx]) (v_pushed v).

Definition has_finished_cb (ctx : DatabaseUpdateContext) : bool :=
  match finished_cb ctx with
  | Some _ => true
  | None => false
  end.

(** What one event other than a shutdown can do to the view. *)
Inductive view_move : View -> View -> Prop :=
| move_none (v : View) : view_move v v
| move_enqueue (a : FsearchDatabaseActionType) (v : View) :
    view_move v (view_enqueue a v)
| move_load_and_scan (v : View) :
    view_move v (view_enqueue FSEARCH_DATABASE_ACTION_SCAN
                   (view_enqueue FSEARCH_DATABASE_ACTION_LOAD v))
| move_finish (v : View) (n : nat) :
    v_down v = false -> v_done v = S n ->
    view_move v (view_finished (view_set_done n v))
| move_drop (v : View) (n : nat) :
    v_down v = true -> v_done v = S n ->
    view_move v (view_set_done n v)
| move_take (v : View) (n : nat) (ctx : DatabaseUpdateContext)
    (q : list DatabaseUpdateContext) (r : list RunningCall) (r0 : RunningCall) :
    v_pool v = Some (mkPool n (ctx :: q) r) ->
    (List.length r < n)%nat ->
    run_ctx r0 = ctx ->
    view_move v (view_enter ctx (view_set_pool (Some (mkPool n q (r ++ [r0]))) v))
| move_return (v : View) (n : nat) (q : list DatabaseUpdateContext)
    (r0 : RunningCall) (rs : list RunningCall) :
    v_pool v = Some (mkPool n q (r0 :: rs)) ->
    view_move v (view_set_done (v_done v + (if has_finished_cb (run_ctx r0) then 1 else 0))
                   (view_set_pool (Some (mkPool n q rs)) v)).

Definition view_queue (v : View) : list DatabaseUpdateContext :=
  match v_pool v with
  | Some pool => queue pool
  | None => []
  end.

Definition view_running (v : View) : list RunningCall :=
  match v_pool v with
  | Some pool => running pool
  | None => []
  end.

Definition view_in_flight (v : View) : nat :=
  (List.length (view_queue v) + List.length (view_running v) + v_done v)%nat.

(** The pool has one thread, runs at most one task, and has taken the
    tasks in the order they were pushed. *)
Definition pool_ok (p : option GThreadPool) (en pu : list DatabaseUpdateContext) : Prop :=
  (forall pool, p = Some pool ->
                max_threads pool = 1%nat /\ (List.length (running pool) <= 1)%nat)
  /\ en ++ match p with
           | Some pool => queue pool
           | None => []
           end = pu.

Definition view_pool_ok (v : View) : Prop := pool_ok (v_pool v) (v_entered v) (v_pushed v).

(** The part of a view [pool_ok] is about. *)
Definition pool_part (s : FsearchApplication)
  : option GThreadPool * list DatabaseUpdateContext * list DatabaseUpdateContext :=
  (db_pool s, entered (effects s), pushed (effects s)).

(** The counter is the number of requests in flight, and the update action
    is enabled when there is none. *)
Definition counter_ok (v : View) : Prop :=
  v_down v = false
  /\ v_pool v <> None
  /\ Forall (fun ctx => has_finished_cb ctx = true) (view_queue v)
  /\ Forall (fun r => has_finished_cb (run_ctx r) = true) (view_running v)
  /\ v_num v = Z.of_nat (view_in_flight v)
  /\ v_update v = Nat.eqb (view_in_flight v) 0.

(** Whether the number of requests in flight stays within [int] all along
    a run. *)
Fixpoint counter_fits (evs : list Event) (s : FsearchApplication) : bool :=
  (Z.of_nat (in_flight s) <=? G_MAXINT)
  && match evs with
     | [] => true
     | e :: evs' => counter_fits evs' (step s e)
     end.

(** ** The bookkeeping of databases, tasks and timers *)

Definition opt_list {A : Type} (o : option A) : list A :=
  match o with
  | Some a => [a]
  | None => []
  end.

(** The [user_data] of the completions waiting in the main loop, oldest
    first. *)
Definition pending_of (l : list IdleSource) : list (option FsearchDatabase) :=
  flat_map (fun src => match src with
                       | idle_on_database_update_finished user_data => [user_data]
                       | _ => []
                       end) l.

(** What the life of the database objects, the state of the worker and the
    periodic timer depend on. *)
Record Ledger : Type := mkLedger {
  l_db : option FsearchDatabase;
  l_pool : option GThreadPool;
  l_pending : list (option FsearchDatabase);
  l_unreffed : list FsearchDatabase;
  l_next_db : nat;
  l_state : FsearchDatabaseState;
  l_mutex : bool;
  l_down : bool;
  l_update : bool;
  l_cancel : bool;
  l_config : FsearchConfig;
  l_timeout_id : Z;
  l_timeouts : list (Z * Z);
  l_next_source : Z
}.

Definition ledger (s : FsearchApplication) : Ledger :=
  mkLedger (db s) (db_pool s) (pending_of (idle s)) (unreffed (effects s)) (next_db_id s)
           (db_state s) (mutex s) (is_shutting_down s) (update_database_enabled s)
           (cancel_update_database_enabled s) (config s) (db_timeout_id s) (timeouts s)
           (next_source_id s).

(** The interval [database_auto_update_init] hands to
    [g_timeout_add_seconds]. *)
Definition seconds_of (cfg : FsearchConfig) : Z :=
  let seconds := guint_wrap (guint_wrap (update_database_every_hours cfg * 3600)
                             + guint_wrap (update_database_every_minutes cfg * 60)) in
  if seconds <? 60 then 60 else seconds.

(** The ledger after the configuration has become [cfg] and
    [database_auto_update_init] has run. *)
Definition ledger_reconfigure (cfg : FsearchConfig) (l : Ledger) : Ledger :=
  mkLedger (l_db l) (l_pool l) (l_pending l) (l_unreffed l) (l_next_db l) (l_state l)
           (l_mutex l) (l_down l) (l_update l) (l_cancel l) cfg
           (if update_database_every cfg then l_next_source l else 0)
           ((if l_timeout_id l =? 0 then l_timeouts l
             else filter (fun t => negb (fst t =? l_timeout_id l)) (l_timeouts l))
            ++ (if update_database_every cfg then [(l_next_source l, seconds_of cfg)] else []))
           (if update_database_every cfg then l_next_source l + 1 else l_next_source l).

(** The ledger after [database_scan_or_load_enqueue]. *)
Definition ledger_enqueue (a : FsearchDatabaseActionType) (l : Ledger) : Ledger :=
  mkLedger (l_db l)
           (match l_pool l with
            | Some pool =>
                Some (mkPool (max_threads pool) (queue pool ++ [new_context a]) (running pool))
            | None => None
            end)
           (l_pending l) (l_unreffed l) (l_next_db l) (l_state l) (l_mutex l) (l_down l)
           false true (l_config l) (l_timeout_id l) (l_timeouts l) (l_next_source l).

(** The ledger after [on_database_update_finished], outside shutdown, has
    handled the completion that carried [user_data]: [published] tells
    whether the cancellable was clear, [last] whether the counter reached
    zero. *)
Definition ledger_finish (user_data : option FsearchDatabase)
    (rest : list (option FsearchDatabase)) (published last : bool) (l : Ledger) : Ledger :=
  mkLedger (if published then user_data else l_db l) (l_pool l) rest
           (l_unreffed l ++ opt_list (if published then l_db l else user_data))
           (l_next_db l) (l_state l) false (l_down l)
           (if last then true else l_update l) (if last then false else l_cancel l)
           (l_config l) (l_timeout_id l) (l_timeouts l) (l_next_source l).

(** The same during shutdown. *)
Definition ledger_drop (user_data : option FsearchDatabase)
    (rest : list (option FsearchDatabase)) (l : Ledger) : Ledger :=
  mkLedger (l_db l) (l_pool l) rest (l_unreffed l ++ opt_list user_data)
           (l_next_db l) (l_state l) (l_mutex l) (l_down l) (l_update l) (l_cancel l)
           (l_config l) (l_timeout_id l) (l_timeouts l) (l_next_source l).

Definition ledger_set_pool (p : option GThreadPool) (l : Ledger) : Ledger :=
  mkLedger (l_db l) p (l_pending l) (l_unreffed l) (l_next_db l) (l_state l) (l_mutex l)
           (l_down l) (l_update l) (l_cancel l) (l_config l) (l_timeout_id l) (l_timeouts l)
           (l_next_source l).

(** The ledger after [database_pool_func_enter]. *)
Definition ledger_enter (ctx : DatabaseUpdateContext) (l : Ledger) : Ledger :=
  mkLedger (l_db l) (l_pool l) (l_pending l) (l_unreffed l) (S (l_next_db l))
           (match started_cb ctx with
            | Some fn_database_scan_started_cb => FSEARCH_DATABASE_STATE_SCANNING
            | Some fn_database_load_started_cb => FSEARCH_DATABASE_STATE_LOADING
            | None => l_state l
            end)
           false (l_down l) (l_update l) (l_cancel l) (l_config l) (l_timeout_id l)
           (l_timeouts l) (l_next_source l).

(** The ledger after [database_pool_func_leave]. *)
Definition ledger_leave (r : RunningCall) (o : DbCallResults) (l : Ledger) : Ledger :=
  mkLedger (l_db l) (l_pool l)
           (l_pending l ++ (if has_finished_cb (run_ctx r)
                            then [Some (db_after_call (run_db r) o)] else []))
           (l_unreffed l) (l_next_db l)
           (if has_finished_cb (run_ctx r) then FSEARCH_DATABASE_STATE_IDLE else l_state l)
           (l_mutex l) (l_down l) (l_update l) (l_cancel l) (l_config l) (l_timeout_id l)
           (l_timeouts l) (l_next_source l).

(** The ledger after [clear_db]. *)
Definition ledger_clear_db (l : Ledger) : Ledger :=
  mkLedger None (l_pool l) (l_pending l) (l_unreffed l ++ opt_list (l_db l))
           (l_next_db l) (l_state l) (l_mutex l) (l_down l) (l_update l) (l_cancel l)
           (l_config l) (l_timeout_id l) (l_timeouts l) (l_next_source l).

(** The ledger when the shutdown has detached the pool and waits for it. *)
Definition ledger_detach (l : Ledger) : Ledger :=
  mkLedger (l_db l) None (l_pending l) (l_unreffed l) (l_next_db l) (l_state l) (l_mutex l)
           true (l_update l) (l_cancel l) (l_config l) (l_timeout_id l) (l_timeouts l)
           (l_next_source l).

(** What one function of [fsearch.c] run by an event does to the ledger. *)
Inductive ledger_move : Ledger -> Ledger -> Prop :=
| lm_reconfigure (cfg : FsearchConfig) (l : Ledger) :
    ledger_move l (ledger_reconfigure cfg l)
| lm_enqueue (a : FsearchDatabaseActionType) (l : Ledger) :
    ledger_move l (ledger_enqueue a l)
| lm_finish (user_data : option FsearchDatabase) (rest : list (option FsearchDatabase))
    (published last : bool) (l : Ledger) :
    l_down l = false -> l_pending l = user_data :: rest ->
    ledger_move l (ledger_finish user_data rest published last l)
| lm_drop (user_data : option FsearchDatabase) (rest : list (option FsearchDatabase))
    (l : Ledger) :
    l_down l = true -> l_pending l = user_data :: rest ->
    ledger_move l (ledger_drop user_data rest l)
| lm_take (n : nat) (ctx : DatabaseUpdateContext) (q : list DatabaseUpdateContext)
    (r : list RunningCall) (cb : bool) (l : Ledger) :
    l_pool l = Some (mkPool n (ctx :: q) r) ->
    (List.length r < n)%nat ->
    ledger_move l
      (ledger_set_pool
         (Some (mkPool n q (r ++ [mkRunning ctx (mkDatabase (l_next_db l) 0) cb])))
         (ledger_enter ctx l))
| lm_return (n : nat) (q : list DatabaseUpdateContext) (r0 : RunningCall)
    (rs : list RunningCall) (o : DbCallResults) (l : Ledger) :
    l_pool l = Some (mkPool n q (r0 :: rs)) ->
    ledger_move l (ledger_set_pool (Some (mkPool n q rs)) (ledger_leave r0 o l)).

Inductive ledger_moves : Ledger -> Ledger -> Prop :=
| lm_refl (l : Ledger) : ledger_moves l l
| lm_step (l1 l2 l3 : Ledger) :
    ledger_move l1 l2 -> ledger_moves l2 l3 -> ledger_moves l1 l3.

(** A context as [database_scan_or_load_enqueue] makes it. *)
Definition is_request (ctx : DatabaseUpdateContext) : Prop :=
  ctx = new_context FSEARCH_DATABASE_ACTION_SCAN
  \/ ctx = new_context FSEARCH_DATABASE_ACTION_LOAD.

(** The state [db_state] is to have while the tasks [rs] are being run. *)
Definition state_while (rs : list RunningCall) : FsearchDatabaseState :=
  match rs with
  | [] => FSEARCH_DATABASE_STATE_IDLE
  | r :: _ =>
      match update_func (run_ctx r) with
      | fn_database_scan_and_save => FSEARCH_DATABASE_STATE_SCANNING
      | fn_database_load => FSEARCH_DATABASE_STATE_LOADING
      end
  end.

(** The database objects somebody holds, by [db_id]: the published one, the
    ones of the running tasks [rs], the ones carried by pending completions
    and the ones given to [db_unref]. *)
Definition held_with (rs : list RunningCall) (l : Ledger) : list nat :=
  map db_id (opt_list (l_db l))
  ++ map (fun r => db_id (run_db r)) rs
  ++ map db_id (flat_map opt_list (l_pending l))
  ++ map db_id (l_unreffed l).

Definition database_holders (s : FsearchApplication) : list nat :=
  held_with (pool_running s) (ledger s).

(** At most one timeout source is attached; it is the one [db_timeout_id]
    names, and it has the interval of the current configuration. *)
Definition timer_ok (l : Ledger) : Prop :=
  0 < l_next_source l
  /\ l_timeout_id l < l_next_source l
  /\ ((l_timeout_id l = 0 /\ l_timeouts l = [])
      \/ (0 < l_timeout_id l
          /\ update_database_every (l_config l) = true
          /\ l_timeouts l = [(l_timeout_id l, seconds_of (l_config l))])).

(** The bookkeeping is sound while the tasks [rs] are being run. *)
Definition ledger_inv (rs : list RunningCall) (l : Ledger) : Prop :=
  l_mutex l = false
  /\ (List.length rs <= 1)%nat
  /\ Forall (fun r => is_request (run_ctx r)) rs
  /\ l_state l = state_while rs
  /\ (forall i : nat,
         count_occ Nat.eq_dec (held_with rs l) i = if (i <? l_next_db l)%nat then 1%nat else O)
  /\ (l_update l = false -> l_cancel l = true)
  /\ timer_ok l.

Definition ledger_running (l : Ledger) : list RunningCall :=
  match l_pool l with
  | Some pool => running pool
  | None => []
  end.

Definition ledger_ok (l : Ledger) : Prop :=
  (forall pool, l_pool l = Some pool ->
                max_threads pool = 1%nat /\ Forall is_request (queue pool))
  /\ ledger_inv (ledger_running l) l.

(** Events that run [on_database_update_finished] or the shutdown. *)
Definition may_publish (e : Event) : bool :=
  match e with
  | ev_idle | ev_shutdown _ => true
  | _ => false
  end.




(** The main loop runs until the sources that are waiting in [s] have been
    dispatched. *)
Definition drain_idle (s : FsearchApplication) : FsearchApplication :=
  run (repeat ev_idle (List.length (idle s))) s.


(** Whether a database is published. *)
Definition has_database (s : FsearchApplication) : bool :=
  match db s with
  | Some _ => true
  | None => false
  end.

(** Every completion waiting in the main loop carries a database. *)
Definition pending_ok (l : Ledger) : Prop :=
  Forall (fun user_data : option FsearchDatabase => user_data <> None) (l_pending l).

(** ** [fsearch.c]: the update without a primary instance *)

Definition EXIT_SUCCESS : Z := 0.
Definition EXIT_FAILURE : Z := 1.

(** [database_scan_in_local_instance].  [config_loaded] and
    [default_loaded] are the results of [config_load] and
    [config_load_default]; [o] is what [db_scan] and [db_save] turn out to
    do.  [db_scan] gets [NULL] for the cancellable and the status
    callback. *)
Definition database_scan_in_local_instance (config_loaded default_loaded : bool)
    (o : DbCallResults) : M Z :=
  if negb config_loaded && negb default_loaded then ret EXIT_FAILURE
  else
    d <- db_new ;;
    r <- db_scan d false o ;;
    res <- (if fst r then
              db_path <- fsearch_application_get_database_dir ;;
              match db_path with
              | Some p =>
                  ok <- db_save (snd r) p o ;;
                  ret (if ok then EXIT_SUCCESS else EXIT_FAILURE)
              | None => ret EXIT_FAILURE
              end
            else ret EXIT_FAILURE) ;;
    db_unref (snd r) ;;
    ret res.

(** [fsearch_application_local_database_scan]; [update_called_on_primary]
    is what the bus callbacks leave in the worker context. *)
Definition fsearch_application_local_database_scan (update_called_on_primary : bool)
    (config_loaded default_loaded : bool) (o : DbCallResults) : M Z :=
  if update_called_on_primary then ret 0
  else database_scan_in_local_instance config_loaded default_loaded o.

(** [fsearch_application_handle_local_options]: a result of [-1] lets the
    application go on, any other is the exit status of the process. *)
Definition fsearch_application_handle_local_options (options : CommandLineOptions)
    (update_called_on_primary config_loaded default_loaded : bool) (o : DbCallResults)
  : M Z :=
  if opt_update_database options then
    fsearch_application_local_database_scan update_called_on_primary config_loaded
      default_loaded o
  else if opt_version options then ret 0
  else ret (-1).

(** ** [fsearch.c]: keyboard accelerators *)

Section Accelerators.
Local Open Scope string_scope.

(** The accelerators GTK keeps for each detailed action name. *)
Definition Accels : Type := list (string * list string).

(** [gtk_application_set_accels_for_action] replaces the accelerators of
    the action. *)
Definition gtk_application_set_accels_for_action (action_name : string)
    (accels : list string) (t : Accels) : Accels :=
  (action_name, accels) :: filter (fun e => negb (String.eqb (fst e) action_name)) t.

(** [gtk_application_get_actions_for_accel]: the actions an accelerator
    triggers. *)
Definition gtk_application_get_actions_for_accel (accel : string) (t : Accels)
  : list string :=
  map fst (filter (fun e => existsb (String.eqb accel) (snd e)) t).

Definition set_accel_for_action (action_name accel : string) (t : Accels) : Accels :=
  gtk_application_set_accels_for_action action_name [accel] t.

Definition set_accels_for_action (action_name : string) (accels : list string) (t : Accels)
  : Accels :=
  gtk_application_set_accels_for_action action_name accels t.

(** [exit_on_escape] is the field of the configuration. *)
Definition set_accels_for_escape (exit_on_escape : bool) (t : Accels) : Accels :=
  if exit_on_escape then
    set_accels_for_action "app.quit" ["<control>q"; "Escape"]
      (set_accels_for_action "win.hide_window" [] t)
  else
    set_accel_for_action "app.quit" "<control>q"
      (set_accel_for_action "win.hide_window" "Escape" t).

(** The accelerators [fsearch_application_startup] sets, from none. *)
Definition startup_accels (show_menubar exit_on_escape : bool) : Accels :=
  let t := if negb show_menubar then set_accel_for_action "win.toggle_app_menu" "F10" []
           else [] in
  let t := set_accel_for_action "win.toggle_focus" "Tab" t in
  let t := set_accel_for_action "win.focus_search" "<control>f" t in
  let t := set_accel_for_action "app.new_window" "<control>n" t in
  let t := set_accel_for_action "win.select_all" "<control>a" t in
  let t := set_accel_for_action "win.match_case" "<control>i" t in
  let t := set_accel_for_action "win.search_mode" "<control>r" t in
  let t := set_accel_for_action "win.search_in_path" "<control>u" t in
  let t := set_accel_for_action "app.update_database" "<control><shift>r" t in
  let t := set_accel_for_action "app.preferences(uint32 0)" "<control>p" t in
  let t := set_accel_for_action "win.close_window" "<control>w" t in
  let t := set_accel_for_action "app.help" "F1" t in
  set_accels_for_escape exit_on_escape t.

(** The accelerators after the preferences dialog has finished once for
    each element of [changes], each time with that value of
    [exit_on_escape] in the new configuration. *)
Definition accels_after (show_menubar exit_on_escape : bool) (changes : list bool) : Accels :=
  fold_left (fun t e => set_accels_for_escape e t) changes
    (startup_accels show_menubar exit_on_escape).

End Accelerators.

(** The runs of an application: events in any order until it shuts down,
    after which the main loop only dispatches the idle sources that are
    still pending. *)
Fixpoint live (evs : list Event) : bool :=
  match evs with
  | [] => true
  | ev_shutdown _ :: rest =>
      forallb (fun e => match e with ev_idle => true | _ => false end) rest
  | _ :: rest => live rest
  end.

(** What the shutdown and the flush of the main loop leave of the
    application: no database, no pool, the shutdown flag. *)
Definition closed (s : FsearchApplication) : Prop :=
  is_shutting_down s = true /\ db_pool s = None /\ db s = None.

(** The sources [database_load] adds for the task [r] whose [db_load]
    turned out as [o]: the status texts, and the fallback to a scan. *)
Definition load_reports (r : RunningCall) (o : DbCallResults) (s : FsearchApplication)
  : list IdleSource :=
  (if run_status_cb r then map idle_on_database_notify_status (result_status o) else [])
  ++ (if negb (result_ok o) && negb (update_database_on_launch (config s))
      then [idle_on_database_scan_enqueue] else []).

(** A state in which the first load is being run. *)
Definition loading_state : FsearchApplication :=
  run [ev_activate; ev_pool_take] (started example_home example_config).

(** ** What the main loop does to what is pending *)

Definition is_scan_enqueue (src : IdleSource) : bool :=
  match src with
  | idle_on_database_scan_enqueue => true
  | _ => false
  end.

(** The fallback scans waiting among idle sources. *)
Definition scan_requests (l : list IdleSource) : nat :=
  List.length (filter is_scan_enqueue l).

(** The cancellable and the published database once the main loop of a
    running application has dispatched the sources [l], from the
    cancellable [c] and the published database [cur]. *)
Fixpoint dispatched (l : list IdleSource) (c : bool) (cur : option FsearchDatabase)
  : bool * option FsearchDatabase :=
  match l with
  | [] => (c, cur)
  | idle_on_database_update_finished user_data :: l' =>
      dispatched l' false (if c then cur else user_data)
  | idle_on_database_scan_enqueue :: l' => dispatched l' false cur
  | _ :: l' => dispatched l' c cur
  end.

(** An access that is not to the published reference, or is made with the
    state mutex held. *)
Definition db_locked (a : Access) : Prop :=
  acc_field a = field_db -> acc_locked a = true.

(** A state in which a load has completed and waits for the main loop
    while the scan asked for at launch is being run. *)
Definition two_in_flight_state : FsearchApplication :=
  run [ev_activate; ev_pool_take; ev_pool_return (mkResults true 7 [] true); ev_pool_take]
    (started example_home (mkConfig false true false 0 0)).

(** ** [fsearch_file_utils.c]: opening the parent folder *)

Module FileUtils.

(** The part of GIO's [GFile] interface the function uses.  [GFile] objects
    are made from a path and may have a parent and a local path. *)
Class GFileIface (GFile : Type) : Type := {
  g_file_new_for_path : string -> GFile;
  g_file_get_parent : GFile -> option GFile;
  g_file_get_path : GFile -> option string
}.

(** The two openers of the same file the function hands over to.  All they
    do is build a command line or a list of URIs and have GLib spawn the
    process or launch the application, so they are taken as given: each
    takes the error string ([None] for a [NULL] pointer) and gives back its
    result and the string as it leaves it.  [launch_context] is passed
    through untouched and is left out. *)
Class Openers : Type := {
  open_with_cmd :
    forall (path path_full cmd : string) (error_message : option string),
      bool * option string;
  fsearch_file_utils_open_path :
    forall (path : string) (launch_desktop_files : bool) (error_message : option string),
      bool * option string
}.

Definition newline : string := String (Ascii.ascii_of_nat 10) EmptyString.
Definition dquote : string := String (Ascii.ascii_of_nat 34) EmptyString.

(** [add_error_message_with_format]: appends
    [description "item_name": reason] and a newline, unless one of the
    pointers is [NULL]. *)
Definition add_error_message_with_format (error_messages : option string)
    (description item_name reason : option string) : option string :=
  match error_messages, description, item_name, reason with
  | Some msgs, Some d, Some i, Some r =>
      Some (msgs ++ (d ++ " " ++ dquote ++ i ++ dquote ++ ": " ++ r) ++ newline)%string
  | _, _, _, _ => error_messages
  end.

Definition msg_error_opening_parent : string := "Error when opening parent folder".
Definition msg_failed_parent_path : string := "Failed to get parent path".

Definition fsearch_file_utils_open_parent_folder_with_optional_command
    {GFile : Type} `{GFileIface GFile} `{Openers}
    (path : string) (cmd : option string) (error_message : option string)
  : bool * option string :=
  let file := g_file_new_for_path path in
  let parent := g_file_get_parent file in
  (* If file has no parent it means it's the root directory; the root
     directory is considered to be its own parent. *)
  let parent_path :=
    g_file_get_path (match parent with Some p => p | None => file end) in
  match parent_path with
  | None =>
      (false,
       add_error_message_with_format error_message (Some msg_error_opening_parent)
         (Some path) (Some msg_failed_parent_path))
  | Some pp =>
      match cmd with
      | Some c => open_with_cmd pp path c error_message
      | None => fsearch_file_utils_open_path pp false error_message
      end
  end.

(** [fsearch_file_utils_open_parent_folder_with_optional_command_from_path_list]:
    every path in turn, the error string threaded through; the result is
    [true] whatever the single calls return.  An empty list is refused. *)
Fixpoint open_parent_folders {GFile : Type} `{GFileIface GFile} `{Openers}
    (paths : list string) (cmd : option string) (error_message : option string)
  : option string :=
  match paths with
  | [] => error_message
  | p :: ps =>
      open_parent_folders ps cmd
        (snd (fsearch_file_utils_open_parent_folder_with_optional_command p cmd error_message))
  end.

Definition fsearch_file_utils_open_parent_folder_with_optional_command_from_path_list
    {GFile : Type} `{GFileIface GFile} `{Openers}
    (paths : list string) (cmd : option string) (error_message : option string)
  : bool * option string :=
  match paths with
  | [] => (false, error_message)
  | _ => (true, open_parent_folders paths cmd error_message)
  end.

(** *** Local files on a POSIX file system

    An instance of the interface for absolute paths: a file is the list of
    its path components below the root, the root being the empty list. *)

Definition slash : Ascii.ascii := Ascii.ascii_of_nat 47.

(** The components of a path: the pieces between separators, empty pieces
    and [.] dropped. *)
Fixpoint components (cur : string) (p : string) : list string :=
  let close :=
    if (String.eqb cur EmptyString || String.eqb cur ".")%bool then [] else [cur] in
  match p with
  | EmptyString => close
  | String c p' =>
      if Ascii.eqb c slash then close ++ components EmptyString p'
      else components (cur ++ String c EmptyString) p'
  end.

Definition local_path (cs : list string) : string :=
  match cs with
  | [] => "/"
  | _ => String.concat EmptyString (map (fun c => String slash c) cs)
  end.

#[export] Instance local_file : GFileIface (list string) := {
  g_file_new_for_path := components EmptyString;
  g_file_get_parent cs :=
    match cs with
    | [] => None
    | _ => Some (removelast cs)
    end;
  g_file_get_path cs := Some (local_path cs)
}.

(** Openers that do nothing but report what they were asked to open, in the
    error string. *)
Definition reporting_openers : Openers := {|
  open_with_cmd path path_full cmd error_message :=
    (true, Some ("cmd " ++ cmd ++ " on " ++ path ++ " for " ++ path_full)%string);
  fsearch_file_utils_open_path path launch error_message :=
    (true, Some ("open " ++ path)%string)
|}.


(** *** Error texts *)

(** [add_error_message]: appends the message and a newline, unless one of
    the pointers is [NULL]. *)
Definition add_error_message (error_messages : option string)
    (error_message : option string) : option string :=
  match error_messages, error_message with
  | Some msgs, Some m => Some (msgs ++ m ++ newline)%string
  | _, _ => error_messages
  end.

(** *** The data directory *)

Definition data_folder_name : string := "fsearch".

(** What [snprintf (path, len, ...)] leaves in the buffer when the
    formatted text is [text]: at most [len - 1] characters of it, and
    nothing at all when [len] is zero. *)
Definition snprintf (path : string) (len : nat) (text : string) : string :=
  match len with
  | O => path
  | S k => substring 0 k text
  end.

(** [xdg_data_dir] is what [g_get_user_data_dir] returns. *)
Definition fsearch_file_utils_init_data_dir_path (path : string) (len : nat)
    (xdg_data_dir : string) : string :=
  snprintf path len (xdg_data_dir ++ "/" ++ data_folder_name).

(** [PATH_MAX] of [limits.h] on Linux. *)
Definition PATH_MAX : nat := 4096.

(** *** Opening files through the system *)

(** [g_file_get_uri], and [g_app_info_launch_default_for_uri], which is
    given the number of launches made before it and the URI and returns the
    message of the error it sets, if it sets one. *)
Class UriLauncher (GFile : Type) : Type := {
  g_file_get_uri : GFile -> option string;
  g_app_info_launch_default_for_uri : nat -> string -> option string
}.

(** The loop of [launch_default_for_path]; [launched] counts the launches
    made so far. *)
Fixpoint launch_each_default {GFile : Type} `{GFileIface GFile} `{UriLauncher GFile}
    (launched : nat) (paths : list string) (error_message : option string)
  : option string :=
  match paths with
  | [] => error_message
  | p :: ps =>
      let file := g_file_new_for_path p in
      match g_file_get_uri file with
      | Some uri =>
          match g_app_info_launch_default_for_uri launched uri with
          | Some message =>
              launch_each_default (S launched) ps
                (add_error_message error_message (Some message))
          | None => launch_each_default (S launched) ps error_message
          end
      | None => launch_each_default launched ps error_message
      end
  end.

(** [launch_default_for_path]; the error string is read at the end, so it
    is not [NULL]. *)
Definition launch_default_for_path {GFile : Type} `{GFileIface GFile} `{UriLauncher GFile}
    (paths : list string) (error_message : string) : bool * string :=
  let messages :=
    match launch_each_default O paths (Some error_message) with
    | Some msgs => msgs
    | None => error_message
    end in
  (if (0 <? String.length messages)%nat then false else true, messages).


(** *** Launching by content type *)

(** The applications GIO knows: the one a desktop file describes, the
    default one of a content type, and what launching one does (the message
    of the error set, if one is set).  [gdk_display_get_default_ok] tells
    whether there is a default display. *)
Class AppLauncher (AppInfo : Type) : Type := {
  g_desktop_app_info_new_from_filename : string -> option AppInfo;
  gdk_display_get_default_ok : bool;
  g_app_info_launch : AppInfo -> option string;
  g_app_info_get_default_for_type : string -> option AppInfo;
  g_app_info_launch_uris : AppInfo -> list string -> option string
}.

Definition msg_error_launching_desktop_file : string := "Error when launching desktop file".
Definition msg_failed_app_info : string := "Failed to get application information".
Definition msg_failed_display : string := "Failed to get default display".
Definition msg_failed_path : string := "Failed to get path".
Definition msg_error_content_type : string :=
  "Error when getting information for content type".
Definition msg_no_default_application : string := "No default application registered".

Definition open_application_for_path {AppInfo : Type} `{AppLauncher AppInfo}
    (path : string) (error_messages : option string) : bool * option string :=
  match g_desktop_app_info_new_from_filename path with
  | None =>
      (false,
       add_error_message_with_format error_messages (Some msg_error_launching_desktop_file)
         (Some path) (Some msg_failed_app_info))
  | Some info =>
      if negb gdk_display_get_default_ok then
        (false,
         add_error_message_with_format error_messages (Some msg_error_launching_desktop_file)
           (Some path) (Some msg_failed_display))
      else
        match g_app_info_launch info with
        | Some message => (false, add_error_message error_messages (Some message))
        | None => (true, error_messages)
        end
  end.

(** The loop over desktop files of [launch_for_content_type]: for a file
    without a local path the message is asked for with that [NULL] path as
    the item name. *)
Fixpoint launch_desktop_files {GFile AppInfo : Type} `{GFileIface GFile}
    `{AppLauncher AppInfo} (files : list GFile) (error_messages : option string)
  : option string :=
  match files with
  | [] => error_messages
  | file :: files' =>
      match g_file_get_path file with
      | None =>
          launch_desktop_files files'
            (add_error_message_with_format error_messages
               (Some msg_error_launching_desktop_file) None (Some msg_failed_path))
      | Some path =>
          launch_desktop_files files' (snd (open_application_for_path path error_messages))
      end
  end.

(** [launch_for_content_type]; the fields of the context it uses are
    [launch_desktop_applications] and [error_messages], which it gives
    back. *)
Definition launch_for_content_type {GFile AppInfo : Type} `{GFileIface GFile}
    `{UriLauncher GFile} `{AppLauncher AppInfo}
    (content_type : string) (files : list GFile) (launch_desktop_applications : bool)
    (error_messages : option string) : option string :=
  if (launch_desktop_applications && String.eqb content_type "application/x-desktop")%bool
  then launch_desktop_files files error_messages
  else
    match g_app_info_get_default_for_type content_type with
    | None =>
        add_error_message_with_format error_messages (Some msg_error_content_type)
          (Some content_type) (Some msg_no_default_application)
    | Some info =>
        let uri_list := flat_map (fun file => match g_file_get_uri file with
                                              | Some uri => [uri]
                                              | None => []
                                              end) files in
        match g_app_info_launch_uris info uri_list with
        | Some message => add_error_message error_messages (Some message)
        | None => error_messages
        end
    end.

(** A file system without applications, in which every launch fails. *)
Definition failing_uris : UriLauncher (list string) := {|
  g_file_get_uri cs := Some ("file://" ++ local_path cs)%string;
  g_app_info_launch_default_for_uri launched uri := Some ("cannot open " ++ uri)%string
|}.

(** Files that are not local, and desktop files that all describe an
    application whose launch fails. *)
Definition remote_files : GFileIface string := {|
  g_file_new_for_path p := p;
  g_file_get_parent f := None;
  g_file_get_path f := None
|}.

Definition remote_uris : UriLauncher string := {|
  g_file_get_uri f := Some f;
  g_app_info_launch_default_for_uri launched uri := None
|}.

Definition failing_apps : AppLauncher string := {|
  g_desktop_app_info_new_from_filename p := Some p;
  gdk_display_get_default_ok := true;
  g_app_info_launch info := Some ("cannot launch " ++ info)%string;
  g_app_info_get_default_for_type t := None;
  g_app_info_launch_uris info uris := None
|}.

Definition has_local_path {GFile : Type} `{GFileIface GFile} (file : GFile) : bool :=
  match g_file_get_path file with
  | Some _ => true
  | None => false
  end.
End FileUtils.

(** * Properties *)

(** ** Auxiliary facts *)

Lemma gint_wrap_small (z : Z) : - 2 ^ 31 <= z < 2 ^ 31 -> gint_wrap z = z.
Proof. intros Hz. unfold gint_wrap. rewrite Z.mod_small; lia. Qed.

Lemma guint_wrap_small (z : Z) : 0 <= z <= G_MAXUINT -> guint_wrap z = z.
Proof. unfold G_MAXUINT, guint_wrap. intros Hz. apply Z.mod_small. lia. Qed.

Lemma guint_wrap_sum (a b : Z) :
  guint_wrap (guint_wrap a + guint_wrap b) = guint_wrap (a + b).
Proof. unfold guint_wrap. symmetry. apply Z.add_mod. lia. Qed.

(** [report_status] is the loop that runs the callback on each text. *)
Lemma report_status_is_a_loop (l : list string) (s : FsearchApplication) :
  for_each l (fun t => database_notify_status_cb (Some t)) s = report_status l s.
Proof.
  revert s. induction l as [|t l IH]; intros s; cbn.
  - unfold report_status, modify. cbn. rewrite app_nil_r. destruct s; reflexivity.
  - unfold bind. cbn. rewrite IH. unfold report_status, modify. cbn.
    rewrite <- app_assoc. reflexivity.
Qed.

Lemma saved_app (l1 l2 : list Effect) : saved (l1 ++ l2) = saved l1 ++ saved l2.
Proof.
  induction l1 as [|e l1 IH]; [reflexivity|].
  destruct e; cbn; rewrite IH; reflexivity.
Qed.

Lemma unreffed_app (l1 l2 : list Effect) :
  unreffed (l1 ++ l2) = unreffed l1 ++ unreffed l2.
Proof.
  induction l1 as [|e l1 IH]; [reflexivity|].
  destruct e; cbn; rewrite IH; reflexivity.
Qed.

Lemma pushed_app (l1 l2 : list Effect) : pushed (l1 ++ l2) = pushed l1 ++ pushed l2.
Proof.
  induction l1 as [|e l1 IH]; [reflexivity|].
  destruct e; cbn; rewrite IH; reflexivity.
Qed.

Lemma entered_app (l1 l2 : list Effect) :
  entered (l1 ++ l2) = entered l1 ++ entered l2.
Proof.
  induction l1 as [|e l1 IH]; [reflexivity|].
  destruct e; cbn; rewrite IH; reflexivity.
Qed.

(** Runs the monadic code of a goal, leaving the logs, the lists and the
    arithmetic as they are written. *)
Ltac run_lazy :=
  lazy -[entered pushed saved unreffed filter app map List.length repeat existsb
         Z.add Z.sub Z.mul Z.modulo Z.eqb Z.ltb Z.leb Z.max Z.of_nat
         Nat.ltb Nat.leb Nat.eqb Nat.add gint_wrap guint_wrap String.append
         G_MAXINT G_MAXUINT].

Ltac run_m := run_lazy; repeat (progress cbn [Z.eqb Nat.eqb]; run_lazy).

(** Reads the fields of explicit states, leaving everything else alone. *)
Ltac read_fields :=
  cbn [fst snd db config db_pool new_window db_state db_timeout_id db_thread_cancellable
       num_database_update_active mutex is_shutting_down update_database_enabled
       cancel_update_database_enabled idle timeouts next_source_id windows next_db_id
       user_data_dir effects accesses max_threads queue running] in *.

(** Opens a state into its fields, so that simplification yields explicit
    records. *)
Ltac open_state s :=
  destruct s as [s_db s_config s_pool s_new_window s_db_state s_timeout_id s_cancelled
                 s_num s_mutex s_down s_update s_cancel s_idle s_timeouts s_next_source
                 s_windows s_next_db s_dir s_effects s_accesses];
  read_fields.

Ltac split_if :=
  match goal with
  | |- context [if ?b then _ else _] => destruct b eqn:?; cbn
  end.

(** ** The entry count without a database *)

(** C8.  While no database has been published ([db] is [NULL]),
    [fsearch_application_get_num_db_entries] returns 0. *)
Theorem get_num_db_entries_without_db (s : FsearchApplication) :
  db s = None -> eval fsearch_application_get_num_db_entries s = 0.
Proof.
  intros Hdb. open_state s. subst. reflexivity.
Qed.

Lemma get_num_db_entries_without_db_witness :
  db (started example_home example_config) = None
  /\ eval fsearch_application_get_num_db_entries (started example_home example_config) = 0.
Proof.
  split; [reflexivity|].
  apply (get_num_db_entries_without_db (started example_home example_config)).
  reflexivity.
Defined.

(** With a database published it is the count of that database. *)
Lemma get_num_db_entries_with_db (s : FsearchApplication) (d : FsearchDatabase) :
  db s = Some d -> eval fsearch_application_get_num_db_entries s = db_get_num_entries d.
Proof.
  intros Hdb. open_state s. subst. reflexivity.
Qed.

(** ** The periodic update *)

Lemma database_auto_update_init_timeouts (s : FsearchApplication) :
  let s' := exec database_auto_update_init s in
  timeouts s'
  = detached s
    ++ (if update_database_every (config s)
        then [(next_source_id s, Z.max 60 (guint_wrap (interval_of (config s))))]
        else [])
  /\ db_timeout_id s' = if update_database_every (config s) then next_source_id s else 0.
Proof.
  assert (Hmax : forall w, (if w <? 60 then 60 else w) = Z.max 60 w).
  { intros w. destruct (Z.ltb_spec w 60); lia. }
  open_state s. destruct s_config as [status launch every hours minutes].
  unfold detached, interval_of. read_fields.
  cbn [update_database_every update_database_every_hours update_database_every_minutes].
  rewrite <- guint_wrap_sum, <- Hmax.
  destruct s_timeout_id, every; cbn [Z.eqb]; rewrite ?app_nil_r; split; reflexivity.
Qed.

(** When the only source attached is the one registered under
    [db_timeout_id], detaching it leaves none. *)
Lemma detached_nil (s : FsearchApplication) :
  (forall t, In t (timeouts s) -> fst t = db_timeout_id s /\ db_timeout_id s <> 0) ->
  detached s = [].
Proof.
  intros Hreg. unfold detached. destruct (Z.eqb_spec (db_timeout_id s) 0) as [Hz|Hz].
  - destruct (timeouts s) as [|t l]; [reflexivity|].
    destruct (Hreg t (or_introl eq_refl)) as [_ Hne]. contradiction.
  - induction (timeouts s) as [|t l IH]; [reflexivity|]. cbn [filter].
    destruct (Hreg t (or_introl eq_refl)) as [Ht _]. rewrite Ht, Z.eqb_refl. cbn [negb].
    apply IH. intros t' Ht'. apply Hreg. right. exact Ht'.
Qed.

(** C9, as the code has it.  With periodic updates enabled and an interval
    [hours * 3600 + minutes * 60] that fits 32 bits, the timeout is
    registered for that many seconds, and for 60 seconds if that is less;
    with the feature disabled the old source is removed and none is added,
    which leaves no source when the old one was the only one. *)
Theorem database_auto_update_init_interval (s : FsearchApplication) :
  0 <= update_database_every_hours (config s) ->
  0 <= update_database_every_minutes (config s) ->
  interval_of (config s) <= G_MAXUINT ->
  let s' := exec database_auto_update_init s in
  (update_database_every (config s) = true ->
   timeouts s' = detached s ++ [(next_source_id s, Z.max 60 (interval_of (config s)))]
   /\ db_timeout_id s' = next_source_id s)
  /\ (update_database_every (config s) = false ->
      timeouts s' = detached s /\ db_timeout_id s' = 0)
  /\ (update_database_every (config s) = false ->
      (forall t, In t (timeouts s) -> fst t = db_timeout_id s /\ db_timeout_id s <> 0) ->
      timeouts s' = []).
Proof.
  intros Hh Hm Hfit s'.
  destruct (database_auto_update_init_timeouts s) as [Ht Hid]. fold s' in Ht, Hid.
  rewrite guint_wrap_small in Ht by (unfold interval_of in *; lia).
  split; [|split]; intros Hev; rewrite Hev in Ht, Hid; rewrite Ht, ?app_nil_r; auto.
  apply detached_nil.
Qed.

Lemma database_auto_update_init_interval_witness :
  let s := started example_home example_config in
  interval_of (config s) <= G_MAXUINT
  /\ timeouts (exec database_auto_update_init s) = [(1, 5400)]
  /\ db_timeout_id (exec database_auto_update_init s) = 1.
Proof.
  intros s.
  assert (Hh : 0 <= update_database_every_hours (config s)) by (cbn; lia).
  assert (Hm : 0 <= update_database_every_minutes (config s)) by (cbn; lia).
  assert (Hfit : interval_of (config s) <= G_MAXUINT) by (vm_compute; discriminate).
  split; [exact Hfit|].
  exact (proj1 (database_auto_update_init_interval s Hh Hm Hfit) eq_refl).
Defined.

(** C9 as stated fails once the sum leaves 32 bits: 1193047 hours are
    4294969200 seconds, and the source is registered for 1904. *)
Lemma update_interval_wraps :
  let cfg := mkConfig false false true 1193047 0 in
  let s := exec database_auto_update_init (started example_home cfg) in
  update_database_every cfg = true
  /\ timeouts s = [(1, 1904)]
  /\ Z.max 60 (interval_of cfg) = 4294969200
  /\ timeouts s <> [(1, Z.max 60 (interval_of cfg))].
Proof. vm_compute. repeat split; try reflexivity. discriminate. Qed.

(** ** Completion of a request *)

Lemma on_database_update_finished_state
    (user_data : option FsearchDatabase) (s : FsearchApplication) :
  on_database_update_finished user_data s = (G_SOURCE_REMOVE, finished_state user_data s).
Proof.
  open_state s.
  unfold on_database_update_finished, finished_state, clear_db, read_db, write_db,
    read_num_database_update_active, write_num_database_update_active.
  destruct s_down, s_cancelled, s_db, user_data; run_m;
    try split_if; rewrite <- ?app_assoc; reflexivity.
Qed.

(** C1, as the code has it.  When the completion of a request is handled
    while the cancellable is cancelled, or while the application shuts
    down, the published database stays what it was and the database the
    request built is released. *)
Theorem cancelled_update_keeps_published_store
    (s : FsearchApplication) (d : FsearchDatabase) :
  is_shutting_down s = true \/ db_thread_cancellable s = true ->
  let s' := exec (on_database_update_finished (Some d)) s in
  db s' = db s /\ unreffed (effects s') = unreffed (effects s) ++ [d].
Proof.
  intros Hc. unfold exec. rewrite on_database_update_finished_state.
  open_state s.
  destruct s_down; [|destruct s_cancelled; [|destruct Hc; discriminate]]; cbn;
    rewrite unreffed_app; auto.
Qed.

Lemma cancelled_update_keeps_published_store_witness :
  let d := mkDatabase 0 12 in
  let s' := exec (on_database_update_finished (Some d)) cancelled_state in
  db_thread_cancellable cancelled_state = true
  /\ db s' = db cancelled_state
  /\ unreffed (effects s') = unreffed (effects cancelled_state) ++ [d].
Proof.
  intros d s'. split; [reflexivity|].
  apply (cancelled_update_keeps_published_store cancelled_state d).
  right. reflexivity.
Defined.

(** Otherwise the database the request built is published, whatever the
    scan or the load returned: the handler is not told. *)
Lemma uncancelled_update_publishes (s : FsearchApplication) (d : FsearchDatabase) :
  is_shutting_down s = false ->
  db_thread_cancellable s = false ->
  db (exec (on_database_update_finished (Some d)) s) = Some d.
Proof.
  intros Hs Hc. unfold exec. rewrite on_database_update_finished_state.
  open_state s. subst. reflexivity.
Qed.

(** C1 as stated fails for a failure that is not a cancellation: a load is
    published, then a scan is requested and [db_scan] returns [FALSE]; the
    database of the failed scan replaces the one of the load, which is
    released. *)
Lemma failed_scan_replaces_published_store :
  let loaded := mkResults true 5 [] false in
  let failed := mkResults false 0 [] false in
  let before :=
    run [ev_activate; ev_pool_take; ev_pool_return loaded; ev_idle; ev_idle]
        (started example_home example_config) in
  let after :=
    run [ev_action act_update_database; ev_pool_take; ev_pool_return failed;
         ev_idle; ev_idle] before in
  db before = Some (mkDatabase 0 5)
  /\ result_ok failed = false
  /\ db_thread_cancellable (run [ev_action act_update_database; ev_pool_take;
                                ev_pool_return failed; ev_idle] before) = false
  /\ db after = Some (mkDatabase 1 0)
  /\ unreffed (effects after) = [mkDatabase 0 5]
  /\ db after <> db before.
Proof. vm_compute. repeat split; try reflexivity. discriminate. Qed.

(** Whether the cancellable is still cancelled when the completion is
    handled is another matter: a load that is cancelled returns [FALSE], its
    fallback is dispatched first, the enqueue it makes resets the
    cancellable, and the database of the cancelled load is published. *)
Example cancelled_load_published_behind_fallback :
  let s :=
    run [ev_activate; ev_pool_take; ev_action act_cancel_update_database;
         ev_pool_return cancelled_call; ev_idle; ev_idle; ev_idle]
        (started example_home example_config) in
  db s = Some (mkDatabase 0 0)
  /\ pool_queue s = [new_context FSEARCH_DATABASE_ACTION_SCAN].
Proof. vm_compute. split; reflexivity. Qed.

(** ** Saving *)

(** C2, as the code has it.  [db_save] is called by the scan, on the
    database it has just built and scanned, when the scan succeeded and the
    cancellable is not cancelled; the published database is neither read nor
    changed.  A load never saves. *)
Theorem scan_saves_the_database_it_built
    (status_cb : bool) (d : FsearchDatabase) (o : DbCallResults) (s : FsearchApplication) :
  let s1 := exec (database_scan_and_save status_cb d o) s in
  let s2 := exec (database_load status_cb d o) s in
  saved (effects s1)
  = saved (effects s)
    ++ (if result_ok o && negb (db_thread_cancellable s) then [db_after_call d o] else [])
  /\ db s1 = db s /\ accesses s1 = accesses s
  /\ saved (effects s2) = saved (effects s).
Proof.
  open_state s. destruct s_config as [status launch every hours minutes].
  unfold database_scan_and_save, database_load, db_scan, db_load.
  destruct status_cb, o as [[] entries texts save], s_cancelled, status, launch; run_m;
    rewrite ?saved_app, ?app_nil_r; auto.
Qed.

(** C2 as stated fails: nothing is published yet, and the first scan saves
    all the same; what it saves is its own database, while the published
    reference is still [NULL]. *)
Lemma first_scan_saves_unpublished_store :
  let s :=
    run [ev_action act_update_database; ev_pool_take;
         ev_pool_return (mkResults true 42 [] true)]
        (started example_home example_config) in
  db s = None
  /\ effects s
     = [call_g_thread_pool_push (new_context FSEARCH_DATABASE_ACTION_SCAN);
        enter_database_pool_func (new_context FSEARCH_DATABASE_ACTION_SCAN);
        call_db_new (mkDatabase 0 0);
        call_db_save (mkDatabase 0 42) "/home/user/.local/share/fsearch"]
  /\ saved (effects s) <> [].
Proof. vm_compute. repeat split; try reflexivity. discriminate. Qed.
(** ** Publication order and the state mutex *)

Lemma idle_completion_step (s : FsearchApplication) (x : FsearchDatabase)
    (rest : list IdleSource) :
  is_shutting_down s = false ->
  idle s = idle_on_database_update_finished (Some x) :: rest ->
  let s1 := step s ev_idle in
  is_shutting_down s1 = false
  /\ idle s1 = rest
  /\ db_thread_cancellable s1 = false
  /\ (db_thread_cancellable s = false -> db s1 = Some x)
  /\ exists new, accesses s1 = accesses s ++ new /\ Forall locked new.
Proof.
  intros Hs Hi.
  assert (Hstep : step s ev_idle = finished_state (Some x) (set_idle rest s)).
  { unfold step, exec, handle, g_main_context_iteration, bind, gets, modify.
    rewrite Hi. cbn [dispatch]. rewrite on_database_update_finished_state. reflexivity. }
  cbv zeta. rewrite Hstep. open_state s. subst.
  destruct s_cancelled; cbn; (repeat split; try discriminate);
    eexists; (split; [reflexivity|]); destruct s_db; repeat constructor.
Qed.

(** The completion of a task is queued behind everything the main loop
    already holds, so completions are dispatched in the order the tasks
    finished. *)
Lemma completion_is_queued_last (r : RunningCall) (o : DbCallResults)
    (s : FsearchApplication) :
  finished_cb (run_ctx r) = Some fn_database_update_finished_cb ->
  exists between,
    idle (exec (database_pool_func_leave r o) s)
    = idle s ++ between
      ++ [idle_on_database_update_finished (Some (db_after_call (run_db r) o))].
Proof.
  intros Hf. open_state s. destruct r as [[a uf scb fcb] d cb]. cbn in Hf. subst.
  destruct s_config as [status launch every hours minutes].
  destruct o as [ok entries texts save].
  exists ((if cb then map idle_on_database_notify_status texts else [])
          ++ match uf with
             | fn_database_scan_and_save =>
                 if ok && negb s_cancelled && status
                 then [idle_on_database_notify_status msg_saving] else []
             | fn_database_load =>
                 if negb ok && negb launch then [idle_on_database_scan_enqueue] else []
             end).
  unfold database_pool_func_leave, database_scan_and_save, database_load, db_scan, db_load,
    database_update_finished_cb.
  destruct uf, cb, ok, s_cancelled, status, launch; run_m;
    rewrite ?app_nil_r, <- ?app_assoc; reflexivity.
Qed.

(** C7, as the code has it.  Outside shutdown the completion handler makes
    all its accesses to the published reference and to the counter with the
    state mutex held, and it does write the counter; the two accessors read
    the reference without taking the mutex, so with whatever their caller
    holds; and the enqueue function updates the counter without taking it. *)
Theorem completion_handler_holds_the_mutex
    (s : FsearchApplication) (user_data : option FsearchDatabase) :
  is_shutting_down s = false ->
  (exists new,
      accesses (exec (on_database_update_finished user_data) s) = accesses s ++ new
      /\ Forall locked new
      /\ In (mkAccess field_num_database_update_active access_write true) new)
  /\ accesses (exec fsearch_application_get_db s)
     = accesses s ++ [mkAccess field_db access_read (mutex s)]
  /\ accesses (exec fsearch_application_get_num_db_entries s)
     = accesses s ++ [mkAccess field_db access_read (mutex s)]
  /\ (forall a,
         accesses (exec (database_scan_or_load_enqueue a) s)
         = accesses s
           ++ [mkAccess field_num_database_update_active access_read (mutex s);
               mkAccess field_num_database_update_active access_write (mutex s)]).
Proof.
  intros Hs. repeat split.
  - unfold exec. rewrite on_database_update_finished_state. open_state s. subst.
    destruct s_cancelled; cbn; eexists; (split; [reflexivity|]);
      (split; [destruct s_db; repeat constructor | destruct s_db; cbn; auto 6]).
  - open_state s. destruct s_db; reflexivity.
  - open_state s. destruct s_db; reflexivity.
  - intros a. open_state s. destruct s_pool; cbn; rewrite <- app_assoc; reflexivity.
Qed.

Lemma completion_handler_holds_the_mutex_witness :
  let s := started example_home example_config in
  is_shutting_down s = false
  /\ accesses (exec fsearch_application_get_db s)
     = accesses s ++ [mkAccess field_db access_read (mutex s)].
Proof.
  intros s. split; [reflexivity|].
  exact (proj1 (proj2 (completion_handler_holds_the_mutex s None eq_refl))).
Defined.

(** C7 as stated fails: a request for an update from the started
    application increments the counter, and the mutex is not held. *)
Lemma enqueue_updates_counter_without_mutex :
  let s := started example_home example_config in
  let s' := step s (ev_action act_update_database) in
  num_database_update_active s = 0
  /\ num_database_update_active s' = 1
  /\ skipn (List.length (accesses s)) (accesses s')
     = [mkAccess field_num_database_update_active access_read false;
        mkAccess field_num_database_update_active access_write false]
  /\ ~ Forall locked (skipn (List.length (accesses s)) (accesses s')).
Proof.
  vm_compute. repeat split; try reflexivity.
  intros Hall. inversion Hall as [|a l Ha Hl]. discriminate Ha.
Qed.

(** ** How each function changes the view *)

Lemma bind_run {A B : Type} (m : M A) (k : A -> M B) (s : FsearchApplication) :
  bind m k s = k (fst (m s)) (snd (m s)).
Proof. unfold bind. destruct (m s); reflexivity. Qed.

Lemma entered_repeat (e : Effect) (n : nat) : entered [e] = [] -> entered (repeat e n) = [].
Proof.
  intros He. induction n as [|n IH]; [reflexivity|].
  change (repeat e (S n)) with ([e] ++ repeat e n). rewrite entered_app, He, IH. reflexivity.
Qed.

Lemma pushed_repeat (e : Effect) (n : nat) : pushed [e] = [] -> pushed (repeat e n) = [].
Proof.
  intros He. induction n as [|n IH]; [reflexivity|].
  change (repeat e (S n)) with ([e] ++ repeat e n). rewrite pushed_app, He, IH. reflexivity.
Qed.

Lemma no_completion_in_status (l : list string) :
  filter is_update_finished (map idle_on_database_notify_status l) = [].
Proof. induction l; [reflexivity | assumption]. Qed.

(** Normalises the logs and the idle list inside a view. *)
Ltac view_norm :=
  run_m;
  rewrite ?entered_app, ?pushed_app, ?filter_app, ?length_app, ?no_completion_in_status;
  rewrite ?entered_repeat, ?pushed_repeat by reflexivity;
  cbn [entered pushed filter is_update_finished List.length app];
  rewrite ?app_nil_r, ?Nat.add_0_r.

(** Unfolds one layer of monadic code and reads fields of explicit states,
    leaving the code of the branches as it is. *)
Ltac expose := unfold bind, gets, ret; read_fields.

Lemma view_leave (r : RunningCall) (o : DbCallResults) (s : FsearchApplication) :
  view (snd (database_pool_func_leave r o s))
  = view_set_done (v_done (view s) + (if has_finished_cb (run_ctx r) then 1 else 0)) (view s).
Proof.
  open_state s. destruct r as [[a uf scb fcb] d cb].
  destruct s_config as [status launch every hours minutes].
  destruct o as [ok entries texts save].
  unfold database_pool_func_leave, database_scan_and_save, database_load, db_scan, db_load,
    database_update_finished_cb, has_finished_cb.
  destruct uf, cb, ok, s_cancelled, status, launch, fcb as [[]|]; run_m;
    unfold view_set_done; view_norm; reflexivity.
Qed.

Lemma view_enter_spec (ctx : DatabaseUpdateContext) (s : FsearchApplication) :
  view (snd (database_pool_func_enter ctx s)) = view_enter ctx (view s).
Proof.
  open_state s. destruct ctx as [a uf scb fcb].
  unfold database_pool_func_enter, database_scan_started_cb, database_load_started_cb, db_new.
  destruct scb as [[]|]; run_m; unfold view_enter; view_norm; reflexivity.
Qed.

Lemma enter_keeps_context (ctx : DatabaseUpdateContext) (s : FsearchApplication) :
  run_ctx (fst (database_pool_func_enter ctx s)) = ctx.
Proof.
  open_state s. destruct ctx as [a uf scb fcb].
  unfold database_pool_func_enter, database_scan_started_cb, database_load_started_cb, db_new.
  destruct scb as [[]|]; reflexivity.
Qed.

Lemma view_pool_take (s : FsearchApplication) :
  view (step s ev_pool_take)
  = match db_pool s with
    | Some (mkPool n (ctx :: q) r) =>
        if (List.length r <? n)%nat
        then view_enter ctx
               (view_set_pool
                  (Some (mkPool n q (r ++ [fst (database_pool_func_enter ctx
                                                   (set_db_pool (Some (mkPool n q r)) s))])))
                  (view s))
        else view s
    | _ => view s
    end.
Proof.
  open_state s. destruct s_pool as [[n [|ctx q] r]|]; try reflexivity.
  unfold step, exec, handle, pool_take. expose.
  destruct (List.length r <? n)%nat; [|reflexivity].
  destruct ctx as [a uf [[]|] fcb]; view_norm; reflexivity.
Qed.

(** ** Every event is one move of the view *)

Lemma in_flight_view (s : FsearchApplication) : in_flight s = view_in_flight (view s).
Proof. reflexivity. Qed.

(** Closes a goal [view_move (view s) (view s')] once [s'] has been computed
    to be [f (view s)] for the constructor's function [f]. *)
Ltac by_move f :=
  match goal with
  | |- view_move ?v ?v' =>
      let H := fresh "Hv" in
      assert (H : v' = f v) by (view_norm; reflexivity);
      rewrite H; constructor
  end.

Lemma move_activate (s : FsearchApplication) : view_move (view s) (view (step s ev_activate)).
Proof.
  open_state s. destruct s_config as [status launch every hours minutes].
  destruct s_new_window, s_windows as [|w], s_timeout_id, every, launch, s_pool as [pool|];
    first [ by_move (fun v : View => v)
          | by_move (view_enqueue FSEARCH_DATABASE_ACTION_LOAD)
          | by_move (fun v => view_enqueue FSEARCH_DATABASE_ACTION_SCAN
                                (view_enqueue FSEARCH_DATABASE_ACTION_LOAD v)) ].
Qed.

Lemma move_action (name : ActionName) (s : FsearchApplication) :
  view_move (view s) (view (step s (ev_action name))).
Proof.
  open_state s.
  destruct name, s_update, s_cancel, s_pool as [pool|];
    first [ by_move (fun v : View => v)
          | by_move (view_enqueue FSEARCH_DATABASE_ACTION_SCAN) ].
Qed.

Lemma move_timeout (id : Z) (s : FsearchApplication) :
  view_move (view s) (view (step s (ev_timeout id))).
Proof.
  open_state s. unfold step, exec, handle, timeout_fires. expose. unfold when.
  destruct (existsb _ s_timeouts); [|apply move_none].
  destruct s_update, s_pool as [pool|];
    first [ by_move (fun v : View => v)
          | by_move (view_enqueue FSEARCH_DATABASE_ACTION_SCAN) ].
Qed.

Lemma move_preferences (new_config : option FsearchConfig) (changed : bool)
    (s : FsearchApplication) :
  view_move (view s) (view (step s (ev_preferences new_config changed))).
Proof.
  open_state s. destruct new_config as [[status launch every hours minutes]|]; [|apply move_none].
  destruct s_timeout_id, every, changed, s_pool as [pool|];
    first [ by_move (fun v : View => v)
          | by_move (view_enqueue FSEARCH_DATABASE_ACTION_SCAN) ].
Qed.

Lemma step_idle_finished (s : FsearchApplication) (user_data : option FsearchDatabase)
    (rest : list IdleSource) :
  idle s = idle_on_database_update_finished user_data :: rest ->
  step s ev_idle = finished_state user_data (set_idle rest s).
Proof.
  intros Hi. unfold step, exec, handle, g_main_context_iteration, bind, gets, modify.
  rewrite Hi. cbn [dispatch]. rewrite on_database_update_finished_state. reflexivity.
Qed.

Lemma move_idle (s : FsearchApplication) : view_move (view s) (view (step s ev_idle)).
Proof.
  destruct (idle s) as [|src rest] eqn:Hi.
  - open_state s. subst. apply move_none.
  - destruct src as [text|user_data| | |].
    + open_state s. subst. by_move (fun v : View => v).
    + rewrite (step_idle_finished s user_data rest Hi). open_state s. subst.
      destruct s_down.
      * match goal with
        | |- view_move ?v ?v' =>
            assert (Hv : v' = view_set_done (List.length (filter is_update_finished rest)) v)
        end.
        { destruct user_data; view_norm; reflexivity. }
        rewrite Hv. apply move_drop; reflexivity.
      * match goal with
        | |- view_move ?v ?v' =>
            assert (Hv : v' = view_finished
                               (view_set_done (List.length (filter is_update_finished rest))
                                  v))
        end.
        { destruct s_cancelled, s_db, user_data; view_norm; reflexivity. }
        rewrite Hv. apply move_finish; reflexivity.
    + open_state s. subst. by_move (fun v : View => v).
    + open_state s. subst. by_move (fun v : View => v).
    + open_state s. subst. destruct s_pool as [pool|];
        by_move (view_enqueue FSEARCH_DATABASE_ACTION_SCAN).
Qed.

Lemma move_pool_take (s : FsearchApplication) :
  view_move (view s) (view (step s ev_pool_take)).
Proof.
  rewrite view_pool_take. destruct (db_pool s) as [[n [|ctx q] r]|] eqn:Hp; try apply move_none.
  destruct (Nat.ltb_spec (List.length r) n); [|apply move_none].
  apply move_take; [rewrite <- Hp; reflexivity | assumption | apply enter_keeps_context].
Qed.

Lemma view_pool_return (o : DbCallResults) (s : FsearchApplication) :
  view (step s (ev_pool_return o))
  = match db_pool s with
    | Some (mkPool n q (r0 :: rs)) =>
        view_set_done (v_done (view s) + (if has_finished_cb (run_ctx r0) then 1 else 0))
          (view_set_pool (Some (mkPool n q rs)) (view s))
    | _ => view s
    end.
Proof.
  open_state s. destruct s_pool as [[n q [|r0 rs]]|]; try reflexivity.
  destruct r0 as [[a uf scb fcb] d cb].
  destruct s_config as [status launch every hours minutes].
  destruct o as [ok entries texts save].
  destruct uf, cb, ok, s_cancelled, status, launch, fcb as [[]|]; view_norm; reflexivity.
Qed.

Lemma move_pool_return (o : DbCallResults) (s : FsearchApplication) :
  view_move (view s) (view (step s (ev_pool_return o))).
Proof.
  rewrite view_pool_return. destruct (db_pool s) as [[n q [|r0 rs]]|] eqn:Hp; try apply move_none.
  apply move_return. rewrite <- Hp. reflexivity.
Qed.

Lemma move_command_line (options : CommandLineOptions) (parent_result : Z)
    (s : FsearchApplication) :
  view_move (view s) (view (step s (ev_command_line options parent_result))).
Proof.
  open_state s. destruct s_config as [status launch every hours minutes].
  destruct options as [nw pr se up ve].
  destruct nw, pr, up, s_new_window, s_windows as [|w], s_update, s_timeout_id, every, launch,
    s_pool as [pool|];
    first [ by_move (fun v : View => v)
          | by_move (view_enqueue FSEARCH_DATABASE_ACTION_SCAN)
          | by_move (view_enqueue FSEARCH_DATABASE_ACTION_LOAD)
          | by_move (fun v => view_enqueue FSEARCH_DATABASE_ACTION_SCAN
                                (view_enqueue FSEARCH_DATABASE_ACTION_LOAD v)) ].
Qed.

(** Every event but a shutdown moves the view by one [view_move]. *)
Lemma step_is_a_move (s : FsearchApplication) (e : Event) :
  is_shutdown e = false -> view_move (view s) (view (step s e)).
Proof.
  intros He. destruct e; try discriminate.
  - apply move_activate.
  - apply move_action.
  - apply move_timeout.
  - apply move_preferences.
  - apply move_idle.
  - apply move_pool_take.
  - apply move_pool_return.
  - apply move_command_line.
Qed.

(** ** The request counter *)

Ltac view_simpl :=
  unfold counter_ok, view_pool_ok, pool_ok, view_enqueue, view_finished, view_set_done,
    view_set_pool, view_enter, view_in_flight, view_queue, view_running in *;
  cbn [v_down v_pool v_done v_num v_update v_entered v_pushed queue running max_threads] in *;
  rewrite ?length_app in *;
  cbn [List.length] in *.

Lemma eqb_0_false (n : nat) : (0 < n)%nat -> Nat.eqb n 0 = false.
Proof. intros Hn. apply Nat.eqb_neq. lia. Qed.

Lemma counter_ok_move (v v' : View) :
  counter_ok v ->
  view_move v v' ->
  Z.of_nat (view_in_flight v) <= G_MAXINT ->
  Z.of_nat (view_in_flight v') <= G_MAXINT ->
  counter_ok v'.
Proof.
  unfold G_MAXINT. intros Hok Hm Hb Hb'.
  destruct Hm as [v|a v|v|v n Hd Hdone|v n Hd Hdone|v n ctx q r r0 Hp Hlt Hctx|v n q r0 rs Hp];
    destruct v as [down p done num upd en pu]; view_simpl;
    destruct Hok as (Hdown & Hpool & Hq & Hr & Hn & Hu); subst; view_simpl.
  - repeat split; assumption.
  - destruct p as [[n q r]|]; [|congruence]. view_simpl.
    repeat split; try discriminate; try assumption.
    + apply Forall_app. split; [assumption|]. destruct a; repeat constructor.
    + rewrite gint_wrap_small; lia.
    + symmetry. apply eqb_0_false. lia.
  - destruct p as [[n q r]|]; [|congruence]. view_simpl.
    repeat split; try discriminate; try assumption.
    + repeat (apply Forall_app; split); try assumption; repeat constructor.
    + rewrite (gint_wrap_small (Z.of_nat _ + 1)) by lia. rewrite gint_wrap_small; lia.
    + symmetry. apply eqb_0_false. lia.
  - set (m := (List.length match p with Some pool => queue pool | None => [] end
               + List.length match p with Some pool => running pool | None => [] end)%nat)
      in *.
    assert (Hw : gint_wrap (Z.of_nat (m + S n) - 1) = Z.of_nat (m + n)).
    { rewrite gint_wrap_small; lia. }
    rewrite Hw. repeat split; try assumption.
    destruct (Z.eqb_spec (Z.of_nat (m + n)) 0) as [Hz|Hz].
    + symmetry. apply Nat.eqb_eq. lia.
    + rewrite eqb_0_false by lia. symmetry. apply eqb_0_false. lia.
  - discriminate.
  - inversion Hq; subst.
    repeat split; try discriminate; try assumption.
    + apply Forall_app. split; [assumption|]. repeat constructor. assumption.
    + f_equal. lia.
    + destruct (Nat.eqb_spec (S (List.length q) + List.length r + done) 0); [lia|].
      symmetry. apply eqb_0_false. lia.
  - inversion Hr as [|x l Hcb Hrs]; subst. rewrite Hcb in *.
    repeat split; try discriminate; try assumption.
    + f_equal. lia.
    + rewrite eqb_0_false by lia. symmetry. apply eqb_0_false. lia.
Qed.

Lemma counter_ok_started (dir : string) (loaded : FsearchConfig) :
  counter_ok (view (started dir loaded)).
Proof. repeat split; try constructor. discriminate. Qed.

Lemma counter_fits_cons (e : Event) (evs : list Event) (s : FsearchApplication) :
  counter_fits (e :: evs) s
  = (Z.of_nat (in_flight s) <=? G_MAXINT) && counter_fits evs (step s e).
Proof. reflexivity. Qed.

Lemma counter_fits_now (evs : list Event) (s : FsearchApplication) :
  counter_fits evs s = true -> Z.of_nat (in_flight s) <= G_MAXINT.
Proof.
  intros Hfit. apply Z.leb_le.
  destruct evs; [|rewrite counter_fits_cons in Hfit]; apply andb_prop in Hfit; tauto.
Qed.

Lemma counter_ok_run (evs : list Event) (s : FsearchApplication) :
  counter_ok (view s) ->
  forallb (fun e => negb (is_shutdown e)) evs = true ->
  counter_fits evs s = true ->
  counter_ok (view (run evs s)).
Proof.
  revert s. induction evs as [|e evs IH]; intros s Hok Hev Hfit; [exact Hok|].
  pose proof (counter_fits_now _ _ Hfit) as Hb.
  rewrite counter_fits_cons in Hfit. apply andb_prop in Hfit as [_ Hfit].
  cbn [forallb] in Hev. apply andb_prop in Hev as [He Hev].
  apply negb_true_iff in He.
  change (run (e :: evs) s) with (run evs (step s e)).
  apply IH; [|assumption|assumption].
  apply (counter_ok_move (view s)); auto.
  - apply step_is_a_move. assumption.
  - apply (counter_fits_now evs). assumption.
Qed.

(** Each enqueue adds one to the counter and each completion handled
    outside shutdown takes one off. *)
Lemma enqueue_increments (a : FsearchDatabaseActionType) (s : FsearchApplication) :
  num_database_update_active (exec (database_scan_or_load_enqueue a) s)
  = gint_wrap (num_database_update_active s + 1).
Proof. open_state s. destruct s_pool; reflexivity. Qed.

Lemma completion_decrements (user_data : option FsearchDatabase) (s : FsearchApplication) :
  is_shutting_down s = false ->
  num_database_update_active (exec (on_database_update_finished user_data) s)
  = gint_wrap (num_database_update_active s - 1).
Proof.
  intros Hs. unfold exec. rewrite on_database_update_finished_state.
  open_state s. subst. reflexivity.
Qed.

(** C6, as the code has it.  From the start of the application on, as long
    as it is not shut down and the number of requests in flight stays
    within an [int], the counter is the number of requests that were
    enqueued and whose completion has not been handled yet, and the update
    action is enabled exactly when there is none; the next enqueue adds one
    to the counter and the next completion handled takes one off. *)
Theorem active_counter_counts_requests_in_flight
    (dir : string) (loaded : FsearchConfig) (evs : list Event) :
  forallb (fun e => negb (is_shutdown e)) evs = true ->
  counter_fits evs (started dir loaded) = true ->
  let s := run evs (started dir loaded) in
  num_database_update_active s = Z.of_nat (in_flight s)
  /\ update_database_enabled s = Nat.eqb (in_flight s) 0
  /\ (forall a,
         num_database_update_active (exec (database_scan_or_load_enqueue a) s)
         = gint_wrap (num_database_update_active s + 1))
  /\ (forall user_data,
         num_database_update_active (exec (on_database_update_finished user_data) s)
         = gint_wrap (num_database_update_active s - 1)).
Proof.
  intros Hev Hfit s.
  destruct (counter_ok_run evs (started dir loaded) (counter_ok_started dir loaded) Hev Hfit)
    as (Hd & _ & _ & _ & Hn & Hu).
  split; [exact Hn|]. split; [exact Hu|]. split.
  - intros a. apply enqueue_increments.
  - intros user_data. apply completion_decrements. exact Hd.
Qed.

Lemma active_counter_counts_requests_in_flight_witness :
  let evs := [ev_activate; ev_preferences (Some example_config) true; ev_pool_take;
              ev_pool_return (mkResults true 3 [] true); ev_idle; ev_idle] in
  let s := run evs (started example_home example_config) in
  in_flight s = 1%nat
  /\ num_database_update_active s = 1
  /\ update_database_enabled s = false.
Proof.
  intros evs s.
  assert (Hev : forallb (fun e => negb (is_shutdown e)) evs = true) by reflexivity.
  assert (Hfit : counter_fits evs (started example_home example_config) = true)
    by (vm_compute; reflexivity).
  destruct (active_counter_counts_requests_in_flight example_home example_config evs Hev Hfit)
    as (Hn & Hu & _).
  split; [vm_compute; reflexivity|]. split; [exact Hn | exact Hu].
Defined.

(** C6 as stated fails at shutdown: the request that was enqueued at
    activation completes while the application shuts down, its completion
    is handled, nothing is in flight any more, and the counter is still 1
    with the update action disabled. *)
Lemma shutdown_skips_the_decrement :
  let s := run [ev_activate; ev_pool_take; ev_shutdown [mkResults true 3 [] true];
                ev_idle; ev_idle]
               (started example_home example_config) in
  in_flight s = 0%nat
  /\ idle s = []
  /\ num_database_update_active s = 1
  /\ update_database_enabled s = false
  /\ num_database_update_active s <> Z.of_nat (in_flight s).
Proof. vm_compute. repeat split; try reflexivity. discriminate. Qed.

(** ** The pool *)

Lemma pool_ok_move (v v' : View) : view_pool_ok v -> view_move v v' -> view_pool_ok v'.
Proof.
  intros Hok Hm.
  destruct Hm as [v|a v|v|v n Hd Hdone|v n Hd Hdone|v n ctx q r r0 Hp Hlt Hctx|v n q r0 rs Hp];
    destruct v as [down p done num upd en pu]; view_simpl;
    destruct Hok as (Hone & Hfifo); subst p || idtac; view_simpl.
  - split; assumption.
  - destruct p as [[n q r]|]; view_simpl.
    + split.
      * intros pool Hpool. inversion Hpool; subst. apply (Hone _ eq_refl).
      * rewrite app_assoc, Hfifo. reflexivity.
    + split; [discriminate | rewrite app_nil_r in *; assumption].
  - destruct p as [[n q r]|]; view_simpl.
    + split.
      * intros pool Hpool. inversion Hpool; subst. apply (Hone _ eq_refl).
      * rewrite !app_assoc, Hfifo. reflexivity.
    + split; [discriminate | rewrite app_nil_r in *; assumption].
  - split; assumption.
  - split; assumption.
  - destruct (Hone _ eq_refl) as [Hn Hr]. cbn in Hn, Hr. subst n.
    assert (r = []) by (destruct r; [reflexivity | cbn in Hlt; lia]). subst r.
    split.
    + intros pool Hpool. inversion Hpool; subst. cbn. auto.
    + rewrite <- app_assoc. subst ctx. exact Hfifo.
  - destruct (Hone _ eq_refl) as [Hn Hr]. cbn in Hn, Hr.
    split; [|assumption].
    intros pool Hpool. inversion Hpool; subst. cbn. split; [reflexivity | lia].
Qed.

Lemma pool_part_view (s : FsearchApplication) :
  pool_part s = (v_pool (view s), v_entered (view s), v_pushed (view s)).
Proof. reflexivity. Qed.

Lemma pool_part_leave (r : RunningCall) (o : DbCallResults) (s : FsearchApplication) :
  pool_part (snd (database_pool_func_leave r o s)) = pool_part s.
Proof. rewrite !pool_part_view, view_leave. reflexivity. Qed.

Lemma pool_part_enter (ctx : DatabaseUpdateContext) (s : FsearchApplication) :
  pool_part (snd (database_pool_func_enter ctx s))
  = (db_pool s, entered (effects s) ++ [ctx], pushed (effects s)).
Proof. rewrite pool_part_view, view_enter_spec. reflexivity. Qed.

Lemma pool_part_finish_running (rs : list RunningCall) (os : list DbCallResults)
    (s : FsearchApplication) :
  pool_part (snd (finish_running rs os s)) = pool_part s.
Proof.
  revert os s. induction rs as [|r rs IH]; intros os s; [reflexivity|].
  cbn [finish_running]. rewrite bind_run, IH. apply pool_part_leave.
Qed.

Lemma pool_part_run_queued (q : list DatabaseUpdateContext) (os : list DbCallResults)
    (s : FsearchApplication) :
  pool_part (snd (run_queued q os s))
  = (db_pool s, entered (effects s) ++ q, pushed (effects s)).
Proof.
  revert os s. induction q as [|ctx q IH]; intros os s.
  - cbn. rewrite app_nil_r. reflexivity.
  - cbn [run_queued]. rewrite bind_run, IH. unfold database_pool_func.
    rewrite bind_run.
    pose proof (pool_part_leave (fst (database_pool_func_enter ctx s))
                  (fst (next_result os)) (snd (database_pool_func_enter ctx s))) as Hl.
    rewrite pool_part_enter in Hl. unfold pool_part in Hl.
    inversion Hl as [[Hp He Hu]]. rewrite Hp, He, Hu, <- app_assoc. reflexivity.
Qed.

Lemma pool_part_clear_db (s : FsearchApplication) :
  pool_part (snd (clear_db s)) = pool_part s.
Proof.
  open_state s. destruct s_db; unfold pool_part; run_m;
    rewrite ?entered_app, ?pushed_app, ?app_nil_r; reflexivity.
Qed.

Lemma pool_part_config_save (s : FsearchApplication) :
  pool_part (snd (emit call_config_save s)) = pool_part s.
Proof.
  open_state s. unfold pool_part. run_m.
  rewrite ?entered_app, ?pushed_app, ?app_nil_r. reflexivity.
Qed.

Lemma pool_ok_shutdown (os : list DbCallResults) (s : FsearchApplication) :
  view_pool_ok (view s) -> view_pool_ok (view (step s (ev_shutdown os))).
Proof.
  intros Hok.
  assert (Hpart : pool_part (step s (ev_shutdown os))
                  = match db_pool s with
                    | Some pool => (None, entered (effects s) ++ queue pool, pushed (effects s))
                    | None => pool_part s
                    end).
  { unfold step, exec, handle, fsearch_application_shutdown.
    rewrite bind_run. cbn [gets fst snd]. rewrite bind_run, bind_run.
    rewrite pool_part_config_save, pool_part_clear_db.
    destruct (db_pool s) as [pool|] eqn:Hp.
    - rewrite bind_run, bind_run, bind_run. unfold g_thread_pool_free_wait.
      rewrite bind_run, pool_part_run_queued.
      match goal with |- context [finish_running _ _ ?x] => set (s1 := x) end.
      pose proof (pool_part_finish_running (running pool) os s1) as Hf.
      unfold pool_part in Hf. inversion Hf as [[H1 H2 H3]]. rewrite H1, H2, H3.
      subst s1. open_state s. reflexivity.
    - reflexivity. }
  unfold view_pool_ok in *. rewrite pool_part_view in Hpart.
  change (v_pool (view s)) with (db_pool s) in Hok.
  change (v_entered (view s)) with (entered (effects s)) in Hok.
  change (v_pushed (view s)) with (pushed (effects s)) in Hok.
  destruct (db_pool s) as [pool|] eqn:Hp; inversion Hpart as [[H1 H2 H3]].
  - destruct Hok as [_ Hfifo]. unfold pool_ok, view. cbn [v_pool v_entered v_pushed]. rewrite H1, H2, H3.
    split; [discriminate|]. rewrite app_nil_r. exact Hfifo.
  - unfold pool_ok, view. cbn [v_pool v_entered v_pushed]. rewrite H1, H2, H3, Hp.
    exact Hok.
Qed.

Lemma pool_ok_step (s : FsearchApplication) (e : Event) :
  view_pool_ok (view s) -> view_pool_ok (view (step s e)).
Proof.
  intros Hok. destruct (is_shutdown e) eqn:He.
  - destruct e; try discriminate. apply pool_ok_shutdown. assumption.
  - apply (pool_ok_move (view s)); [assumption | apply step_is_a_move; assumption].
Qed.

Lemma pool_ok_run (evs : list Event) (s : FsearchApplication) :
  view_pool_ok (view s) -> view_pool_ok (view (run evs s)).
Proof.
  revert s. induction evs as [|e evs IH]; intros s Hok; [exact Hok|].
  change (run (e :: evs) s) with (run evs (step s e)). apply IH, pool_ok_step, Hok.
Qed.

(** Every request is pushed to [db_pool], and only there. *)
Lemma enqueue_goes_to_the_pool (a : FsearchDatabaseActionType) (s : FsearchApplication)
    (pool : GThreadPool) :
  db_pool s = Some pool ->
  db_pool (exec (database_scan_or_load_enqueue a) s)
  = Some (mkPool (max_threads pool) (queue pool ++ [new_context a]) (running pool))
  /\ pushed (effects (exec (database_scan_or_load_enqueue a) s))
     = pushed (effects s) ++ [new_context a].
Proof.
  intros Hp. open_state s. subst. unfold exec. run_m. rewrite pushed_app. auto.
Qed.

(** ** Opening the parent folder *)

Module FileUtilsFacts.
Import FileUtils.
Local Open Scope string_scope.

(** C10.  When the file made from the path has no parent, the function
    hands the file's own path to the opener (the command if there is one,
    the default opener otherwise) and returns what the opener returns. *)
Theorem root_is_its_own_parent {GFile : Type} `{GFileIface GFile} `{Openers}
    (path : string) (cmd : option string) (error_message : option string) (own : string) :
  g_file_get_parent (g_file_new_for_path path) = None ->
  g_file_get_path (g_file_new_for_path path) = Some own ->
  fsearch_file_utils_open_parent_folder_with_optional_command path cmd error_message
  = match cmd with
    | Some c => open_with_cmd own path c error_message
    | None => fsearch_file_utils_open_path own false error_message
    end.
Proof.
  intros Hparent Hpath. unfold fsearch_file_utils_open_parent_folder_with_optional_command.
  rewrite Hparent, Hpath. reflexivity.
Qed.

Lemma root_is_its_own_parent_witness :
  @g_file_get_parent _ local_file (g_file_new_for_path "/") = None
  /\ @fsearch_file_utils_open_parent_folder_with_optional_command
       _ local_file reporting_openers "/" None (Some EmptyString)
     = (true, Some "open /").
Proof.
  split; [reflexivity|].
  exact (@root_is_its_own_parent _ local_file reporting_openers "/" None (Some EmptyString) "/"
           eq_refl eq_refl).
Defined.

(** With a parent, it is the parent's path that is opened. *)
Lemma parent_is_opened {GFile : Type} `{GFileIface GFile} `{Openers}
    (path : string) (cmd : option string) (error_message : option string)
    (parent : GFile) (parent_path : string) :
  g_file_get_parent (g_file_new_for_path path) = Some parent ->
  g_file_get_path parent = Some parent_path ->
  fsearch_file_utils_open_parent_folder_with_optional_command path cmd error_message
  = match cmd with
    | Some c => open_with_cmd parent_path path c error_message
    | None => fsearch_file_utils_open_path parent_path false error_message
    end.
Proof.
  intros Hparent Hpath. unfold fsearch_file_utils_open_parent_folder_with_optional_command.
  rewrite Hparent, Hpath. reflexivity.
Qed.

(** The error branch is taken only when the folder to open has no local
    path. *)
Lemma fails_without_local_path {GFile : Type} `{GFileIface GFile} `{Openers}
    (path : string) (cmd : option string) (error_message : option string) :
  g_file_get_path (match g_file_get_parent (g_file_new_for_path path) with
                   | Some p => p
                   | None => g_file_new_for_path path
                   end) = None ->
  fsearch_file_utils_open_parent_folder_with_optional_command path cmd error_message
  = (false,
     add_error_message_with_format error_message (Some msg_error_opening_parent)
       (Some path) (Some msg_failed_parent_path)).
Proof.
  intros Hpath. unfold fsearch_file_utils_open_parent_folder_with_optional_command.
  rewrite Hpath. reflexivity.
Qed.

(** For local files the root is the only file without a parent, and the
    folder opened for it is [/]. *)
Lemma local_root_opens_itself `{Openers} (path : string) (error_message : option string) :
  components EmptyString path = [] ->
  @fsearch_file_utils_open_parent_folder_with_optional_command
    _ local_file _ path None error_message
  = fsearch_file_utils_open_path "/" false error_message.
Proof.
  intros Hroot. unfold fsearch_file_utils_open_parent_folder_with_optional_command.
  cbn. rewrite Hroot. reflexivity.
Qed.

Example open_parent_of_nested_path :
  @fsearch_file_utils_open_parent_folder_with_optional_command
    _ local_file reporting_openers "/home/user/notes.txt" None (Some EmptyString)
  = (true, Some "open /home/user").
Proof. reflexivity. Qed.

Example open_parent_of_top_level_folder :
  @fsearch_file_utils_open_parent_folder_with_optional_command
    _ local_file reporting_openers "/home" (Some "xdg-open {path}") (Some EmptyString)
  = (true, Some "cmd xdg-open {path} on / for /home").
Proof. reflexivity. Qed.

End FileUtilsFacts.

(** * The bookkeeping of databases, tasks and timers *)

(** ** How each function changes the ledger *)

Lemma pending_of_app (l1 l2 : list IdleSource) :
  pending_of (l1 ++ l2) = pending_of l1 ++ pending_of l2.
Proof. apply flat_map_app. Qed.

Lemma pending_of_status (l : list string) :
  pending_of (map idle_on_database_notify_status l) = [].
Proof. induction l; [reflexivity | assumption]. Qed.

Lemma unreffed_repeat (e : Effect) (n : nat) :
  unreffed [e] = [] -> unreffed (repeat e n) = [].
Proof.
  intros He. induction n as [|n IH]; [reflexivity|].
  change (repeat e (S n)) with ([e] ++ repeat e n). rewrite unreffed_app, He, IH. reflexivity.
Qed.

Ltac run_ledger_lazy :=
  lazy -[entered pushed saved unreffed pending_of opt_list flat_map filter app map
         List.length repeat existsb
         Z.add Z.sub Z.mul Z.modulo Z.eqb Z.ltb Z.leb Z.max Z.of_nat
         Nat.ltb Nat.leb Nat.eqb Nat.add gint_wrap guint_wrap String.append
         G_MAXINT G_MAXUINT].

(** Runs the code of a goal and normalises the logs and the idle list inside
    a ledger. *)
Ltac ledger_norm :=
  run_ledger_lazy; repeat (progress cbn [Z.eqb Nat.eqb]; run_ledger_lazy);
  rewrite ?unreffed_app, ?pending_of_app, ?pending_of_status;
  rewrite ?unreffed_repeat by reflexivity;
  cbn [unreffed pending_of flat_map opt_list app];
  rewrite ?app_nil_r.

Lemma ledger_leave_spec (r : RunningCall) (o : DbCallResults) (s : FsearchApplication) :
  ledger (snd (database_pool_func_leave r o s)) = ledger_leave r o (ledger s).
Proof.
  open_state s. destruct r as [[a uf scb fcb] d cb].
  destruct s_config as [status launch every hours minutes].
  destruct o as [ok entries texts save].
  unfold database_pool_func_leave, database_scan_and_save, database_load, db_scan, db_load,
    database_update_finished_cb, has_finished_cb.
  destruct uf, cb, ok, s_cancelled, status, launch, fcb as [[]|]; ledger_norm; reflexivity.
Qed.

Lemma ledger_enter_spec (ctx : DatabaseUpdateContext) (s : FsearchApplication) :
  ledger (snd (database_pool_func_enter ctx s)) = ledger_enter ctx (ledger s)
  /\ fst (database_pool_func_enter ctx s)
     = mkRunning ctx (mkDatabase (next_db_id s) 0) (show_indexing_status (config s)).
Proof.
  open_state s. destruct ctx as [a uf scb fcb].
  unfold database_pool_func_enter, database_scan_started_cb, database_load_started_cb, db_new.
  destruct scb as [[]|]; split; ledger_norm; reflexivity.
Qed.

Lemma ledger_clear_db_spec (s : FsearchApplication) :
  ledger (snd (clear_db s)) = ledger_clear_db (ledger s).
Proof. open_state s. destruct s_db; ledger_norm; reflexivity. Qed.

Lemma ledger_config_save (s : FsearchApplication) :
  ledger (snd (emit call_config_save s)) = ledger s.
Proof. open_state s. ledger_norm. reflexivity. Qed.

Lemma ledger_activate (s : FsearchApplication) :
  ledger (step s ev_activate)
  = if negb (new_window s) && negb (Nat.eqb (windows s) 0) then ledger s
    else let l := ledger_enqueue FSEARCH_DATABASE_ACTION_LOAD
                    (ledger_reconfigure (config s) (ledger s)) in
         if update_database_on_launch (config s)
         then ledger_enqueue FSEARCH_DATABASE_ACTION_SCAN l else l.
Proof.
  open_state s. destruct s_config as [status launch every hours minutes].
  destruct s_new_window, s_windows as [|w], s_timeout_id, every, launch, s_pool as [pool|];
    ledger_norm; reflexivity.
Qed.

Lemma ledger_action (name : ActionName) (s : FsearchApplication) :
  ledger (step s (ev_action name))
  = match name with
    | act_update_database =>
        if update_database_enabled s
        then ledger_enqueue FSEARCH_DATABASE_ACTION_SCAN (ledger s) else ledger s
    | act_cancel_update_database => ledger s
    end.
Proof.
  open_state s. destruct name, s_update, s_cancel, s_pool as [pool|]; ledger_norm; reflexivity.
Qed.

Lemma ledger_timeout (id : Z) (s : FsearchApplication) :
  ledger (step s (ev_timeout id))
  = if existsb (fun t => fst t =? id) (timeouts s) && update_database_enabled s
    then ledger_enqueue FSEARCH_DATABASE_ACTION_SCAN (ledger s) else ledger s.
Proof.
  open_state s. unfold step, exec, handle, timeout_fires. expose. unfold when.
  destruct (existsb _ s_timeouts); [|reflexivity].
  destruct s_update, s_pool as [pool|]; ledger_norm; reflexivity.
Qed.

Lemma ledger_preferences (new_config : option FsearchConfig) (changed : bool)
    (s : FsearchApplication) :
  ledger (step s (ev_preferences new_config changed))
  = match new_config with
    | Some cfg =>
        let l := ledger_reconfigure cfg (ledger s) in
        if changed then ledger_enqueue FSEARCH_DATABASE_ACTION_SCAN l else l
    | None => ledger s
    end.
Proof.
  open_state s. destruct new_config as [[status launch every hours minutes]|]; [|reflexivity].
  destruct s_timeout_id, every, changed, s_pool as [pool|]; ledger_norm; reflexivity.
Qed.

Lemma ledger_pool_take (s : FsearchApplication) :
  ledger (step s ev_pool_take)
  = match db_pool s with
    | Some (mkPool n (ctx :: q) r) =>
        if (List.length r <? n)%nat
        then ledger_set_pool
               (Some (mkPool n q (r ++ [mkRunning ctx (mkDatabase (next_db_id s) 0)
                                          (show_indexing_status (config s))])))
               (ledger_enter ctx (ledger s))
        else ledger s
    | _ => ledger s
    end.
Proof.
  open_state s. destruct s_pool as [[n [|ctx q] r]|]; try reflexivity.
  unfold step, exec, handle, pool_take. expose.
  destruct (List.length r <? n)%nat; [|reflexivity].
  destruct ctx as [a uf [[]|] fcb]; ledger_norm; reflexivity.
Qed.

Lemma ledger_pool_return (o : DbCallResults) (s : FsearchApplication) :
  ledger (step s (ev_pool_return o))
  = match db_pool s with
    | Some (mkPool n q (r0 :: rs)) =>
        ledger_set_pool (Some (mkPool n q rs)) (ledger_leave r0 o (ledger s))
    | _ => ledger s
    end.
Proof.
  open_state s. destruct s_pool as [[n q [|r0 rs]]|]; try reflexivity.
  destruct r0 as [[a uf scb fcb] d cb].
  destruct s_config as [status launch every hours minutes].
  destruct o as [ok entries texts save].
  destruct uf, cb, ok, s_cancelled, status, launch, fcb as [[]|]; ledger_norm; reflexivity.
Qed.

Lemma ledger_command_line (options : CommandLineOptions) (parent_result : Z)
    (s : FsearchApplication) :
  ledger (step s (ev_command_line options parent_result))
  = if opt_preferences options then ledger s
    else if opt_update_database options then
      if update_database_enabled s
      then ledger_enqueue FSEARCH_DATABASE_ACTION_SCAN (ledger s) else ledger s
    else if negb (new_window s || opt_new_window options) && negb (Nat.eqb (windows s) 0)
    then ledger s
    else let l := ledger_enqueue FSEARCH_DATABASE_ACTION_LOAD
                    (ledger_reconfigure (config s) (ledger s)) in
         if update_database_on_launch (config s)
         then ledger_enqueue FSEARCH_DATABASE_ACTION_SCAN l else l.
Proof.
  open_state s. destruct s_config as [status launch every hours minutes].
  destruct options as [nw pr se up ve].
  destruct nw, pr, up, s_new_window, s_windows as [|w], s_update, s_timeout_id, every, launch,
    s_pool as [pool|]; ledger_norm; reflexivity.
Qed.

(** The main loop on each kind of idle source. *)
Lemma ledger_idle (s : FsearchApplication) :
  ledger (step s ev_idle)
  = match idle s with
    | idle_on_database_update_finished user_data :: rest =>
        if is_shutting_down s
        then ledger_drop user_data (pending_of rest) (ledger s)
        else ledger_finish user_data (pending_of rest)
               (negb (db_thread_cancellable s))
               (gint_wrap (num_database_update_active s - 1) =? 0) (ledger s)
    | idle_on_database_scan_enqueue :: _ =>
        ledger_enqueue FSEARCH_DATABASE_ACTION_SCAN (ledger s)
    | _ => ledger s
    end.
Proof.
  destruct (idle s) as [|src rest] eqn:Hi.
  - open_state s. subst. reflexivity.
  - destruct src as [text|user_data| | |].
    + open_state s. subst. ledger_norm. reflexivity.
    + rewrite (step_idle_finished s user_data rest Hi). open_state s. subst.
      destruct s_down.
      * destruct user_data; ledger_norm; reflexivity.
      * destruct s_cancelled, s_db, user_data; ledger_norm; reflexivity.
    + open_state s. subst. ledger_norm. reflexivity.
    + open_state s. subst. ledger_norm. reflexivity.
    + open_state s. subst. destruct s_pool as [pool|]; ledger_norm; reflexivity.
Qed.

(** ** Every event is a sequence of moves of the ledger *)

Lemma lm_one (l l' : Ledger) : ledger_move l l' -> ledger_moves l l'.
Proof. intros Hm. apply (lm_step l l' l'); [assumption | apply lm_refl]. Qed.

Lemma lm_two (l1 l2 l3 : Ledger) :
  ledger_move l1 l2 -> ledger_move l2 l3 -> ledger_moves l1 l3.
Proof. intros H1 H2. apply (lm_step l1 l2 l3); [assumption | apply lm_one; assumption]. Qed.

Lemma step_is_ledger_moves (s : FsearchApplication) (e : Event) :
  is_shutdown e = false -> ledger_moves (ledger s) (ledger (step s e)).
Proof.
  intros He. destruct e as [|name|id|new_config changed| | |o|os|options r]; try discriminate.
  - rewrite ledger_activate. destruct (negb (new_window s) && _); [apply lm_refl|].
    cbv zeta. destruct (update_database_on_launch (config s)).
    + exact (lm_step _ _ _ (lm_reconfigure _ _)
               (lm_two _ _ _ (lm_enqueue _ _) (lm_enqueue _ _))).
    + exact (lm_two _ _ _ (lm_reconfigure _ _) (lm_enqueue _ _)).
  - rewrite ledger_action. destruct name; [|apply lm_refl].
    destruct (update_database_enabled s); [apply lm_one, lm_enqueue | apply lm_refl].
  - rewrite ledger_timeout. destruct (existsb _ _ && _); [apply lm_one, lm_enqueue | apply lm_refl].
  - rewrite ledger_preferences. destruct new_config as [cfg|]; [|apply lm_refl].
    cbv zeta. destruct changed.
    + exact (lm_two _ _ _ (lm_reconfigure _ _) (lm_enqueue _ _)).
    + apply lm_one, lm_reconfigure.
  - rewrite ledger_idle. destruct (idle s) as [|[text|user_data| | |] rest] eqn:Hi;
      try apply lm_refl.
    + destruct (is_shutting_down s) eqn:Hd.
      * apply lm_one, lm_drop; [exact Hd|]. unfold ledger. cbn [l_pending]. rewrite Hi.
        reflexivity.
      * apply lm_one, lm_finish; [exact Hd|]. unfold ledger. cbn [l_pending]. rewrite Hi.
        reflexivity.
    + apply lm_one, lm_enqueue.
  - rewrite ledger_pool_take. destruct (db_pool s) as [[n [|ctx q] r]|] eqn:Hp;
      try apply lm_refl.
    destruct (Nat.ltb_spec (List.length r) n); [|apply lm_refl].
    apply lm_one.
    apply (lm_take n ctx q r (show_indexing_status (config s)) (ledger s));
      [exact Hp | assumption].
  - rewrite ledger_pool_return. destruct (db_pool s) as [[n q [|r0 rs]]|] eqn:Hp;
      try apply lm_refl.
    apply lm_one. apply (lm_return n q r0 rs o (ledger s)). exact Hp.
  - rewrite ledger_command_line. destruct (opt_preferences options); [apply lm_refl|].
    destruct (opt_update_database options).
    + destruct (update_database_enabled s); [apply lm_one, lm_enqueue | apply lm_refl].
    + destruct (negb (new_window s || _) && _); [apply lm_refl|].
      cbv zeta. destruct (update_database_on_launch (config s)).
      * exact (lm_step _ _ _ (lm_reconfigure _ _)
                 (lm_two _ _ _ (lm_enqueue _ _) (lm_enqueue _ _))).
      * exact (lm_two _ _ _ (lm_reconfigure _ _) (lm_enqueue _ _)).
Qed.

(** ** The bookkeeping stays sound *)

Ltac ledger_simpl :=
  unfold ledger_ok, ledger_inv, ledger_running, held_with, timer_ok, ledger_reconfigure,
    ledger_enqueue, ledger_finish, ledger_drop, ledger_set_pool, ledger_enter, ledger_leave,
    ledger_clear_db, ledger_detach in *;
  cbn [l_db l_pool l_pending l_unreffed l_next_db l_state l_mutex l_down l_update l_cancel
       l_config l_timeout_id l_timeouts l_next_source max_threads queue running] in *.

(** Counts the holders of a database in a goal or hypothesis written with
    [held_with]. *)
Ltac count_simpl :=
  repeat rewrite ?map_app, ?flat_map_app, ?count_occ_app in *;
  cbn [map flat_map opt_list app count_occ db_id run_db db_after_call] in *.

Lemma is_request_new_context (a : FsearchDatabaseActionType) : is_request (new_context a).
Proof. destruct a; [left | right]; reflexivity. Qed.

Lemma request_has_finished_cb (ctx : DatabaseUpdateContext) :
  is_request ctx -> has_finished_cb ctx = true.
Proof. intros [->| ->]; reflexivity. Qed.

Lemma at_most_one {A : Type} (a : A) (l : list A) : (List.length (a :: l) <= 1)%nat -> l = [].
Proof. destruct l; cbn; [reflexivity | lia]. Qed.

Lemma inv_set_pool (p : option GThreadPool) (rs : list RunningCall) (l : Ledger) :
  ledger_inv rs l -> ledger_inv rs (ledger_set_pool p l).
Proof. destruct l. exact (fun H => H). Qed.

Lemma inv_detach (rs : list RunningCall) (l : Ledger) :
  ledger_inv rs l -> ledger_inv rs (ledger_detach l).
Proof. destruct l. exact (fun H => H). Qed.

Lemma inv_reconfigure (cfg : FsearchConfig) (rs : list RunningCall) (l : Ledger) :
  ledger_inv rs l -> ledger_inv rs (ledger_reconfigure cfg l).
Proof.
  destruct l as [d p pe un nx st mx dn up ca cf ti ts ns]. ledger_simpl.
  intros (Hmx & Hlen & Hreq & Hst & Hcnt & Hcan & Hns & Hlt & Htm).
  repeat split; try assumption.
  - destruct (update_database_every cfg); lia.
  - destruct (update_database_every cfg); lia.
  - assert (Hts : (if ti =? 0 then ts
                   else filter (fun t : Z * Z => negb (fst t =? ti)) ts) = []).
    { destruct Htm as [[Hti Hts]|(Hti & _ & Hts)]; subst ts.
      - destruct (ti =? 0); reflexivity.
      - destruct (Z.eqb_spec ti 0); [lia|]. cbn. rewrite Z.eqb_refl. reflexivity. }
    rewrite Hts. destruct (update_database_every cfg) eqn:Hev.
    + right. split; [lia | split; reflexivity].
    + left. split; reflexivity.
Qed.

Lemma inv_enqueue (a : FsearchDatabaseActionType) (rs : list RunningCall) (l : Ledger) :
  ledger_inv rs l -> ledger_inv rs (ledger_enqueue a l).
Proof.
  destruct l as [d p pe un nx st mx dn up ca cf ti ts ns]. ledger_simpl.
  intros (Hmx & Hlen & Hreq & Hst & Hcnt & Hcan & Htm).
  repeat split; try assumption; apply Htm.
Qed.

Lemma inv_finish (user_data : option FsearchDatabase) (rest : list (option FsearchDatabase))
    (published last : bool) (rs : list RunningCall) (l : Ledger) :
  l_pending l = user_data :: rest ->
  ledger_inv rs l -> ledger_inv rs (ledger_finish user_data rest published last l).
Proof.
  destruct l as [d p pe un nx st mx dn up ca cf ti ts ns]. ledger_simpl.
  intros Hpe (Hmx & Hlen & Hreq & Hst & Hcnt & Hcan & Htm). subst pe.
  repeat split; try assumption; try apply Htm.
  - intros i. rewrite <- (Hcnt i).
    destruct published, d, user_data; count_simpl;
      repeat match goal with |- context [Nat.eq_dec ?x ?y] => destruct (Nat.eq_dec x y) end;
      lia.
  - destruct last; [discriminate | assumption].
Qed.

Lemma inv_drop (user_data : option FsearchDatabase) (rest : list (option FsearchDatabase))
    (rs : list RunningCall) (l : Ledger) :
  l_pending l = user_data :: rest ->
  ledger_inv rs l -> ledger_inv rs (ledger_drop user_data rest l).
Proof.
  destruct l as [d p pe un nx st mx dn up ca cf ti ts ns]. ledger_simpl.
  intros Hpe (Hmx & Hlen & Hreq & Hst & Hcnt & Hcan & Htm). subst pe.
  repeat split; try assumption; try apply Htm.
  intros i. rewrite <- (Hcnt i).
  destruct user_data; count_simpl;
    repeat match goal with |- context [Nat.eq_dec ?x ?y] => destruct (Nat.eq_dec x y) end;
    lia.
Qed.

Lemma inv_clear_db (rs : list RunningCall) (l : Ledger) :
  ledger_inv rs l -> ledger_inv rs (ledger_clear_db l).
Proof.
  destruct l as [d p pe un nx st mx dn up ca cf ti ts ns]. ledger_simpl.
  intros (Hmx & Hlen & Hreq & Hst & Hcnt & Hcan & Htm).
  repeat split; try assumption; try apply Htm.
  intros i. rewrite <- (Hcnt i).
  destruct d; count_simpl;
    repeat match goal with |- context [Nat.eq_dec ?x ?y] => destruct (Nat.eq_dec x y) end;
    lia.
Qed.

(** A task starts while none is being run. *)
Lemma inv_enter (ctx : DatabaseUpdateContext) (cb : bool) (l : Ledger) :
  is_request ctx ->
  ledger_inv [] l ->
  ledger_inv [mkRunning ctx (mkDatabase (l_next_db l) 0) cb] (ledger_enter ctx l).
Proof.
  destruct l as [d p pe un nx st mx dn up ca cf ti ts ns]. ledger_simpl.
  intros Hctx (Hmx & Hlen & Hreq & Hst & Hcnt & Hcan & Htm).
  repeat split; try assumption; try apply Htm.
  - cbn. lia.
  - constructor; [exact Hctx | constructor].
  - destruct Hctx as [->| ->]; reflexivity.
  - intros i. specialize (Hcnt i). revert Hcnt. count_simpl.
    destruct (Nat.eq_dec nx i), (Nat.ltb_spec i nx), (Nat.ltb_spec i (S nx)); lia.
Qed.

(** The task being run ends. *)
Lemma inv_leave (r : RunningCall) (rs : list RunningCall) (o : DbCallResults) (l : Ledger) :
  ledger_inv (r :: rs) l -> ledger_inv rs (ledger_leave r o l).
Proof.
  destruct l as [d p pe un nx st mx dn up ca cf ti ts ns]. ledger_simpl.
  intros (Hmx & Hlen & Hreq & Hst & Hcnt & Hcan & Htm).
  pose proof (at_most_one _ _ Hlen) as Hrs. subst rs.
  inversion Hreq as [|r' rs' Hr _]. subst.
  rewrite (request_has_finished_cb _ Hr).
  repeat split; try assumption; try apply Htm.
  - cbn. lia.
  - constructor.
  - intros i. rewrite <- (Hcnt i). count_simpl.
    repeat match goal with |- context [Nat.eq_dec ?x ?y] => destruct (Nat.eq_dec x y) end;
      lia.
Qed.

Lemma ledger_ok_move (l l' : Ledger) : ledger_ok l -> ledger_move l l' -> ledger_ok l'.
Proof.
  intros [Hpool Hinv] Hm.
  destruct Hm as [cfg l|a l|user_data rest published last l Hd Hpe|user_data rest l Hd Hpe
                 |n ctx q r cb l Hp Hlt|n q r0 rs o l Hp].
  - split; [|apply inv_reconfigure]; destruct l; assumption.
  - split.
    + destruct l as [d [[n q r]|] pe un nx st mx dn up ca cf ti ts ns]; ledger_simpl;
        intros pool Hq; [|discriminate].
      injection Hq as <-. cbn. destruct (Hpool _ eq_refl) as [Hn Hq]. split; [exact Hn|].
      apply Forall_app. split; [exact Hq|].
      constructor; [apply is_request_new_context | constructor].
    + replace (ledger_running (ledger_enqueue a l)) with (ledger_running l)
        by (destruct l as [d [[n q r]|] pe un nx st mx dn up ca cf ti ts ns]; reflexivity).
      apply inv_enqueue. assumption.
  - split; [destruct l; assumption|].
    replace (ledger_running (ledger_finish user_data rest published last l))
      with (ledger_running l) by (destruct l; reflexivity).
    apply inv_finish; assumption.
  - split; [destruct l; assumption|].
    replace (ledger_running (ledger_drop user_data rest l))
      with (ledger_running l) by (destruct l; reflexivity).
    apply inv_drop; assumption.
  - destruct (Hpool _ Hp) as [Hn Hq]. cbn in Hn, Hq. subst n.
    assert (Hr : r = []) by (destruct r; [reflexivity | cbn in Hlt; lia]). subst r.
    inversion Hq as [|ctx' q' Hctx Hq']. subst.
    split.
    + destruct l. cbn. intros pool Hpl. injection Hpl as <-. cbn. split; [reflexivity|assumption].
    + replace (ledger_running (ledger_set_pool _ (ledger_enter ctx l)))
        with [mkRunning ctx (mkDatabase (l_next_db l) 0) cb] by (destruct l; reflexivity).
      apply inv_set_pool, inv_enter; [assumption|].
      unfold ledger_running in Hinv. rewrite Hp in Hinv. exact Hinv.
  - destruct (Hpool _ Hp) as [Hn Hq]. cbn in Hn, Hq.
    split.
    + destruct l. cbn. intros pool Hpl. injection Hpl as <-. cbn. split; assumption.
    + replace (ledger_running (ledger_set_pool (Some (mkPool n q rs)) (ledger_leave r0 o l)))
        with rs by (destruct l; reflexivity).
      apply inv_set_pool, inv_leave.
      unfold ledger_running in Hinv. rewrite Hp in Hinv. exact Hinv.
Qed.

Lemma ledger_ok_moves (l l' : Ledger) : ledger_ok l -> ledger_moves l l' -> ledger_ok l'.
Proof.
  intros Hok Hm. induction Hm as [l|l1 l2 l3 H12 _ IH]; [exact Hok|].
  apply IH, (ledger_ok_move l1); assumption.
Qed.

(** ** The shutdown *)

Lemma drain_finish_running (rs : list RunningCall) (os : list DbCallResults)
    (s : FsearchApplication) :
  db_pool s = None ->
  ledger_inv rs (ledger s) ->
  db_pool (snd (finish_running rs os s)) = None
  /\ ledger_inv [] (ledger (snd (finish_running rs os s))).
Proof.
  revert os s. induction rs as [|r rs IH]; intros os s Hp Hinv; [split; assumption|].
  cbn [finish_running]. rewrite bind_run.
  pose proof (ledger_leave_spec r (fst (next_result os)) s) as Hl.
  apply IH.
  - change (l_pool (ledger (snd (database_pool_func_leave r (fst (next_result os)) s))) = None).
    rewrite Hl. exact Hp.
  - rewrite Hl. apply inv_leave. exact Hinv.
Qed.

Lemma drain_run_queued (q : list DatabaseUpdateContext) (os : list DbCallResults)
    (s : FsearchApplication) :
  db_pool s = None ->
  Forall is_request q ->
  ledger_inv [] (ledger s) ->
  db_pool (snd (run_queued q os s)) = None
  /\ ledger_inv [] (ledger (snd (run_queued q os s))).
Proof.
  revert os s. induction q as [|ctx q IH]; intros os s Hp Hq Hinv; [split; assumption|].
  inversion Hq as [|ctx' q' Hctx Hq']. subst.
  cbn [run_queued]. rewrite bind_run. unfold database_pool_func. rewrite bind_run.
  destruct (ledger_enter_spec ctx s) as [He Hr].
  pose proof (ledger_leave_spec (fst (database_pool_func_enter ctx s)) (fst (next_result os))
                (snd (database_pool_func_enter ctx s))) as Hl.
  rewrite He, Hr in Hl.
  apply IH; [|assumption|].
  - match goal with
    | |- db_pool ?x = None => change (l_pool (ledger x) = None)
    end.
    rewrite Hr, Hl. exact Hp.
  - rewrite Hr, Hl. apply inv_leave.
    apply (inv_enter ctx (show_indexing_status (config s)) (ledger s)); assumption.
Qed.

Lemma ledger_ok_shutdown (os : list DbCallResults) (s : FsearchApplication) :
  ledger_ok (ledger s) -> ledger_ok (ledger (step s (ev_shutdown os))).
Proof.
  intros [Hpool Hinv].
  unfold step, exec, handle, fsearch_application_shutdown.
  rewrite bind_run. cbn [gets fst snd]. rewrite bind_run, bind_run.
  rewrite ledger_config_save, ledger_clear_db_spec.
  unfold ledger_running in Hinv. change (l_pool (ledger s)) with (db_pool s) in Hpool, Hinv.
  destruct (db_pool s) as [pool|] eqn:Hp.
  - destruct (Hpool _ eq_refl) as [_ Hq].
    rewrite bind_run, bind_run, bind_run. unfold g_thread_pool_free_wait.
    rewrite bind_run.
    match goal with |- context [finish_running _ _ ?x] => set (s1 := x) end.
    assert (Hp1 : db_pool s1 = None) by (subst s1; open_state s; reflexivity).
    assert (Hl1 : ledger s1 = ledger_detach (ledger s)) by (subst s1; open_state s; reflexivity).
    assert (Hinv1 : ledger_inv (running pool) (ledger s1)).
    { rewrite Hl1. apply inv_detach. exact Hinv. }
    destruct (drain_finish_running (running pool) os s1 Hp1 Hinv1) as [Hp2 Hinv2].
    destruct (drain_run_queued (queue pool) (fst (finish_running (running pool) os s1))
                (snd (finish_running (running pool) os s1)) Hp2 Hq Hinv2) as [Hp3 Hinv3].
    match goal with
    | |- ledger_ok (ledger_clear_db (ledger ?x)) =>
        change (l_pool (ledger x) = None) in Hp3; destruct (ledger x) as [? p3 ? ? ? ? ? ? ? ? ? ? ? ?]
    end.
    cbn in Hp3. subst p3. split; [discriminate|]. apply inv_clear_db in Hinv3. exact Hinv3.
  - cbn [ret snd]. split.
    + intros pool Hpl. exfalso. revert Hpl. open_state s. subst. discriminate.
    + replace (ledger_running (ledger_clear_db (ledger s))) with (@nil RunningCall)
        by (open_state s; subst; reflexivity).
      apply inv_clear_db. exact Hinv.
Qed.

Lemma ledger_ok_step (s : FsearchApplication) (e : Event) :
  ledger_ok (ledger s) -> ledger_ok (ledger (step s e)).
Proof.
  intros Hok. destruct (is_shutdown e) eqn:He.
  - destruct e; try discriminate. apply ledger_ok_shutdown. assumption.
  - apply (ledger_ok_moves (ledger s)); [assumption | apply step_is_ledger_moves; assumption].
Qed.

Lemma ledger_ok_run (evs : list Event) (s : FsearchApplication) :
  ledger_ok (ledger s) -> ledger_ok (ledger (run evs s)).
Proof.
  revert s. induction evs as [|e evs IH]; intros s Hok; [exact Hok|].
  change (run (e :: evs) s) with (run evs (step s e)). apply IH, ledger_ok_step, Hok.
Qed.

Lemma ledger_ok_started (dir : string) (loaded : FsearchConfig) :
  ledger_ok (ledger (started dir loaded)).
Proof.
  split.
  - intros pool Hp. injection Hp as <-. split; [reflexivity | constructor].
  - split; [reflexivity|]. split; [cbn; lia|]. split; [constructor|].
    split; [reflexivity|]. split; [intros i; reflexivity|]. split; [discriminate|].
    split; [reflexivity|]. split; [reflexivity|]. left. split; reflexivity.
Qed.

(** ** What holds after every run *)

(** X1.  Whatever happens after [fsearch_application_startup] (requests,
    cancellations, timeouts, preference changes, tasks starting and ending,
    dispatching of idle sources, shutdown), no event leaves the state mutex
    held. *)
Theorem state_mutex_is_free_between_events
    (dir : string) (loaded : FsearchConfig) (evs : list Event) :
  live evs = true ->
  mutex (run evs (started dir loaded)) = false.
Proof.
  intros _. destruct (ledger_ok_run evs _ (ledger_ok_started dir loaded)) as [_ (Hmx & _)].
  exact Hmx.
Qed.

Lemma state_mutex_is_free_between_events_witness :
  mutex (run [ev_activate; ev_pool_take; ev_action act_cancel_update_database;
              ev_pool_return (mkResults true 7 [] true); ev_shutdown []; ev_idle; ev_idle]
           (started example_home example_config)) = false.
Proof.
  apply (state_mutex_is_free_between_events example_home example_config
           [ev_activate; ev_pool_take; ev_action act_cancel_update_database;
            ev_pool_return (mkResults true 7 [] true); ev_shutdown []; ev_idle; ev_idle]).
  reflexivity.
Defined.

(** X2.  After every run the pool runs at most one task, and [db_state] tells
    what it runs: idle when no task is being run, scanning or loading
    according to the action of the task being run. *)
Theorem db_state_tells_the_running_task
    (dir : string) (loaded : FsearchConfig) (evs : list Event) :
  live evs = true ->
  let s := run evs (started dir loaded) in
  (List.length (pool_running s) <= 1)%nat
  /\ eval fsearch_application_get_db_state s = state_while (pool_running s).
Proof.
  intros _. destruct (ledger_ok_run evs _ (ledger_ok_started dir loaded))
    as [_ (_ & Hlen & _ & Hst & _)].
  split; [exact Hlen | exact Hst].
Qed.

Lemma db_state_tells_the_running_task_witness :
  let s := run [ev_activate; ev_pool_take; ev_pool_return (mkResults true 7 [] true);
                ev_idle; ev_idle; ev_action act_update_database; ev_pool_take]
             (started example_home example_config) in
  eval fsearch_application_get_db_state s = FSEARCH_DATABASE_STATE_SCANNING
  /\ (List.length (pool_running s) <= 1)%nat
  /\ eval fsearch_application_get_db_state s = state_while (pool_running s).
Proof.
  split; [vm_compute; reflexivity|].
  apply (db_state_tells_the_running_task example_home example_config
           [ev_activate; ev_pool_take; ev_pool_return (mkResults true 7 [] true);
            ev_idle; ev_idle; ev_action act_update_database; ev_pool_take]).
  reflexivity.
Defined.

Lemma count_occ_below (n i : nat) :
  count_occ Nat.eq_dec (seq 0 n) i = if (i <? n)%nat then 1%nat else O.
Proof.
  induction n as [|n IH]; [reflexivity|].
  rewrite seq_S, count_occ_app, IH. cbn [count_occ Nat.add].
  destruct (Nat.eq_dec n i), (Nat.ltb_spec i n), (Nat.ltb_spec i (S n)); lia.
Qed.

(** X3.  After every run each database object made by [db_new] so far has
    exactly one holder: it is the published database, or the database of the
    task being run, or carried by a completion waiting in the main loop, or
    it was given to [db_unref]; no object is held twice (so none is released
    twice, and the published one is never a released one) and none is
    lost. *)
Theorem every_database_has_one_holder
    (dir : string) (loaded : FsearchConfig) (evs : list Event) :
  live evs = true ->
  let s := run evs (started dir loaded) in
  NoDup (database_holders s)
  /\ (forall i : nat, In i (database_holders s) <-> (i < next_db_id s)%nat).
Proof.
  intros _. destruct (ledger_ok_run evs _ (ledger_ok_started dir loaded))
    as [_ (_ & _ & _ & _ & Hcnt & _)].
  cbv zeta. fold (pool_running (run evs (started dir loaded))) in Hcnt.
  fold (database_holders (run evs (started dir loaded))) in Hcnt.
  change (l_next_db (ledger (run evs (started dir loaded))))
    with (next_db_id (run evs (started dir loaded))) in Hcnt.
  split.
  - apply (NoDup_count_occ Nat.eq_dec). intros i. rewrite Hcnt.
    destruct (i <? _)%nat; lia.
  - intros i. rewrite (count_occ_In Nat.eq_dec), Hcnt.
    destruct (Nat.ltb_spec i (next_db_id (run evs (started dir loaded)))); lia.
Qed.

Lemma every_database_has_one_holder_witness :
  let s := run [ev_activate; ev_pool_take; ev_pool_return (mkResults true 7 [] true);
                ev_idle; ev_idle; ev_action act_update_database; ev_pool_take;
                ev_pool_return (mkResults true 9 [] true); ev_idle]
             (started example_home example_config) in
  database_holders s = [0; 1]%nat
  /\ NoDup (database_holders s)
  /\ (forall i : nat, In i (database_holders s) <-> (i < next_db_id s)%nat).
Proof.
  split; [vm_compute; reflexivity|].
  apply (every_database_has_one_holder example_home example_config
           [ev_activate; ev_pool_take; ev_pool_return (mkResults true 7 [] true);
            ev_idle; ev_idle; ev_action act_update_database; ev_pool_take;
            ev_pool_return (mkResults true 9 [] true); ev_idle]).
  reflexivity.
Defined.

Lemma seconds_of_interval (cfg : FsearchConfig) :
  seconds_of cfg = Z.max 60 (guint_wrap (interval_of cfg)).
Proof.
  unfold seconds_of, interval_of. cbv zeta. rewrite guint_wrap_sum.
  destruct (Z.ltb_spec (guint_wrap (update_database_every_hours cfg * 3600
                                    + update_database_every_minutes cfg * 60)) 60); lia.
Qed.

(** X4.  After every run at most one timeout source is attached, however
    often the application was activated or the preferences were changed: if
    there is one, periodic updates are enabled in the current configuration,
    it is the source [db_timeout_id] names, and its interval is the one of
    the current configuration (at least 60 seconds). *)
Theorem one_timer_for_the_current_configuration
    (dir : string) (loaded : FsearchConfig) (evs : list Event) :
  live evs = true ->
  let s := run evs (started dir loaded) in
  (timeouts s = [] /\ db_timeout_id s = 0)
  \/ (update_database_every (config s) = true
      /\ timeouts s = [(db_timeout_id s, Z.max 60 (guint_wrap (interval_of (config s))))]).
Proof.
  intros _. destruct (ledger_ok_run evs _ (ledger_ok_started dir loaded))
    as [_ (_ & _ & _ & _ & _ & _ & _ & _ & Htm)].
  cbv zeta. destruct Htm as [[Hid Hts]|(_ & Hev & Hts)].
  - left. split; assumption.
  - right. split; [exact Hev|]. rewrite <- seconds_of_interval. exact Hts.
Qed.

Lemma one_timer_for_the_current_configuration_witness :
  let s := run [ev_activate; ev_preferences (Some (mkConfig false false true 2 0)) false;
                ev_action act_update_database;
                ev_preferences (Some (mkConfig false false true 0 1)) true]
             (started example_home example_config) in
  timeouts s = [(3, 60)]
  /\ ((timeouts s = [] /\ db_timeout_id s = 0)
      \/ (update_database_every (config s) = true
          /\ timeouts s
             = [(db_timeout_id s, Z.max 60 (guint_wrap (interval_of (config s))))])).
Proof.
  split; [vm_compute; reflexivity|].
  apply (one_timer_for_the_current_configuration example_home example_config
           [ev_activate; ev_preferences (Some (mkConfig false false true 2 0)) false;
            ev_action act_update_database;
            ev_preferences (Some (mkConfig false false true 0 1)) true]).
  reflexivity.
Defined.

(** X5.  After every run, whenever the update action is disabled the cancel
    action is enabled: a request that blocks further requests can be
    cancelled. *)
Theorem cancel_is_enabled_while_update_is_disabled
    (dir : string) (loaded : FsearchConfig) (evs : list Event) :
  live evs = true ->
  let s := run evs (started dir loaded) in
  update_database_enabled s = false -> cancel_update_database_enabled s = true.
Proof.
  intros _. destruct (ledger_ok_run evs _ (ledger_ok_started dir loaded))
    as [_ (_ & _ & _ & _ & _ & Hcan & _)].
  exact Hcan.
Qed.

Lemma cancel_is_enabled_while_update_is_disabled_witness :
  let s := run [ev_activate; ev_pool_take] (started example_home example_config) in
  update_database_enabled s = false /\ cancel_update_database_enabled s = true.
Proof.
  split; [reflexivity|].
  apply (cancel_is_enabled_while_update_is_disabled example_home example_config
           [ev_activate; ev_pool_take]); reflexivity.
Defined.

Lemma disabled_update_is_dropped (s : FsearchApplication) (id : Z) :
  update_database_enabled s = false ->
  step s (ev_action act_update_database) = s /\ step s (ev_timeout id) = s.
Proof.
  intros Hu. open_state s. subst. split; [reflexivity|].
  unfold step, exec, handle, timeout_fires. expose. unfold when.
  destruct (existsb _ s_timeouts); reflexivity.
Qed.

(** X6.  While a request is in flight (and the application is not shut
    down, the number of requests within an [int]), asking for another update
    changes nothing at all, whether the request comes from the update action
    or from the periodic timer: it is not queued behind the one in flight. *)
Theorem update_request_is_dropped_while_one_is_in_flight
    (dir : string) (loaded : FsearchConfig) (evs : list Event) (id : Z) :
  forallb (fun e => negb (is_shutdown e)) evs = true ->
  counter_fits evs (started dir loaded) = true ->
  let s := run evs (started dir loaded) in
  (0 < in_flight s)%nat ->
  step s (ev_action act_update_database) = s /\ step s (ev_timeout id) = s.
Proof.
  intros Hev Hfit s Hn.
  destruct (counter_ok_run evs (started dir loaded) (counter_ok_started dir loaded) Hev Hfit)
    as (_ & _ & _ & _ & _ & Hu).
  apply disabled_update_is_dropped.
  change (v_update (view (run evs (started dir loaded)))) with (update_database_enabled s)
    in Hu.
  rewrite Hu. apply eqb_0_false. rewrite <- in_flight_view. exact Hn.
Qed.

Lemma update_request_is_dropped_while_one_is_in_flight_witness :
  let s := run [ev_activate; ev_pool_take] (started example_home example_config) in
  step s (ev_action act_update_database) = s /\ step s (ev_timeout 1) = s.
Proof.
  apply (update_request_is_dropped_while_one_is_in_flight example_home example_config
           [ev_activate; ev_pool_take] 1); [reflexivity | reflexivity |].
  vm_compute. lia.
Defined.

Lemma enqueue_keeps_db (a : FsearchDatabaseActionType) (l : Ledger) :
  l_db (ledger_enqueue a l) = l_db l.
Proof. reflexivity. Qed.

(** X7.  The published database changes only when the main loop dispatches
    an idle source or the application shuts down: activating the
    application, the actions, the timer, a change of preferences, and the
    worker thread starting or ending a task all leave [db] as it is. *)
Theorem published_database_changes_only_in_the_main_loop
    (s : FsearchApplication) (e : Event) :
  may_publish e = false -> db (step s e) = db s.
Proof.
  intros He. change (l_db (ledger (step s e)) = l_db (ledger s)).
  destruct e as [|name|id|new_config changed| | |o|os|options r]; try discriminate.
  - rewrite ledger_activate. destruct (negb (new_window s) && _); [reflexivity|].
    cbv zeta. destruct (update_database_on_launch (config s)); reflexivity.
  - rewrite ledger_action. destruct name; [|reflexivity].
    destruct (update_database_enabled s); reflexivity.
  - rewrite ledger_timeout. destruct (existsb _ _ && _); reflexivity.
  - rewrite ledger_preferences. destruct new_config as [cfg|]; [|reflexivity].
    cbv zeta. destruct changed; reflexivity.
  - rewrite ledger_pool_take. destruct (db_pool s) as [[n [|ctx q] r]|]; try reflexivity.
    destruct (List.length r <? n)%nat; reflexivity.
  - rewrite ledger_pool_return. destruct (db_pool s) as [[n q [|r0 rs]]|]; reflexivity.
  - rewrite ledger_command_line. destruct (opt_preferences options); [reflexivity|].
    destruct (opt_update_database options).
    + destruct (update_database_enabled s); reflexivity.
    + destruct (negb (new_window s || _) && _); [reflexivity|].
      cbv zeta. destruct (update_database_on_launch (config s)); reflexivity.
Qed.

Lemma published_database_changes_only_in_the_main_loop_witness :
  let s := run [ev_activate; ev_pool_take; ev_pool_return (mkResults true 7 [] true);
                ev_idle; ev_idle; ev_action act_update_database; ev_pool_take]
             (started example_home example_config) in
  db s = Some (mkDatabase 0 7)
  /\ db (step s (ev_pool_return (mkResults true 9 [] true))) = db s.
Proof.
  split; [reflexivity|].
  apply (published_database_changes_only_in_the_main_loop
           (run [ev_activate; ev_pool_take; ev_pool_return (mkResults true 7 [] true);
                 ev_idle; ev_idle; ev_action act_update_database; ev_pool_take]
              (started example_home example_config))
           (ev_pool_return (mkResults true 9 [] true))).
  reflexivity.
Defined.

(** ** A scan from the return of [db_scan] to its publication *)











(** ** A published database stays until it is replaced *)

Lemma pending_ok_move (l l' : Ledger) : pending_ok l -> ledger_move l l' -> pending_ok l'.
Proof.
  unfold pending_ok. intros Hok Hm.
  destruct Hm as [cfg l|a l|user_data rest published last l Hd Hpe|user_data rest l Hd Hpe
                 |n ctx q r cb l Hp Hlt|n q r0 rs o l Hp]; destruct l; ledger_simpl;
    try assumption.
  - subst. inversion Hok. assumption.
  - subst. inversion Hok. assumption.
  - apply Forall_app. split; [assumption|].
    destruct (has_finished_cb (run_ctx r0)); repeat constructor. discriminate.
Qed.

Lemma db_kept_move (l l' : Ledger) :
  pending_ok l -> ledger_move l l' -> l_db l <> None -> l_db l' <> None.
Proof.
  unfold pending_ok. intros Hok Hm Hdb.
  destruct Hm as [cfg l|a l|user_data rest published last l Hd Hpe|user_data rest l Hd Hpe
                 |n ctx q r cb l Hp Hlt|n q r0 rs o l Hp]; destruct l; ledger_simpl;
    try assumption.
  subst. inversion Hok. destruct published; assumption.
Qed.

Lemma db_kept_moves (l l' : Ledger) :
  pending_ok l -> ledger_moves l l' ->
  pending_ok l' /\ (l_db l <> None -> l_db l' <> None).
Proof.
  intros Hok Hm. induction Hm as [l|l1 l2 l3 H12 _ IH]; [split; [assumption | auto]|].
  destruct (IH (pending_ok_move _ _ Hok H12)) as [Hok3 Hdb3].
  split; [assumption|]. intros Hdb. apply Hdb3, (db_kept_move l1); assumption.
Qed.

Lemma db_kept_run (evs : list Event) (s : FsearchApplication) :
  forallb (fun e => negb (is_shutdown e)) evs = true ->
  pending_ok (ledger s) ->
  pending_ok (ledger (run evs s)) /\ (db s <> None -> db (run evs s) <> None).
Proof.
  revert s. induction evs as [|e evs IH]; intros s Hev Hok; [split; [assumption | auto]|].
  cbn [forallb] in Hev. apply andb_prop in Hev as [He Hev]. apply negb_true_iff in He.
  change (run (e :: evs) s) with (run evs (step s e)).
  destruct (db_kept_moves _ _ Hok (step_is_ledger_moves s e He)) as [Hok1 Hdb1].
  destruct (IH (step s e) Hev Hok1) as [Hok2 Hdb2].
  split; [assumption|]. intros Hdb. apply Hdb2, Hdb1, Hdb.
Qed.

(** X10.  Once a database is published, one stays published for as long as
    the application is not shut down: later requests, cancellations and
    failures replace the published database or leave it, and never take it
    away. *)
Theorem published_database_is_never_withdrawn
    (dir : string) (loaded : FsearchConfig) (evs1 evs2 : list Event) :
  forallb (fun e => negb (is_shutdown e)) (evs1 ++ evs2) = true ->
  has_database (run evs1 (started dir loaded)) = true ->
  has_database (run (evs1 ++ evs2) (started dir loaded)) = true.
Proof.
  intros Hev Hdb. rewrite forallb_app in Hev. apply andb_prop in Hev as [Hev1 Hev2].
  unfold run. rewrite fold_left_app. fold (run evs1 (started dir loaded)).
  fold (run evs2 (run evs1 (started dir loaded))).
  assert (Hok0 : pending_ok (ledger (started dir loaded))) by constructor.
  destruct (db_kept_run evs1 _ Hev1 Hok0) as [Hok1 _].
  destruct (db_kept_run evs2 _ Hev2 Hok1) as [_ Hkept].
  unfold has_database in *.
  destruct (db (run evs1 (started dir loaded))); [|discriminate].
  destruct (db (run evs2 _)); [reflexivity|]. exfalso. apply Hkept; [discriminate|reflexivity].
Qed.

Lemma published_database_is_never_withdrawn_witness :
  let evs1 := [ev_activate; ev_pool_take; ev_pool_return (mkResults true 7 [] true);
               ev_idle; ev_idle] in
  let evs2 := [ev_action act_update_database; ev_pool_take;
               ev_pool_return (mkResults false 0 [] false); ev_idle; ev_idle] in
  has_database (run (evs1 ++ evs2) (started example_home example_config)) = true.
Proof.
  apply (published_database_is_never_withdrawn example_home example_config
           [ev_activate; ev_pool_take; ev_pool_return (mkResults true 7 [] true);
            ev_idle; ev_idle]
           [ev_action act_update_database; ev_pool_take;
            ev_pool_return (mkResults false 0 [] false); ev_idle; ev_idle]);
    reflexivity.
Defined.

(** * The command line and the accelerators *)

(** X11.  A command line that asks for nothing but the application (no new
    window, no preferences, no update), received while a window is open and
    no new window is pending, changes nothing: no window is opened, no
    database request is made, the timer is left alone, and the result is
    the parent class's. *)
Theorem command_line_presents_the_open_window
    (options : CommandLineOptions) (parent_result : Z) (s : FsearchApplication) :
  opt_new_window options = false ->
  opt_preferences options = false ->
  opt_update_database options = false ->
  new_window s = false ->
  (0 < windows s)%nat ->
  fsearch_application_command_line options parent_result s = (parent_result, s).
Proof.
  intros Hn Hp Hu Hw Hc. destruct options as [nw pr se up ve]. cbn in Hn, Hp, Hu. subst.
  open_state s. subst. destruct s_windows as [|w]; [lia|]. reflexivity.
Qed.

Lemma command_line_presents_the_open_window_witness :
  let s := run [ev_activate] (started example_home example_config) in
  fsearch_application_command_line
    (mkOptions false false (Some "notes"%string) false false) 0 s
  = (0, s).
Proof.
  apply (command_line_presents_the_open_window
           (mkOptions false false (Some "notes"%string) false false) 0
           (run [ev_activate] (started example_home example_config)));
    try reflexivity.
  vm_compute. lia.
Defined.

(** X12.  The new-window option outlives a command line that also carries
    the preferences or the update-database option: that command line
    returns before the flag is cleared, so the next command line, even one
    without any option, opens another window although one is open, and
    only then clears the flag. *)
Theorem new_window_option_outlives_the_command_line
    (options later : CommandLineOptions) (r1 r2 : Z) (s : FsearchApplication) :
  opt_new_window options = true ->
  opt_preferences options || opt_update_database options = true ->
  opt_preferences later = false ->
  opt_update_database later = false ->
  let s1 := exec (fsearch_application_command_line options r1) s in
  let s2 := exec (fsearch_application_command_line later r2) s1 in
  new_window s1 = true
  /\ windows s1 = windows s
  /\ windows s2 = S (windows s)
  /\ new_window s2 = false.
Proof.
  intros Hn Hpu Hp Hu. destruct options as [nw pr se up ve], later as [nw' pr' se' up' ve'].
  cbn in Hn, Hpu, Hp, Hu. subst.
  open_state s. destruct s_config as [status launch every hours minutes].
  destruct pr, up; try discriminate;
    destruct nw', s_update, s_timeout_id, every, launch, s_pool as [pool|];
    repeat split; reflexivity.
Qed.

Lemma new_window_option_outlives_the_command_line_witness :
  let s := run [ev_activate] (started example_home example_config) in
  let s1 := exec (fsearch_application_command_line
                    (mkOptions true true None false false) 0) s in
  let s2 := exec (fsearch_application_command_line plain_options 0) s1 in
  new_window s1 = true
  /\ windows s1 = windows s
  /\ windows s2 = S (windows s)
  /\ new_window s2 = false.
Proof.
  apply (new_window_option_outlives_the_command_line
           (mkOptions true true None false false) plain_options 0 0
           (run [ev_activate] (started example_home example_config)));
    reflexivity.
Defined.



Module AcceleratorFacts.
Local Open Scope string_scope.

Lemma escape_replaces_escape (show_menubar e e' : bool) :
  set_accels_for_escape e' (startup_accels show_menubar e) = startup_accels show_menubar e'.
Proof. destruct show_menubar, e, e'; vm_compute; reflexivity. Qed.

Lemma last_after_cons (c d : bool) (l : list bool) : last (c :: l) d = last l c.
Proof.
  revert c d. induction l as [|b l IH]; intros c d; [reflexivity|].
  change (last (c :: b :: l) d) with (last (b :: l) d).
  rewrite (IH b d), (IH b c). reflexivity.
Qed.

Lemma accels_after_is_startup (show_menubar e : bool) (changes : list bool) :
  accels_after show_menubar e changes = startup_accels show_menubar (last changes e).
Proof.
  revert e. induction changes as [|c changes IH]; intros e; [reflexivity|].
  rewrite last_after_cons, <- IH. unfold accels_after. cbn [fold_left].
  rewrite escape_replaces_escape. reflexivity.
Qed.

Lemma unbound_accel (accel : string) (t : Accels) :
  ~ In accel (List.concat (map snd t)) -> gtk_application_get_actions_for_accel accel t = [].
Proof.
  unfold gtk_application_get_actions_for_accel.
  induction t as [|[a l] t IH]; intros Hn; [reflexivity|].
  cbn [map List.concat snd] in Hn. cbn [filter snd].
  destruct (existsb (String.eqb accel) l) eqn:Hex.
  - exfalso. apply Hn, in_or_app. left. apply existsb_exists in Hex as (x & Hx & Heq).
    apply String.eqb_eq in Heq. subst. exact Hx.
  - apply IH. intros Hin. apply Hn, in_or_app. right. exact Hin.
Qed.

Lemma one_action_for_each_accel (accel : string) (t : Accels) :
  NoDup (List.concat (map snd t)) ->
  (List.length (gtk_application_get_actions_for_accel accel t) <= 1)%nat.
Proof.
  induction t as [|[a l] t IH]; intros Hnd; [cbn; lia|].
  cbn [map List.concat snd] in Hnd.
  unfold gtk_application_get_actions_for_accel in *. cbn [filter snd].
  destruct (existsb (String.eqb accel) l) eqn:Hex.
  - apply existsb_exists in Hex as (x & Hx & Heq). apply String.eqb_eq in Heq. subst x.
    cbn [map List.length].
    fold (gtk_application_get_actions_for_accel accel t).
    rewrite unbound_accel; [cbn; lia|].
    intros Hin. apply NoDup_app_remove_l in Hnd as Hnd'.
    clear IH Hnd'. induction l as [|y l IHl]; [contradiction|].
    cbn [app] in Hnd. inversion Hnd as [|y' l' Hy Hl]. subst.
    destruct Hx as [->|Hx].
    + apply Hy, in_or_app. right. exact Hin.
    + apply IHl; assumption.
  - apply IH. apply NoDup_app_remove_l in Hnd. exact Hnd.
Qed.

(** X14.  After the startup and any number of preference changes, every
    accelerator triggers at most one action; the Escape key triggers
    [app.quit] when [exit_on_escape] is set in the current configuration
    and [win.hide_window] otherwise, and never both; Control-Q always
    triggers [app.quit]. *)
Theorem each_accelerator_triggers_one_action
    (show_menubar exit_on_escape : bool) (changes : list bool) (accel : string) :
  let t := accels_after show_menubar exit_on_escape changes in
  (List.length (gtk_application_get_actions_for_accel accel t) <= 1)%nat
  /\ gtk_application_get_actions_for_accel "Escape" t
     = [if last changes exit_on_escape then "app.quit" else "win.hide_window"]
  /\ gtk_application_get_actions_for_accel "<control>q" t = ["app.quit"].
Proof.
  cbv zeta. rewrite accels_after_is_startup.
  split; [|destruct show_menubar, (last changes exit_on_escape); split; reflexivity].
  apply one_action_for_each_accel.
  destruct show_menubar, (last changes exit_on_escape);
    match goal with
    | |- NoDup ?l =>
        let l' := eval vm_compute in l in
        change (NoDup l');
        assert (Hl : nodup string_dec l' = l') by (vm_compute; reflexivity);
        rewrite <- Hl; apply NoDup_nodup
    end.
Qed.

End AcceleratorFacts.

(** * [fsearch_file_utils.c]: the data directory and launching *)

Module LaunchFacts.
Import FileUtils.
Local Open Scope string_scope.

Lemma append_assoc (a b c : string) : (a ++ b) ++ c = a ++ b ++ c.
Proof. induction a as [|x a IH]; [reflexivity|]. cbn. rewrite IH. reflexivity. Qed.


Lemma length_append (a b : string) :
  String.length (a ++ b) = (String.length a + String.length b)%nat.
Proof. induction a as [|x a IH]; [reflexivity|]. cbn. rewrite IH. reflexivity. Qed.


Lemma substring_whole (s : string) (n : nat) :
  (String.length s <= n)%nat -> substring 0 n s = s.
Proof.
  revert n. induction s as [|x s IH]; intros n Hn.
  - destruct n; reflexivity.
  - destruct n as [|n]; [cbn in Hn; lia|]. cbn in *. rewrite IH by lia. reflexivity.
Qed.

Lemma substring_length (s : string) (n : nat) :
  (n <= String.length s)%nat -> String.length (substring 0 n s) = n.
Proof.
  revert n. induction s as [|x s IH]; intros n Hn.
  - destruct n; [reflexivity | cbn in Hn; lia].
  - destruct n as [|n]; [reflexivity|]. cbn in *. rewrite IH by lia. reflexivity.
Qed.

Lemma init_data_dir_path_fits (path : string) (len : nat) (xdg_data_dir : string) :
  (0 < len)%nat ->
  ((String.length xdg_data_dir + 8 < len)%nat <->
   fsearch_file_utils_init_data_dir_path path len xdg_data_dir
   = xdg_data_dir ++ "/" ++ "fsearch").
Proof.
  intros Hlen. unfold fsearch_file_utils_init_data_dir_path, snprintf, data_folder_name.
  destruct len as [|k]; [lia|].
  assert (Hl : String.length (xdg_data_dir ++ "/" ++ "fsearch")
               = (String.length xdg_data_dir + 8)%nat).
  { rewrite length_append. reflexivity. }
  split.
  - intros Hfit. apply substring_whole. lia.
  - intros Heq. destruct (Nat.le_gt_cases (String.length xdg_data_dir + 8) k) as [Hle|Hgt];
      [lia|].
    apply (f_equal String.length) in Heq. rewrite substring_length in Heq by lia. lia.
Qed.

(** X15.  The directory [fsearch_application_startup] creates is the
    directory the database is saved to and loaded from exactly when the
    path fits the buffer: [fsearch_file_utils_init_data_dir_path] yields
    the path [fsearch_application_get_database_dir] builds if and only if
    the user data directory is shorter than [PATH_MAX] less the eight
    characters of the folder name and its separator (otherwise the path is
    cut short); and the database file is the file [fsearch.db] in the
    directory [fsearch_application_get_database_dir] names. *)
Theorem created_data_dir_is_the_database_dir (s : FsearchApplication) (buffer : string) :
  ((String.length (user_data_dir s) + 8 < PATH_MAX)%nat <->
   eval fsearch_application_get_database_dir s
   = Some (fsearch_file_utils_init_data_dir_path buffer PATH_MAX (user_data_dir s)))
  /\ (forall dir, eval fsearch_application_get_database_dir s = Some dir ->
                  eval fsearch_application_get_database_file_path s
                  = Some (dir ++ "/" ++ "fsearch.db")).
Proof.
  assert (Hmax : (0 < PATH_MAX)%nat) by (unfold PATH_MAX; apply Nat.lt_0_succ).
  pose proof (init_data_dir_path_fits buffer PATH_MAX (user_data_dir s) Hmax) as Hfit.
  destruct s as [s_db s_config s_pool s_new_window s_db_state s_timeout_id s_cancelled
                 s_num s_mutex s_down s_update s_cancel s_idle s_timeouts s_next_source
                 s_windows s_next_db s_dir s_effects s_accesses].
  cbn [user_data_dir] in *.
  change (eval fsearch_application_get_database_dir _)
    with (Some (s_dir ++ "/" ++ "fsearch")).
  change (eval fsearch_application_get_database_file_path _)
    with (Some (s_dir ++ "/" ++ "fsearch" ++ "/" ++ "fsearch.db")).
  split.
  - rewrite Hfit. split.
    + intros Heq. f_equal. symmetry. exact Heq.
    + intros Heq. injection Heq as Heq. symmetry. exact Heq.
  - intros dir Hdir. injection Hdir as <-. rewrite !append_assoc. reflexivity.
Qed.

(** *** [launch_default_for_path] *)




Example failed_launches_are_all_reported :
  @launch_default_for_path _ local_file failing_uris ["/a"; "/b"] EmptyString
  = (false, "cannot open file:///a" ++ newline ++ "cannot open file:///b" ++ newline).
Proof. reflexivity. Qed.

(** *** Desktop files *)

(** X17.  When [launch_for_content_type] launches desktop files, a file
    without a local path is passed over in silence: the message asked for
    it has that [NULL] path as its item name, so nothing is appended, and
    the result is the same as if the file had not been in the list. *)
Theorem desktop_file_without_path_is_skipped_silently
    {GFile AppInfo : Type} `{GFileIface GFile} `{UriLauncher GFile} `{AppLauncher AppInfo}
    (files : list GFile) (error_messages : option string) :
  launch_for_content_type "application/x-desktop" files true error_messages
  = launch_for_content_type "application/x-desktop" (filter has_local_path files) true
      error_messages.
Proof.
  unfold launch_for_content_type. rewrite String.eqb_refl. cbn [andb].
  revert error_messages. induction files as [|file files IH]; intros em; [reflexivity|].
  cbn [launch_desktop_files filter]. unfold has_local_path at 1.
  destruct (g_file_get_path file) as [path|] eqn:Hp.
  - cbn [launch_desktop_files]. rewrite Hp. apply IH.
  - rewrite <- IH. destruct em; reflexivity.
Qed.

Example remote_desktop_file_is_not_reported :
  @launch_for_content_type _ _ remote_files remote_uris failing_apps
    "application/x-desktop" ["smb://host/share/app.desktop"] true (Some EmptyString)
  = Some EmptyString.
Proof. reflexivity. Qed.

End LaunchFacts.

(** * The end of the application *)

Lemma idle_step_tail (s : FsearchApplication) : idle (step s ev_idle) = tl (idle s).
Proof.
  destruct (idle s) as [|src rest] eqn:Hi.
  - open_state s. subst. reflexivity.
  - destruct src as [text|user_data| | |].
    + open_state s. subst. reflexivity.
    + rewrite (step_idle_finished s user_data rest Hi). open_state s. subst.
      unfold finished_state. destruct s_down, user_data; reflexivity.
    + open_state s. subst. reflexivity.
    + open_state s. subst. reflexivity.
    + open_state s. subst. destruct s_pool; reflexivity.
Qed.

Lemma drain_idle_empties (s : FsearchApplication) : idle (drain_idle s) = [].
Proof.
  unfold drain_idle.
  assert (H : forall n s', List.length (idle s') = n ->
                           idle (run (repeat ev_idle n) s') = []).
  { induction n as [|n IH]; intros s' Hn.
    - change (run (repeat ev_idle 0) s') with s'.
      destruct (idle s'); [reflexivity | discriminate].
    - cbn [repeat]. change (run (ev_idle :: ?l) s') with (run l (step s' ev_idle)).
      apply IH. rewrite idle_step_tail. destruct (idle s'); [discriminate|].
      cbn in *. lia. }
  apply H. reflexivity.
Qed.

Lemma pool_kept_moves (l l' : Ledger) :
  ledger_moves l l' -> l_pool l <> None -> l_pool l' <> None.
Proof.
  intros Hm. induction Hm as [l|l1 l2 l3 H12 _ IH]; [auto|].
  intros Hp. apply IH. clear IH.
  destruct H12 as [cfg l|a l|user_data rest published last l Hd Hpe|user_data rest l Hd Hpe
                  |n ctx q r cb l Hp' Hlt|n q r0 rs o l Hp']; destruct l; ledger_simpl;
    try assumption; try discriminate.
  destruct l_pool0; [discriminate | congruence].
Qed.

Lemma pool_kept_run (evs : list Event) (s : FsearchApplication) :
  forallb (fun e => negb (is_shutdown e)) evs = true ->
  db_pool s <> None -> db_pool (run evs s) <> None.
Proof.
  revert s. induction evs as [|e evs IH]; intros s Hev Hp; [exact Hp|].
  cbn [forallb] in Hev. apply andb_prop in Hev as [He Hev]. apply negb_true_iff in He.
  change (run (e :: evs) s) with (run evs (step s e)). apply IH; [assumption|].
  exact (pool_kept_moves _ _ (step_is_ledger_moves s e He) Hp).
Qed.

Lemma closed_finish_running (rs : list RunningCall) (os : list DbCallResults)
    (s : FsearchApplication) :
  let s' := snd (finish_running rs os s) in
  is_shutting_down s' = is_shutting_down s /\ db_pool s' = db_pool s.
Proof.
  revert os s. induction rs as [|r rs IH]; intros os s; [split; reflexivity|].
  cbn [finish_running]. cbv zeta. rewrite bind_run.
  destruct (IH (snd (next_result os))
              (snd (database_pool_func_leave r (fst (next_result os)) s))) as [Hd Hp].
  rewrite Hd, Hp.
  pose proof (ledger_leave_spec r (fst (next_result os)) s) as Hl.
  split.
  - exact (f_equal l_down Hl).
  - exact (f_equal l_pool Hl).
Qed.

Lemma closed_run_queued (q : list DatabaseUpdateContext) (os : list DbCallResults)
    (s : FsearchApplication) :
  let s' := snd (run_queued q os s) in
  is_shutting_down s' = is_shutting_down s /\ db_pool s' = db_pool s.
Proof.
  revert os s. induction q as [|ctx q IH]; intros os s; [split; reflexivity|].
  cbn [run_queued]. cbv zeta. rewrite bind_run. unfold database_pool_func. rewrite bind_run.
  match goal with
  | |- context [run_queued q ?o ?x] => destruct (IH o x) as [Hd Hp]
  end.
  rewrite Hd, Hp.
  destruct (ledger_enter_spec ctx s) as [He _].
  pose proof (ledger_leave_spec (fst (database_pool_func_enter ctx s)) (fst (next_result os))
                (snd (database_pool_func_enter ctx s))) as Hl.
  rewrite He in Hl.
  split.
  - exact (f_equal l_down Hl).
  - exact (f_equal l_pool Hl).
Qed.

Lemma shutdown_closes (os : list DbCallResults) (s : FsearchApplication) :
  db_pool s <> None -> closed (step s (ev_shutdown os)).
Proof.
  intros Hp. unfold closed, step, exec, handle, fsearch_application_shutdown.
  rewrite bind_run. cbn [gets fst snd]. rewrite bind_run, bind_run.
  destruct (db_pool s) as [pool|] eqn:Hpool; [|congruence].
  rewrite bind_run, bind_run, bind_run. unfold g_thread_pool_free_wait. rewrite bind_run.
  match goal with |- context [finish_running _ _ ?x] => set (s1 := x) end.
  assert (H1 : is_shutting_down s1 = true /\ db_pool s1 = None)
    by (subst s1; open_state s; split; reflexivity).
  destruct (closed_finish_running (running pool) os s1) as [Hd2 Hp2].
  destruct (closed_run_queued (queue pool) (fst (finish_running (running pool) os s1))
              (snd (finish_running (running pool) os s1))) as [Hd3 Hp3].
  destruct H1 as [Hd1 Hp1]. rewrite Hd2, Hd1 in Hd3. rewrite Hp2, Hp1 in Hp3.
  match goal with
  | |- context [clear_db ?x] => set (s3 := x) in *
  end.
  clearbody s3. clear - Hd3 Hp3. open_state s3. subst.
  destruct s_db; repeat split; reflexivity.
Qed.

Lemma closed_idle (s : FsearchApplication) : closed s -> closed (step s ev_idle).
Proof.
  unfold closed. intros (Hd & Hp & Hdb).
  pose proof (ledger_idle s) as Hl.
  change (is_shutting_down (step s ev_idle)) with (l_down (ledger (step s ev_idle))).
  change (db_pool (step s ev_idle)) with (l_pool (ledger (step s ev_idle))).
  change (db (step s ev_idle)) with (l_db (ledger (step s ev_idle))).
  rewrite Hl, Hd.
  destruct (idle s) as [|[text|user_data| | |] rest]; unfold ledger; ledger_simpl;
    rewrite ?Hp; repeat split; assumption.
Qed.

Lemma closed_drain (s : FsearchApplication) : closed s -> closed (drain_idle s).
Proof.
  unfold drain_idle. generalize (List.length (idle s)). intros n. revert s.
  induction n as [|n IH]; intros s Hc; [exact Hc|].
  cbn [repeat]. change (run (ev_idle :: ?l) s) with (run l (step s ev_idle)).
  apply IH, closed_idle, Hc.
Qed.

Lemma ledger_ok_drain (s : FsearchApplication) :
  ledger_ok (ledger s) -> ledger_ok (ledger (drain_idle s)).
Proof. apply ledger_ok_run. Qed.

(** X18.  No database object outlives the application, and none is
    released twice.  When the application shuts down, at whatever point of
    its life, and the main loop has dispatched what was pending, every
    database made by [db_new] (the published one, those of the tasks that
    were queued or running, those of completions not yet handled) has been
    given to [db_unref] exactly once, and none is published. *)
Theorem no_database_outlives_the_application
    (dir : string) (loaded : FsearchConfig) (evs : list Event) (os : list DbCallResults) :
  forallb (fun e => negb (is_shutdown e)) evs = true ->
  let s := drain_idle (step (run evs (started dir loaded)) (ev_shutdown os)) in
  db s = None
  /\ NoDup (map db_id (unreffed (effects s)))
  /\ (forall i : nat, In i (map db_id (unreffed (effects s))) <-> (i < next_db_id s)%nat).
Proof.
  intros Hev s.
  assert (Hp : db_pool (run evs (started dir loaded)) <> None).
  { apply pool_kept_run; [assumption | discriminate]. }
  pose proof (closed_drain _ (shutdown_closes os _ Hp)) as (Hd & Hpool & Hdb).
  fold s in Hd, Hpool, Hdb.
  assert (Hok : ledger_ok (ledger s)).
  { apply ledger_ok_drain, ledger_ok_step, ledger_ok_run, ledger_ok_started. }
  destruct Hok as [_ (_ & _ & _ & _ & Hcnt & _)].
  assert (Hheld : held_with (ledger_running (ledger s)) (ledger s)
                  = map db_id (unreffed (effects s))).
  { unfold held_with, ledger_running, ledger.
    cbn [l_db l_pool l_pending l_unreffed]. rewrite Hdb, Hpool.
    replace (idle s) with (@nil IdleSource) by (symmetry; apply drain_idle_empties).
    reflexivity. }
  rewrite Hheld in Hcnt. change (l_next_db (ledger s)) with (next_db_id s) in Hcnt.
  split; [exact Hdb|]. split.
  - apply (NoDup_count_occ Nat.eq_dec). intros i. rewrite Hcnt.
    destruct (i <? _)%nat; lia.
  - intros i. rewrite (count_occ_In Nat.eq_dec), Hcnt.
    destruct (Nat.ltb_spec i (next_db_id s)); lia.
Qed.

Lemma no_database_outlives_the_application_witness :
  let s := drain_idle (step (run [ev_activate; ev_pool_take;
                                  ev_pool_return (mkResults true 7 [] true);
                                  ev_idle; ev_idle; ev_action act_update_database]
                               (started example_home example_config))
                         (ev_shutdown [mkResults false 3 [] false])) in
  db s = None
  /\ NoDup (map db_id (unreffed (effects s)))
  /\ (forall i : nat, In i (map db_id (unreffed (effects s))) <-> (i < next_db_id s)%nat).
Proof.
  apply (no_database_outlives_the_application example_home example_config
           [ev_activate; ev_pool_take; ev_pool_return (mkResults true 7 [] true);
            ev_idle; ev_idle; ev_action act_update_database]
           [mkResults false 3 [] false]).
  reflexivity.
Defined.

(** * Requests, the pool and the main loop *)

(** ** What the main loop dispatches *)

Lemma drain_idle_step (s : FsearchApplication) (src : IdleSource) (rest : list IdleSource) :
  idle s = src :: rest -> drain_idle s = drain_idle (step s ev_idle).
Proof.
  intros Hi. unfold drain_idle. rewrite idle_step_tail, Hi. reflexivity.
Qed.

Lemma drain_idle_nothing (s : FsearchApplication) : idle s = [] -> drain_idle s = s.
Proof. intros Hi. unfold drain_idle. rewrite Hi. reflexivity. Qed.

(** The pool, the tasks started and the requests pushed, after one turn of
    the main loop. *)
Lemma pool_part_idle (s : FsearchApplication) :
  pool_part (step s ev_idle)
  = match idle s, db_pool s with
    | idle_on_database_scan_enqueue :: _, Some pool =>
        (Some (mkPool (max_threads pool)
                 (queue pool ++ [new_context FSEARCH_DATABASE_ACTION_SCAN]) (running pool)),
         entered (effects s),
         pushed (effects s) ++ [new_context FSEARCH_DATABASE_ACTION_SCAN])
    | _, _ => pool_part s
    end.
Proof.
  destruct (idle s) as [|src rest] eqn:Hi.
  - open_state s. subst. reflexivity.
  - destruct src as [text|user_data| | |].
    + open_state s. subst. unfold pool_part. view_norm. reflexivity.
    + rewrite (step_idle_finished s user_data rest Hi). open_state s. subst.
      unfold pool_part, finished_state.
      destruct s_down, s_cancelled, s_db, user_data; view_norm; reflexivity.
    + open_state s. subst. unfold pool_part. view_norm. reflexivity.
    + open_state s. subst. unfold pool_part. view_norm. reflexivity.
    + open_state s. subst. destruct s_pool as [pool|]; unfold pool_part; view_norm;
        reflexivity.
Qed.

Lemma repeat_snoc {A : Type} (x : A) (k : nat) : repeat x k ++ [x] = x :: repeat x k.
Proof. induction k as [|k IH]; [reflexivity|]. cbn. rewrite IH. reflexivity. Qed.

(** Dispatching what is pending pushes one scan for each fallback that
    waits, and nothing else. *)
Lemma drain_idle_pushes (s : FsearchApplication) (pool : GThreadPool) :
  db_pool s = Some pool ->
  pool_part (drain_idle s)
  = (Some (mkPool (max_threads pool)
             (queue pool ++ repeat (new_context FSEARCH_DATABASE_ACTION_SCAN)
                              (scan_requests (idle s)))
             (running pool)),
     entered (effects s),
     pushed (effects s) ++ repeat (new_context FSEARCH_DATABASE_ACTION_SCAN)
                             (scan_requests (idle s))).
Proof.
  remember (idle s) as l eqn:Hl. revert s pool Hl.
  induction l as [|src rest IH]; intros s pool Hl Hp.
  - rewrite drain_idle_nothing by (symmetry; exact Hl). unfold pool_part.
    rewrite Hp. cbn. rewrite !app_nil_r. destruct pool; reflexivity.
  - symmetry in Hl. rewrite (drain_idle_step s src rest Hl).
    pose proof (pool_part_idle s) as Hstep. unfold pool_part in Hstep.
    rewrite Hl, !Hp in Hstep.
    pose proof (idle_step_tail s) as Ht. rewrite Hl in Ht. cbn [tl] in Ht.
    destruct src; injection Hstep as Hp1 He1 Hu1;
      rewrite (IH (step s ev_idle) _ (eq_sym Ht) Hp1), He1, Hu1;
      unfold scan_requests; cbn [filter is_scan_enqueue List.length repeat max_threads queue
                                   running];
      rewrite <- ?app_assoc; cbn [app]; reflexivity.
Qed.

(** The shutdown flag, the cancellable, the published database and the
    accesses after one turn of the main loop of a running application. *)
Lemma idle_step_running (s : FsearchApplication) :
  is_shutting_down s = false ->
  let s1 := step s ev_idle in
  is_shutting_down s1 = false
  /\ (db_thread_cancellable s1, db s1)
     = dispatched (firstn 1 (idle s)) (db_thread_cancellable s) (db s)
  /\ exists new, accesses s1 = accesses s ++ new /\ Forall db_locked new.
Proof.
  intros Hd. destruct (idle s) as [|src rest] eqn:Hi.
  - open_state s. subst. cbn. repeat split. exists []. rewrite app_nil_r. auto.
  - destruct src as [text|user_data| | |].
    + open_state s. subst. cbn. repeat split. exists []. rewrite app_nil_r. auto.
    + cbv zeta. rewrite (step_idle_finished s user_data rest Hi). open_state s. subst.
      unfold finished_state, db_locked.
      destruct s_cancelled, s_db; cbn; repeat split; eexists; (split; [reflexivity|]);
        repeat constructor.
    + open_state s. subst. cbn. repeat split. exists []. rewrite app_nil_r. auto.
    + open_state s. subst. cbn. repeat split. exists []. rewrite app_nil_r. auto.
    + open_state s. subst. unfold db_locked.
      destruct s_pool as [pool|]; cbn; repeat split; eexists;
        (split; [rewrite <- app_assoc; reflexivity|]); repeat constructor; discriminate.
Qed.

Lemma dispatched_app (l1 l2 : list IdleSource) (c : bool) (cur : option FsearchDatabase) :
  dispatched (l1 ++ l2) c cur
  = dispatched l2 (fst (dispatched l1 c cur)) (snd (dispatched l1 c cur)).
Proof.
  revert c cur. induction l1 as [|src l1 IH]; intros c cur; [reflexivity|].
  destruct src; cbn [app dispatched]; apply IH.
Qed.

(** The main loop of a running application after [m] turns. *)
Lemma idle_steps_running (m : nat) (s : FsearchApplication) :
  is_shutting_down s = false ->
  let s1 := run (repeat ev_idle m) s in
  is_shutting_down s1 = false
  /\ idle s1 = skipn m (idle s)
  /\ (db_thread_cancellable s1, db s1)
     = dispatched (firstn m (idle s)) (db_thread_cancellable s) (db s)
  /\ exists new, accesses s1 = accesses s ++ new /\ Forall db_locked new.
Proof.
  revert s. induction m as [|m IH]; intros s Hd.
  - cbn. repeat split; [exact Hd|]. exists []. rewrite app_nil_r. auto.
  - cbn [repeat]. change (run (ev_idle :: ?l) s) with (run l (step s ev_idle)). cbv zeta.
    destruct (idle_step_running s Hd) as (Hd1 & Hobs & new1 & Ha1 & Hl1).
    destruct (IH (step s ev_idle) Hd1) as (Hd2 & Hi2 & Hobs2 & new2 & Ha2 & Hl2).
    split; [exact Hd2|]. split; [|split].
    + rewrite Hi2, idle_step_tail. destruct (idle s); [destruct m|]; reflexivity.
    + rewrite Hobs2, idle_step_tail.
      destruct (idle s) as [|src rest].
      * cbn in Hobs. injection Hobs as Hc Hdb. rewrite Hc, Hdb. destruct m; reflexivity.
      * change (firstn (S m) (src :: rest)) with ([src] ++ firstn m rest).
        rewrite dispatched_app. cbn [firstn] in Hobs. rewrite <- Hobs. reflexivity.
    + exists (new1 ++ new2). rewrite Ha2, Ha1, app_assoc. split; [reflexivity|].
      apply Forall_app. auto.
Qed.

Lemma last_pending (user_data cur : option FsearchDatabase)
    (l : list (option FsearchDatabase)) :
  last (user_data :: l) cur = last l user_data.
Proof.
  revert user_data cur. induction l as [|b l IH]; intros a cur; [reflexivity|].
  change (last (a :: b :: l) cur) with (last (b :: l) cur).
  rewrite (IH b cur), (IH b a). reflexivity.
Qed.

(** With the cancellable clear, what is published is the database of the
    last completion dispatched. *)
Lemma dispatched_in_order (l : list IdleSource) (cur : option FsearchDatabase) :
  dispatched l false cur = (false, last (pending_of l) cur).
Proof.
  revert cur. induction l as [|src l IH]; intros cur; [reflexivity|].
  destruct src; cbn [dispatched pending_of flat_map app]; rewrite IH; try reflexivity.
  fold (pending_of l). rewrite last_pending. reflexivity.
Qed.

(** A completion or a fallback clears the cancellable for what follows. *)
Lemma dispatched_clears (l : list IdleSource) (c : bool) (cur : option FsearchDatabase) :
  pending_of l <> [] \/ c = false -> fst (dispatched l c cur) = false.
Proof.
  revert c cur. induction l as [|src l IH]; intros c cur Hc.
  - destruct Hc as [Hc|Hc]; [contradiction | exact Hc].
  - destruct src; cbn [dispatched]; apply IH; cbn [pending_of flat_map app] in Hc;
      first [ exact Hc | right; reflexivity ].
Qed.

(** What the return of a task's database call leaves for the main loop. *)
Lemma pool_return_queues_completion (s : FsearchApplication) (n : nat)
    (q : list DatabaseUpdateContext) (r : RunningCall) (rs : list RunningCall)
    (o : DbCallResults) :
  db_pool s = Some (mkPool n q (r :: rs)) ->
  is_request (run_ctx r) ->
  let s1 := step s (ev_pool_return o) in
  (exists between,
      idle s1 = idle s ++ between
                ++ [idle_on_database_update_finished (Some (db_after_call (run_db r) o))]
      /\ pending_of between = [])
  /\ is_shutting_down s1 = is_shutting_down s
  /\ db_thread_cancellable s1 = db_thread_cancellable s
  /\ db s1 = db s
  /\ accesses s1 = accesses s.
Proof.
  intros Hp Hr. open_state s. destruct r as [ctx d cb]. cbn [run_ctx] in Hr. subst.
  destruct s_config as [status launch every hours minutes].
  destruct o as [ok entries texts save].
  split; [|destruct Hr as [->| ->]; destruct cb, ok, s_cancelled, status, launch;
            repeat split; reflexivity].
  exists ((if cb then map idle_on_database_notify_status texts else [])
          ++ match update_func ctx with
             | fn_database_scan_and_save =>
                 if ok && negb s_cancelled && status
                 then [idle_on_database_notify_status msg_saving] else []
             | fn_database_load =>
                 if negb ok && negb launch then [idle_on_database_scan_enqueue] else []
             end).
  split.
  - destruct Hr as [->| ->]; destruct cb, ok, s_cancelled, status, launch; run_m;
      rewrite ?app_nil_r, <- ?app_assoc; reflexivity.
  - rewrite pending_of_app.
    destruct cb; rewrite ?pending_of_status;
      destruct Hr as [->| ->]; destruct ok, s_cancelled, status, launch; reflexivity.
Qed.

(** ** Falling back to a scan *)

Lemma pool_return_load (s : FsearchApplication) (n : nat) (q : list DatabaseUpdateContext)
    (r : RunningCall) (rs : list RunningCall) (o : DbCallResults) :
  db_pool s = Some (mkPool n q (r :: rs)) ->
  run_ctx r = new_context FSEARCH_DATABASE_ACTION_LOAD ->
  step s (ev_pool_return o)
  = set_idle
      (idle s ++ load_reports r o s
       ++ [idle_on_database_update_finished (Some (db_after_call (run_db r) o))])
      (set_db_state FSEARCH_DATABASE_STATE_IDLE
         (set_db_pool (Some (mkPool n q rs)) s)).
Proof.
  intros Hp Hr. open_state s. destruct r as [ctx d cb]. cbn [run_ctx] in Hr. subst.
  destruct s_config as [status launch every hours minutes].
  destruct o as [ok entries texts save].
  unfold load_reports.
  destruct cb, ok, launch; run_m; rewrite ?app_nil_r, <- ?app_assoc; reflexivity.
Qed.


Lemma scan_requests_app (l1 l2 : list IdleSource) :
  scan_requests (l1 ++ l2) = (scan_requests l1 + scan_requests l2)%nat.
Proof. unfold scan_requests. rewrite filter_app, length_app. reflexivity. Qed.

Lemma scan_requests_status (l : list string) :
  scan_requests (map idle_on_database_notify_status l) = O.
Proof. induction l; [reflexivity | assumption]. Qed.

(** C3, as the code has it.  When [db_load] fails for the load task of an
    application that has its pool, [database_load] schedules
    [on_database_scan_enqueue] on the main loop exactly when
    [update_database_on_launch] is off at that moment, behind what the main
    loop already holds and before the completion of the load; once the main
    loop has dispatched what is pending, the pool has been pushed the scans
    that were already scheduled and, with the policy off, one more: the
    fallback.  With the policy on, the failed load adds no request. *)
Theorem failed_load_falls_back_to_scan
    (s : FsearchApplication) (n : nat) (q : list DatabaseUpdateContext) (r : RunningCall)
    (rs : list RunningCall) (o : DbCallResults) :
  db_pool s = Some (mkPool n q (r :: rs)) ->
  run_ctx r = new_context FSEARCH_DATABASE_ACTION_LOAD ->
  result_ok o = false ->
  let s1 := step s (ev_pool_return o) in
  let scan := new_context FSEARCH_DATABASE_ACTION_SCAN in
  let fallback := negb (update_database_on_launch (config s)) in
  idle s1
  = idle s
    ++ ((if run_status_cb r then map idle_on_database_notify_status (result_status o) else [])
        ++ (if fallback then [idle_on_database_scan_enqueue] else []))
    ++ [idle_on_database_update_finished (Some (db_after_call (run_db r) o))]
  /\ pushed (effects (drain_idle s1))
     = pushed (effects s) ++ repeat scan (scan_requests (idle s))
       ++ (if fallback then [scan] else [])
  /\ pool_queue (drain_idle s1)
     = q ++ repeat scan (scan_requests (idle s)) ++ (if fallback then [scan] else []).
Proof.
  intros Hp Hr Hfail. cbv zeta.
  rewrite (pool_return_load s n q r rs o Hp Hr).
  match goal with
  | |- context [drain_idle ?x] => set (s1 := x)
  end.
  assert (Hi1 : idle s1
                = idle s
                  ++ ((if run_status_cb r
                       then map idle_on_database_notify_status (result_status o) else [])
                      ++ (if negb (update_database_on_launch (config s))
                          then [idle_on_database_scan_enqueue] else []))
                  ++ [idle_on_database_update_finished
                        (Some (db_after_call (run_db r) o))]).
  { subst s1. unfold load_reports. rewrite Hfail. destruct s; reflexivity. }
  assert (Hp1 : db_pool s1 = Some (mkPool n q rs)) by (subst s1; destruct s; reflexivity).
  assert (He1 : effects s1 = effects s) by (subst s1; destruct s; reflexivity).
  split; [exact Hi1|].
  pose proof (drain_idle_pushes s1 _ Hp1) as Hd. unfold pool_part in Hd.
  pose proof (f_equal (fun x => fst (fst x)) Hd) as Hpool.
  pose proof (f_equal snd Hd) as Hpushed. cbn [fst snd] in Hpool, Hpushed. clear Hd.
  assert (Hn : repeat (new_context FSEARCH_DATABASE_ACTION_SCAN) (scan_requests (idle s1))
               = repeat (new_context FSEARCH_DATABASE_ACTION_SCAN) (scan_requests (idle s))
                 ++ (if negb (update_database_on_launch (config s))
                     then [new_context FSEARCH_DATABASE_ACTION_SCAN] else [])).
  { rewrite Hi1, !scan_requests_app, repeat_app, repeat_app, repeat_app.
    destruct (run_status_cb r); rewrite ?scan_requests_status;
      destruct (negb (update_database_on_launch (config s))); cbn; rewrite ?app_nil_r;
      reflexivity. }
  rewrite Hn, He1 in Hpushed. rewrite Hn in Hpool. cbn [max_threads queue running] in Hpool.
  split; [exact Hpushed|]. unfold pool_queue. rewrite Hpool. reflexivity.
Qed.

Lemma failed_load_falls_back_to_scan_witness :
  let o := mkResults false 0 [] false in
  let r := mkRunning (new_context FSEARCH_DATABASE_ACTION_LOAD) (mkDatabase 0 0) false in
  let s1 := step loading_state (ev_pool_return o) in
  let scan := new_context FSEARCH_DATABASE_ACTION_SCAN in
  let fallback := negb (update_database_on_launch (config loading_state)) in
  fallback = true
  /\ pool_queue (drain_idle s1)
     = [] ++ repeat scan (scan_requests (idle loading_state))
       ++ (if fallback then [scan] else []).
Proof.
  split; [reflexivity|].
  exact (proj2 (proj2 (failed_load_falls_back_to_scan loading_state 1 []
                         (mkRunning (new_context FSEARCH_DATABASE_ACTION_LOAD)
                            (mkDatabase 0 0) false)
                         [] (mkResults false 0 [] false) eq_refl eq_refl eq_refl))).
Defined.

(** C3 as stated fails: when the application shuts down with the load
    still queued, the load is run by the shutdown, fails with the policy
    off, and its fallback, dispatched afterwards, finds no pool; no scan is
    ever pushed. *)
Lemma failed_load_at_shutdown_gets_no_scan :
  let failed := mkResults false 0 [] false in
  let s := run [ev_activate; ev_shutdown [failed]; ev_idle; ev_idle; ev_idle]
             (started example_home example_config) in
  update_database_on_launch (config s) = false
  /\ entered (effects s) = [new_context FSEARCH_DATABASE_ACTION_LOAD]
  /\ idle s = []
  /\ pushed (effects s) = [new_context FSEARCH_DATABASE_ACTION_LOAD]
  /\ ~ In (new_context FSEARCH_DATABASE_ACTION_SCAN) (pushed (effects s)).
Proof.
  vm_compute. repeat split; try reflexivity.
  intros [H|[]]. discriminate H.
Qed.

(** Nor is a scan pushed when the policy is switched on while the load
    runs: activation pushed none, and the failed load schedules none. *)
Example policy_switched_on_during_the_load :
  let failed := mkResults false 0 [] false in
  let s := run [ev_activate; ev_pool_take;
                ev_preferences (Some (mkConfig false true true 1 30)) false;
                ev_pool_return failed; ev_idle; ev_idle]
             (started example_home example_config) in
  idle s = [] /\ pushed (effects s) = [new_context FSEARCH_DATABASE_ACTION_LOAD].
Proof. vm_compute. split; reflexivity. Qed.

(** ** Publication order *)

Lemma publishing_step (s : FsearchApplication) (user_data : option FsearchDatabase)
    (rest : list IdleSource) :
  is_shutting_down s = false ->
  db_thread_cancellable s = false ->
  idle s = idle_on_database_update_finished user_data :: rest ->
  let s1 := step s ev_idle in
  db s1 = user_data
  /\ exists new,
       accesses s1 = accesses s ++ new
       /\ Forall locked new
       /\ In (mkAccess field_db access_write true) new.
Proof.
  intros Hd Hc Hi. cbv zeta. rewrite (step_idle_finished s user_data rest Hi).
  open_state s. subst. unfold finished_state. cbn.
  split; [reflexivity|]. eexists. split; [reflexivity|].
  split; [destruct s_db; repeat constructor | destruct s_db; cbn; auto 6].
Qed.

(** C4, as the code has it.  When the database call of the running task
    returns, its completion
    is queued behind those that are still waiting, so the completions wait
    in completion order.  The main loop dispatches them in that order: with
    the cancellable clear, after any number of turns the published database
    is the one of the last completion dispatched so far.  When an earlier
    completion is still waiting (several requests in flight), or the
    cancellable is clear, then once the main loop has dispatched what is
    pending the database of the task that completed last is the published
    one; the published reference was written with the state mutex held, as
    was every other access to it on the way. *)
Theorem last_completed_update_wins
    (s : FsearchApplication) (n : nat) (q : list DatabaseUpdateContext) (r : RunningCall)
    (rs : list RunningCall) (o : DbCallResults) :
  is_shutting_down s = false ->
  db_pool s = Some (mkPool n q (r :: rs)) ->
  is_request (run_ctx r) ->
  let d := db_after_call (run_db r) o in
  let s1 := step s (ev_pool_return o) in
  pending_of (idle s1) = pending_of (idle s) ++ [Some d]
  /\ (db_thread_cancellable s = false ->
      forall m : nat,
        db (run (repeat ev_idle m) s1) = last (pending_of (firstn m (idle s1))) (db s))
  /\ (pending_of (idle s) <> [] \/ db_thread_cancellable s = false ->
      db (drain_idle s1) = Some d
      /\ exists new,
           accesses (drain_idle s1) = accesses s ++ new
           /\ Forall db_locked new
           /\ In (mkAccess field_db access_write true) new).
Proof.
  intros Hd Hp Hr d s1.
  destruct (pool_return_queues_completion s n q r rs o Hp Hr)
    as ((between & Hi1 & Hb) & Hd1 & Hc1 & Hdb1 & Ha1).
  fold s1 in Hi1, Hd1, Hc1, Hdb1, Ha1. fold d in Hi1.
  rewrite Hd in Hd1.
  split; [|split].
  - rewrite Hi1, !pending_of_app, Hb. reflexivity.
  - intros Hc m. destruct (idle_steps_running m s1 Hd1) as (_ & _ & Hobs & _).
    rewrite Hc1, Hc, dispatched_in_order, Hdb1 in Hobs. injection Hobs as _ Hdb.
    exact Hdb.
  - intros Hseveral.
    set (m := List.length (idle s ++ between)).
    assert (Hdrain : drain_idle s1 = step (run (repeat ev_idle m) s1) ev_idle).
    { unfold drain_idle. rewrite Hi1, app_assoc, length_app. fold m.
      rewrite repeat_app. unfold run. rewrite fold_left_app. reflexivity. }
    destruct (idle_steps_running m s1 Hd1) as (Hd2 & Hi2 & Hobs & new1 & Ha2 & Hl2).
    rewrite Hi1, app_assoc in Hi2, Hobs. subst m.
    rewrite skipn_app, skipn_all, Nat.sub_diag in Hi2. cbn [skipn app] in Hi2.
    rewrite firstn_app, firstn_all, Nat.sub_diag in Hobs. cbn [firstn] in Hobs.
    rewrite app_nil_r in Hobs.
    assert (Hclear : db_thread_cancellable
                       (run (repeat ev_idle (List.length (idle s ++ between))) s1) = false).
    { pose proof (f_equal fst Hobs) as Hf. cbn [fst] in Hf. rewrite Hf.
      apply dispatched_clears. rewrite Hc1. destruct Hseveral as [Hs|Hs]; [left | right; exact Hs].
      rewrite pending_of_app, Hb, app_nil_r. exact Hs. }
    destruct (publishing_step _ (Some d) [] Hd2 Hclear Hi2) as (Hdb & new2 & Ha3 & Hl3 & Hw).
    rewrite Hdrain. split; [exact Hdb|].
    exists (new1 ++ new2). rewrite Ha3, Ha2, Ha1, app_assoc. split; [reflexivity|].
    split.
    + apply Forall_app. split; [exact Hl2|].
      apply (Forall_impl _ (fun a (Ha : locked a) (_ : acc_field a = field_db) => Ha) Hl3).
    + apply in_or_app. right. exact Hw.
Qed.

Lemma last_completed_update_wins_witness :
  let s := two_in_flight_state in
  let r := mkRunning (new_context FSEARCH_DATABASE_ACTION_SCAN) (mkDatabase 1 0) false in
  let o := mkResults true 9 [] true in
  pending_of (idle s) = [Some (mkDatabase 0 7)]
  /\ pending_of (idle (step s (ev_pool_return o)))
     = pending_of (idle s) ++ [Some (db_after_call (run_db r) o)]
  /\ db (drain_idle (step s (ev_pool_return o))) = Some (db_after_call (run_db r) o).
Proof.
  split; [vm_compute; reflexivity|].
  destruct (last_completed_update_wins two_in_flight_state 1 []
              (mkRunning (new_context FSEARCH_DATABASE_ACTION_SCAN) (mkDatabase 1 0) false)
              [] (mkResults true 9 [] true) eq_refl eq_refl (or_introl eq_refl))
    as (Hq & _ & Hlast).
  split; [exact Hq|].
  apply Hlast. left. vm_compute. discriminate.
Defined.

(** C4 as stated fails: a load and a scan are in flight and both complete,
    the scan last (it has even been saved); the completion of the load is
    dispatched, then the cancel action is activated, then the completion of
    the scan is dispatched: the scan's database is released and the load's
    stays published. *)
Lemma completed_scan_discarded_by_late_cancel :
  let s := run [ev_activate; ev_pool_take; ev_pool_return (mkResults true 7 [] true);
                ev_pool_take; ev_pool_return (mkResults true 9 [] true);
                ev_idle; ev_idle; ev_action act_cancel_update_database; ev_idle; ev_idle]
             (started example_home (mkConfig false true false 0 0)) in
  saved (effects s) = [mkDatabase 1 9]
  /\ idle s = []
  /\ unreffed (effects s) = [mkDatabase 1 9]
  /\ db s = Some (mkDatabase 0 7)
  /\ db s <> Some (mkDatabase 1 9).
Proof. vm_compute. repeat split; try reflexivity. discriminate. Qed.

(** Nor is anything published when the two requests are still in flight at
    shutdown: the shutdown runs both, and their completions, dispatched
    afterwards, release both databases. *)
Example requests_in_flight_at_shutdown :
  let s := run [ev_activate; ev_shutdown [mkResults true 7 [] true; mkResults true 9 [] true];
                ev_idle; ev_idle; ev_idle; ev_idle]
             (started example_home (mkConfig false true false 0 0)) in
  idle s = [] /\ db s = None /\ unreffed (effects s) = [mkDatabase 0 7; mkDatabase 1 9].
Proof. vm_compute. repeat split; reflexivity. Qed.

(** ** The single worker *)

(** C5, as the code has it.  From the start of the application until it
    shuts down there is a pool; it has a single thread and runs at most one
    task; every call of [database_scan_or_load_enqueue] pushes its request
    to it, at the end of the queue; the tasks it has started so far,
    followed by the ones that wait, are the requests in the order they were
    pushed; and a shutdown runs every request that still waits, so that all
    requests pushed have been started, in that order. *)
Theorem single_worker_in_submission_order
    (dir : string) (loaded : FsearchConfig) (evs : list Event) :
  forallb (fun e => negb (is_shutdown e)) evs = true ->
  let s := run evs (started dir loaded) in
  (exists pool,
      db_pool s = Some pool
      /\ max_threads pool = 1%nat
      /\ (List.length (running pool) <= 1)%nat
      /\ entered (effects s) ++ queue pool = pushed (effects s)
      /\ forall a,
           let s' := exec (database_scan_or_load_enqueue a) s in
           db_pool s' = Some (mkPool 1 (queue pool ++ [new_context a]) (running pool))
           /\ pushed (effects s') = pushed (effects s) ++ [new_context a])
  /\ forall os,
       let s' := step s (ev_shutdown os) in
       db_pool s' = None /\ entered (effects s') = pushed (effects s').
Proof.
  intros Hev s.
  assert (Hok : view_pool_ok (view s)).
  { apply pool_ok_run. split; [|reflexivity].
    intros pool Hpool. inversion Hpool; subst. cbn. auto. }
  assert (Hsome : db_pool s <> None) by (apply pool_kept_run; [assumption | discriminate]).
  split.
  - destruct Hok as [Hone Hfifo]. change (v_pool (view s)) with (db_pool s) in Hone, Hfifo.
    destruct (db_pool s) as [pool|] eqn:Hp; [|congruence].
    destruct (Hone pool eq_refl) as [Hmax Hrun].
    exists pool. repeat split; try assumption.
    + rewrite <- Hmax. apply (enqueue_goes_to_the_pool a s pool Hp).
    + apply (enqueue_goes_to_the_pool a s pool Hp).
  - intros os s'.
    destruct (shutdown_closes os s Hsome) as (_ & Hnone & _). fold s' in Hnone.
    split; [exact Hnone|].
    destruct (pool_ok_shutdown os s Hok) as [_ Hfifo].
    change (v_pool (view (step s (ev_shutdown os)))) with (db_pool s') in Hfifo.
    rewrite Hnone, app_nil_r in Hfifo. exact Hfifo.
Qed.

Lemma single_worker_in_submission_order_witness :
  let s := run [ev_activate; ev_pool_take; ev_action act_update_database]
             (started example_home example_config) in
  (exists pool,
      db_pool s = Some pool
      /\ max_threads pool = 1%nat
      /\ (List.length (running pool) <= 1)%nat
      /\ entered (effects s) ++ queue pool = pushed (effects s)
      /\ forall a,
           let s' := exec (database_scan_or_load_enqueue a) s in
           db_pool s' = Some (mkPool 1 (queue pool ++ [new_context a]) (running pool))
           /\ pushed (effects s') = pushed (effects s) ++ [new_context a])
  /\ forall os,
       let s' := step s (ev_shutdown os) in
       db_pool s' = None /\ entered (effects s') = pushed (effects s').
Proof.
  apply (single_worker_in_submission_order example_home example_config
           [ev_activate; ev_pool_take; ev_action act_update_database]).
  reflexivity.
Defined.

(** C5 as stated fails: asked to update the database when no primary
    instance answers, the process makes a database, scans and saves it
    itself; it has no pool, and nothing is pushed or taken by a worker. *)
Lemma local_update_scans_without_the_pool :
  let r := fsearch_application_handle_local_options
             (mkOptions false false None true false) false true false
             (mkResults true 5 [] true) (fsearch_application_new example_home) in
  fst r = EXIT_SUCCESS
  /\ saved (effects (snd r)) = [mkDatabase 0 5]
  /\ db_pool (snd r) = None
  /\ pushed (effects (snd r)) = []
  /\ entered (effects (snd r)) = []
  /\ ~ (exists pool, db_pool (snd r) = Some pool).
Proof.
  vm_compute. repeat split; try reflexivity.
  intros [pool H]. discriminate H.
Qed.
